(** * Emergency-fund runway: the calculation engine of EmergencyFundView

    A shallow embedding of the script part of [EmergencyFundView.svelte]
    (allocation resolution, expense statistics, target resolution, status
    classification, configuration save, snapshot upsert, quick exclude) and
    of the SQL it sends to the data source, with the properties the
    specification states about them. *)

From Stdlib Require Import QArith Qcanon Qround Qcabs Lqa SpecFloat Ascii.
From stdpp Require Import base numbers list strings gmap sorting.

Local Open Scope Z_scope.
Local Open Scope Qc_scope.
Local Open Scope list_scope.

(** Integer literals denote rationals where a rational is expected. *)
Definition Qc_of_Z (z : Z) : Qc := Q2Qc (inject_Z z).
Coercion Qc_of_Z : Z >-> Qc.

(** ** JavaScript numbers

    Values at rest (table columns, decoded JSON numbers) are finite and are
    kept as canonical rationals [Qc].  A value computed by the script is a
    [number]: a finite rational, [NaN] or a signed infinity.  Arithmetic on
    finite values is exact here; division by zero and the operations on
    [NaN] and the infinities follow the language.  The properties stated
    over this module are those that do not turn on the last place of a
    result.  The rounding of every operation is in module [Binary64]
    below, which runs the same steps on binary64 values: what the fund
    balance sums to and where a percentage falls against a threshold are
    stated there. *)

Module JS.

Inductive number : Type :=
  | Num (q : Qc)
  | NaN
  | Inf (negative : bool).

Definition zero : number := Num 0.

Definition Qc_ltb (x y : Qc) : bool := bool_decide (x < y).
Definition Qc_eqb (x y : Qc) : bool := bool_decide (x = y).
Definition Qc_negb (x : Qc) : bool := Qc_ltb x 0.

(** [a + b] *)
Definition add (a b : number) : number :=
  match a, b with
  | NaN, _ | _, NaN => NaN
  | Num x, Num y => Num (x + y)
  | Inf s, Num _ | Num _, Inf s => Inf s
  | Inf s, Inf t => if Bool.eqb s t then Inf s else NaN
  end.

(** [a - b] *)
Definition sub (a b : number) : number :=
  match a, b with
  | NaN, _ | _, NaN => NaN
  | Num x, Num y => Num (x - y)
  | Inf s, Num _ => Inf s
  | Num _, Inf s => Inf (negb s)
  | Inf s, Inf t => if Bool.eqb s t then NaN else Inf s
  end.

(** [a * b] *)
Definition mul (a b : number) : number :=
  match a, b with
  | NaN, _ | _, NaN => NaN
  | Num x, Num y => Num (x * y)
  | Inf s, Num y | Num y, Inf s =>
      if Qc_eqb y 0 then NaN else Inf (xorb s (Qc_negb y))
  | Inf s, Inf t => Inf (xorb s t)
  end.

(** [a / b]: a finite value divided by zero is not finite. *)
Definition div (a b : number) : number :=
  match a, b with
  | NaN, _ | _, NaN => NaN
  | Num x, Num y =>
      if Qc_eqb y 0
      then (if Qc_eqb x 0 then NaN else Inf (Qc_negb x))
      else Num (x / y)
  | Inf s, Num y => Inf (xorb s (Qc_negb y))
  | Num _, Inf _ => Num 0
  | Inf _, Inf _ => NaN
  end.

(** [a < b]: false as soon as one side is [NaN]. *)
Definition lt (a b : number) : bool :=
  match a, b with
  | NaN, _ | _, NaN => false
  | Num x, Num y => Qc_ltb x y
  | Inf s, Num _ => s
  | Num _, Inf s => negb s
  | Inf s, Inf t => s && negb t
  end.

(** [a > b] *)
Definition gt (a b : number) : bool := lt b a.

(** [Math.min(a, b)] *)
Definition min (a b : number) : number :=
  match a, b with
  | NaN, _ | _, NaN => NaN
  | _, _ => if lt b a then b else a
  end.

(** [Math.max(a, b)] *)
Definition max (a b : number) : number :=
  match a, b with
  | NaN, _ | _, NaN => NaN
  | _, _ => if lt a b then b else a
  end.

(** Truthiness of a number: [0] and [NaN] are falsy. *)
Definition truthy (a : number) : bool :=
  match a with
  | Num x => negb (Qc_eqb x 0)
  | NaN => false
  | Inf _ => true
  end.

(** [a || 0] on a number. *)
Definition or_zero (a : number) : number := if truthy a then a else zero.

(** [Number(v) || 0] where [v] is a column value or [undefined]. *)
Definition Number_or_zero (v : option Qc) : number :=
  or_zero (match v with Some x => Num x | None => NaN end).

(** [v ?? d] *)
Definition nullish {A} (v : option A) (d : A) : A :=
  match v with Some x => x | None => d end.

(** Truthiness of a string or [null]: the empty string is falsy. *)
Definition truthy_str (s : option string) : bool :=
  match s with
  | Some x => negb (String.eqb x "")
  | None => false
  end.

#[global] Instance number_eq_dec : EqDecision number.
Proof. solve_decision. Defined.

End JS.

Import JS.

(** ** Data model ([types.ts]) *)

Inductive AllocationType : Type := percentage | fixed.

Record FundAllocation : Type := {
  account_id : string;
  allocation_type : AllocationType;
  allocation_value : Qc;
}.

Inductive CalculationMethod : Type := mean | median | trimmed_mean.

Inductive Status : Type := on_track | warning | critical.

#[global] Instance Status_eq_dec : EqDecision Status.
Proof. solve_decision. Defined.

(** Calendar days and instants are counted from a fixed origin. *)
Definition date : Type := Z.
Definition timestamp : Type := Z.

Record EmergencyFundConfig : Type := {
  id : string;
  linked_goal_id : option string;
  target_months : option Qc;
  fund_allocations : list FundAllocation;
  expense_account_ids : list string;
  excluded_tags : list string;
  lookback_months : Z;
  calculation_method : CalculationMethod;
  created_at : timestamp;
  updated_at : timestamp;
}.

Record EmergencyFundSnapshot : Type := {
  snapshot_id : string;
  snapshot_date : date;
  fund_balance : number;
  monthly_expenses : number;
  months_of_runway : number;
  notes : option string;
  snapshot_created_at : timestamp;
}.

(** [allocations] is the decoded JSON column; [None] stands for a null or
    empty column. *)
Record Goal : Type := {
  goal_id : string;
  name : string;
  target_amount : Qc;
  allocations : option (list FundAllocation);
  icon : string;
  active : bool;
}.

Record RunwayData : Type := {
  fundBalance : number;
  monthlyExpenses : number;
  monthsOfRunway : number;
  targetMonths : number;
  targetAmount : number;
  progressPercent : number;
  remainingToTarget : number;
  status : Status;
}.

Record BreakdownEntry : Type := {
  tag : string;
  amount : Qc;
  percent : Qc;
}.

(** ** The data source

    The tables the view reads and writes.  [accounts] maps an account id to
    the balance column the balance queries select (the latest balance
    snapshot, else the stored balance, else 0). *)

Record Transaction : Type := {
  transaction_date : date;
  tx_amount : Qc;
  tx_account_id : string;
  tx_tags : option (list string);
}.

#[global] Instance Transaction_eq_dec : EqDecision Transaction.
Proof. solve_decision. Defined.

(** The tags a transaction carries: [tx_tags] is the [tags] column, an
    array of strings or NULL, and a NULL column carries none. *)
Definition tags (t : Transaction) : list string := default [] (tx_tags t).

Record ConfigRow : Type := {
  row_id : string;
  row_linked_goal_id : option string;
  row_target_months : option Qc;
  row_target_months_override : option bool;
  row_fund_allocations : list FundAllocation;
  row_expense_account_ids : list string;
  row_excluded_tags : list string;
  row_lookback_months : Z;
  row_calculation_method : option CalculationMethod;
  row_created_at : timestamp;
  row_updated_at : timestamp;
}.

Record Database : Type := {
  accounts : gmap string Qc;
  transactions : list Transaction;
  sys_plugin_goals : list Goal;
  sys_plugin_emergency_fund_config : list ConfigRow;
  sys_plugin_emergency_fund_snapshots : list EmergencyFundSnapshot;
}.

(** What the data source and the runtime supply at a call: the current
    date and instant, the calendar functions of the SQL dialect
    ([DATE_TRUNC('month', d)] and [d - INTERVAL 'n' MONTH]) and the next
    value of [uuid()]. *)
Record Clock : Type := {
  CURRENT_DATE : date;
  CURRENT_TIMESTAMP : timestamp;
  month_of : date → Z;
  minus_months : date → Z → date;
  uuid : string;
}.

(** ** Allocation resolver *)

(** The balance query of [calculateFundBalanceFromAllocations]: one row
    [(account_id, balance)] per account whose id is in the [IN] list.
    The ids of the rules are those of the account list of the settings
    form; here each ['${id}'] of the list is read as the id, which is how
    the host reads an id without an apostrophe.  [Binary64.query_balances]
    below reads any id as the host does. *)
Definition query_balances (db : Database) (accountIds : list string)
  : list (string * Qc) :=
  map_to_list (filter (λ kv, kv.1 ∈ accountIds) (accounts db)).

(** [Number(balanceRows.find(r => r[0] === id)?.[1]) || 0] *)
Definition account_balance (balanceRows : list (string * Qc)) (aid : string)
  : number :=
  Number_or_zero (snd <$> List.find (λ r, String.eqb r.1 aid) balanceRows).

(** One turn of the loop over the allocations. *)
Definition add_allocation (balanceRows : list (string * Qc))
    (fundBalance : number) (alloc : FundAllocation) : number :=
  let accountBalance := account_balance balanceRows (account_id alloc) in
  match allocation_type alloc with
  | percentage =>
      JS.add fundBalance
        (JS.div (JS.mul accountBalance (Num (allocation_value alloc))) (Num 100))
  | fixed =>
      JS.add fundBalance (JS.min (Num (allocation_value alloc)) accountBalance)
  end.

Definition calculateFundBalanceFromAllocations (db : Database)
    (allocs : list FundAllocation) : number :=
  match allocs with
  | [] => Num 0
  | _ =>
      let accountIds := map account_id allocs in
      let balanceRows := query_balances db accountIds in
      fold_left (add_allocation balanceRows) allocs (Num 0)
  end.

(** The resolver as the specification words it: a balance mapping, a
    missing account counting as balance 0, and the sum of the rules'
    contributions. *)
Definition Qc_min (x y : Qc) : Qc := if decide (x ≤ y) then x else y.

Definition Qc_sum (l : list Qc) : Qc := foldr Qcplus 0 l.

Definition balance_of (balances : gmap string Qc) (aid : string) : Qc :=
  default 0 (balances !! aid).

Definition contribution (balances : gmap string Qc) (rule : FundAllocation)
  : Qc :=
  let balance := balance_of balances (account_id rule) in
  match allocation_type rule with
  | percentage => balance * allocation_value rule / 100
  | fixed => Qc_min (allocation_value rule) balance
  end.

Definition resolve (rules : list FundAllocation) (balances : gmap string Qc)
  : Qc :=
  Qc_sum (map (contribution balances) rules).


(** ** The SQL aggregates of the queries

    [AVG] and [PERCENTILE_CONT] are NULL ([None]) over no rows.
    [PERCENTILE_CONT(p)] is the continuous percentile: with the [N] values
    in ascending order and [RN = p * (N - 1)] counted from 0, the value at
    [RN] when [RN] is whole, else the linear interpolation between the
    values at [floor RN] and [ceiling RN]. *)

Definition Qc_floor (x : Qc) : Z := Qfloor x.
Definition Qc_ceiling (x : Qc) : Z := Qceiling x.

Definition AVG (l : list Qc) : option Qc :=
  match l with
  | [] => None
  | _ => Some (Qc_sum l / Z.of_nat (length l))
  end.

Definition PERCENTILE_CONT (p : Qc) (l : list Qc) : option Qc :=
  match l with
  | [] => None
  | x0 :: _ =>
      let sorted := merge_sort Qcle l in
      let RN : Qc := p * (Z.of_nat (length l) - 1)%Z in
      let FRN := Qc_floor RN in
      let CRN := Qc_ceiling RN in
      let value_at (i : Z) := nth (Z.to_nat i) sorted x0 in
      if decide (FRN = CRN) then Some (value_at FRN)
      else Some ((CRN - RN) * value_at FRN + (RN - FRN) * value_at CRN)
  end.

(** [x BETWEEN lo AND hi], not true when a bound is NULL. *)
Definition BETWEEN (x : Qc) (lo hi : option Qc) : bool :=
  match lo, hi with
  | Some a, Some b => bool_decide (a ≤ x) && bool_decide (x ≤ b)
  | _, _ => false
  end.

(** [ROUND(x, digits)]: to the nearest multiple of [10^-digits], halves
    away from zero. *)
Definition ROUND (x : Qc) (digits : nat) : Qc :=
  let scale : Z := (10 ^ Z.of_nat digits)%Z in
  let n : Z := Qc_floor (Qcabs x * scale + 1 / 2) in
  (if decide (x < 0) then (- n)%Z else n) / scale.

(** ** Values spliced into a statement

    The script builds its statements by splicing values into the SQL text.
    A string goes between two apostrophes as it is; the host reads a
    literal up to the first apostrophe that is not doubled, and a doubled
    apostrophe as one.  [sql_literal text] is the string the host reads
    from ['text'] when the literal ends where the script meant it to end.
    It is [None] when an apostrophe of [text] ends the literal early: the
    rest of [text] is then read as SQL, and the model takes the statement
    to be rejected. *)
Definition apostrophe : ascii := "'"%char.

Fixpoint sql_literal (text : string) : option string :=
  match text with
  | EmptyString => Some EmptyString
  | String c rest =>
      if Ascii.eqb c apostrophe then
        match rest with
        | String c' rest' =>
            if Ascii.eqb c' apostrophe
            then String apostrophe <$> sql_literal rest'
            else None
        | EmptyString => None
        end
      else String c <$> sql_literal rest
  end.

Fixpoint no_apostrophe (text : string) : bool :=
  match text with
  | EmptyString => true
  | String c rest => negb (Ascii.eqb c apostrophe) && no_apostrophe rest
  end.

(** The strings of ['${JSON.stringify(list)}']: [JSON.stringify] leaves
    an apostrophe as it is, so each string of the array is read like a
    literal of its own. *)
Definition sql_json_strings (l : list string) : option (list string) :=
  mapM sql_literal l.

(** A number spliced into a statement for a [DECIMAL(width, scale)]
    column: rounded to [scale] decimals, halves away from zero, and
    rejected when the rounded value needs more than [width] digits.  [NaN]
    and the infinities are spliced as names the host does not know. *)
Definition DECIMAL (width scale : nat) (x : number) : option Qc :=
  match x with
  | Num q =>
      let rounded := ROUND q scale in
      if decide (Qcabs rounded < (10 ^ Z.of_nat (width - scale))%Z)
      then Some rounded else None
  | NaN | Inf _ => None
  end.

(** A whole number spliced into a statement for an [INTEGER] column. *)
Definition INTEGER (z : Z) : option Z :=
  if decide (- 2 ^ 31 ≤ z < 2 ^ 31)%Z then Some z else None.

(** ** Expense estimator *)

(** [list_contains(tags, 'tag')] *)
Definition list_contains (l : list string) (t : string) : bool :=
  bool_decide (t ∈ l).

(** [AND NOT (list_contains(tags, 'a') OR list_contains(tags, 'b') ...)],
    a condition the queries carry only when a tag is excluded.  On a NULL
    [tags] column every [list_contains] is NULL, so is the whole
    condition, and the row is not kept. *)
Definition tagFilter (excluded : list string) (t : Transaction) : bool :=
  match excluded with
  | [] => true
  | _ =>
      match tx_tags t with
      | Some ts => negb (existsb (list_contains ts) excluded)
      | None => false
      end
  end.

(** The [WHERE] clause shared by the expense query and the breakdown
    query: an outflow, of a selected account, passing the tag filter,
    dated inside the lookback window. *)
Definition expense_where (clock : Clock) (cfg : EmergencyFundConfig)
    (t : Transaction) : bool :=
  bool_decide (tx_amount t < 0)
  && bool_decide (tx_account_id t ∈ expense_account_ids cfg)
  && tagFilter (excluded_tags cfg) t
  && bool_decide
       (minus_months clock (CURRENT_DATE clock) (lookback_months cfg)
        ≤ transaction_date t)%Z.

Definition expense_rows (db : Database) (clock : Clock)
    (cfg : EmergencyFundConfig) : list Transaction :=
  List.filter (expense_where clock cfg) (transactions db).

(** The [monthly_totals] table expression: one row per month that has a
    matching transaction, with the sum of the absolute amounts. *)
Definition monthly_totals (db : Database) (clock : Clock)
    (cfg : EmergencyFundConfig) : list (Z * Qc) :=
  let rows := expense_rows db clock cfg in
  let month t := month_of clock (transaction_date t) in
  map (λ m, (m, Qc_sum (map (λ t, Qcabs (tx_amount t))
                          (List.filter (λ t, bool_decide (month t = m)) rows))))
      (remove_dups (map month rows)).

(** The aggregate selected from [monthly_totals], by calculation method. *)
Definition monthly_avg (method : CalculationMethod) (totals : list Qc)
  : option Qc :=
  match method with
  | median => PERCENTILE_CONT (1 / 2) totals
  | trimmed_mean =>
      AVG (List.filter
             (λ total, BETWEEN total (PERCENTILE_CONT (1 / 10) totals)
                                     (PERCENTILE_CONT (9 / 10) totals))
             totals)
  | mean => AVG totals
  end.

(** [expenseRows[0]?.[0] || 0] *)
Definition value_or_zero (v : option Qc) : number :=
  match v with
  | Some x => or_zero (Num x)
  | None => Num 0
  end.

(** The estimator applied to a set of monthly totals. *)
Definition estimate (method : CalculationMethod) (totals : list Qc) : number :=
  value_or_zero (monthly_avg method totals).

(** The "Get monthly expenses" step of [calculateRunway]. *)
Definition queryMonthlyExpenses (db : Database) (clock : Clock)
    (cfg : EmergencyFundConfig) : number :=
  match expense_account_ids cfg with
  | [] => Num 0
  | _ => estimate (calculation_method cfg) (map snd (monthly_totals db clock cfg))
  end.

(** ** Expense breakdown *)

(** The [tagged_expenses] table expression: [UNNEST(tags)] gives one row
    per tag of each matching transaction, and no row for a transaction
    whose tags are an empty array or NULL.  [COALESCE(..., 'Untagged')]
    renames a NULL element of the array; the arrays of the model hold
    strings only, so it renames nothing here. *)
Definition tagged_expenses (db : Database) (clock : Clock)
    (cfg : EmergencyFundConfig) : list (string * Qc) :=
  flat_map (λ t, map (λ g, (g, Qcabs (tx_amount t))) (tags t))
           (expense_rows db clock cfg).

Definition group_sum (g : string) (rows : list (string * Qc)) : Qc :=
  Qc_sum (map snd (List.filter (λ r, String.eqb r.1 g) rows)).

Definition breakdown_row (cfg : EmergencyFundConfig)
    (rows : list (string * Qc)) (g : string) : BreakdownEntry :=
  let grand_total := Qc_sum (map snd rows) in
  {| tag := g;
     amount := ROUND (group_sum g rows / lookback_months cfg) 2;
     percent := ROUND (group_sum g rows / grand_total * 100%Z) 1 |}.

(** [ORDER BY monthly_avg DESC] *)
Definition by_amount_desc (r1 r2 : BreakdownEntry) : Prop :=
  amount r2 ≤ amount r1.

#[global] Instance by_amount_desc_dec : RelDecision by_amount_desc :=
  λ r1 r2, decide (amount r2 ≤ amount r1).

(** The breakdown query: grouped by tag, ordered by monthly average,
    largest first. *)
Definition breakdown_query (db : Database) (clock : Clock)
    (cfg : EmergencyFundConfig) : list BreakdownEntry :=
  let rows := tagged_expenses db clock cfg in
  merge_sort by_amount_desc
    (map (breakdown_row cfg rows) (remove_dups (map fst rows))).

(** ** The view: component state, data source, notifications *)

Inductive Toast : Type :=
  | toast_success (message : string)
  | toast_info (message : string) (about : string)
  | toast_warning (message : string) (monthsOfRunway targetMonths : number)
  | toast_error (message : string).

(** The settings form. *)
Record Form : Type := {
  formLinkedGoalId : option string;
  formTargetMonths : Qc;
  formTargetMonthsOverride : bool;
  formFundAllocations : list FundAllocation;
  formExpenseAccountIds : list string;
  formExcludedTags : list string;
  formLookbackMonths : Z;
  formCalculationMethod : CalculationMethod;
}.

Record View : Type := {
  config : option EmergencyFundConfig;
  goals : list Goal;
  snapshots : list EmergencyFundSnapshot;
  runwayData : option RunwayData;
  expenseBreakdown : list BreakdownEntry;
  autoTargetMonths : option number;
  showSettings : bool;
  showSetup : bool;
  form : Form;
}.

(** The data source, the component state and the notifications shown so
    far, latest last. *)
Record World : Type := {
  db : Database;
  view : View;
  toasts : list Toast;
}.

Definition with_view (f : View → View) (w : World) : World :=
  {| db := db w; view := f (view w); toasts := toasts w |}.

Definition with_db (f : Database → Database) (w : World) : World :=
  {| db := f (db w); view := view w; toasts := toasts w |}.

Definition toast (t : Toast) (w : World) : World :=
  {| db := db w; view := view w; toasts := toasts w ++ [t] |}.

Definition set_config (c : option EmergencyFundConfig) (f : Form) (v : View)
  : View :=
  {| config := c; goals := goals v; snapshots := snapshots v;
     runwayData := runwayData v; expenseBreakdown := expenseBreakdown v;
     autoTargetMonths := autoTargetMonths v; showSettings := showSettings v;
     showSetup := showSetup v; form := f |}.

Definition set_snapshots (l : list EmergencyFundSnapshot) (v : View) : View :=
  {| config := config v; goals := goals v; snapshots := l;
     runwayData := runwayData v; expenseBreakdown := expenseBreakdown v;
     autoTargetMonths := autoTargetMonths v; showSettings := showSettings v;
     showSetup := showSetup v; form := form v |}.

Definition set_runway (r : option RunwayData) (auto : option number)
    (v : View) : View :=
  {| config := config v; goals := goals v; snapshots := snapshots v;
     runwayData := r; expenseBreakdown := expenseBreakdown v;
     autoTargetMonths := auto; showSettings := showSettings v;
     showSetup := showSetup v; form := form v |}.

Definition set_expenseBreakdown (l : list BreakdownEntry) (v : View) : View :=
  {| config := config v; goals := goals v; snapshots := snapshots v;
     runwayData := runwayData v; expenseBreakdown := l;
     autoTargetMonths := autoTargetMonths v; showSettings := showSettings v;
     showSetup := showSetup v; form := form v |}.

Definition close_dialogs (v : View) : View :=
  {| config := config v; goals := goals v; snapshots := snapshots v;
     runwayData := runwayData v; expenseBreakdown := expenseBreakdown v;
     autoTargetMonths := autoTargetMonths v; showSettings := false;
     showSetup := false; form := form v |}.

Definition set_config_table (t : list ConfigRow) (d : Database) : Database :=
  {| accounts := accounts d; transactions := transactions d;
     sys_plugin_goals := sys_plugin_goals d;
     sys_plugin_emergency_fund_config := t;
     sys_plugin_emergency_fund_snapshots :=
       sys_plugin_emergency_fund_snapshots d |}.

Definition set_snapshot_table (t : list EmergencyFundSnapshot) (d : Database)
  : Database :=
  {| accounts := accounts d; transactions := transactions d;
     sys_plugin_goals := sys_plugin_goals d;
     sys_plugin_emergency_fund_config := sys_plugin_emergency_fund_config d;
     sys_plugin_emergency_fund_snapshots := t |}.

(** ** [loadGoals]: the active goals. *)
Definition set_goals (l : list Goal) (v : View) : View :=
  {| config := config v; goals := l; snapshots := snapshots v;
     runwayData := runwayData v; expenseBreakdown := expenseBreakdown v;
     autoTargetMonths := autoTargetMonths v; showSettings := showSettings v;
     showSetup := showSetup v; form := form v |}.

Definition loadGoals (w : World) : World :=
  with_view (set_goals (List.filter active (sys_plugin_goals (db w)))) w.

(** ** [loadConfig]

    [SELECT ... LIMIT 1] takes the first row of the table; with no row the
    state is left as it was. *)
Definition config_of_row (r : ConfigRow) : EmergencyFundConfig :=
  {| id := row_id r;
     linked_goal_id := row_linked_goal_id r;
     target_months := row_target_months r;
     fund_allocations := row_fund_allocations r;
     expense_account_ids := row_expense_account_ids r;
     excluded_tags := row_excluded_tags r;
     lookback_months :=
       (if (row_lookback_months r =? 0)%Z then 6%Z else row_lookback_months r);
     calculation_method := nullish (row_calculation_method r) mean;
     created_at := row_created_at r;
     updated_at := row_updated_at r |}.

Definition form_of_row (r : ConfigRow) : Form :=
  let c := config_of_row r in
  {| formLinkedGoalId := linked_goal_id c;
     formTargetMonths := nullish (target_months c) 6%Z;
     formTargetMonthsOverride := nullish (row_target_months_override r) false;
     formFundAllocations := fund_allocations c;
     formExpenseAccountIds := expense_account_ids c;
     formExcludedTags := excluded_tags c;
     formLookbackMonths := lookback_months c;
     formCalculationMethod := calculation_method c |}.

Definition loadConfig (w : World) : World :=
  match sys_plugin_emergency_fund_config (db w) with
  | [] => w
  | r :: _ => with_view (set_config (Some (config_of_row r)) (form_of_row r)) w
  end.

(** ** [loadSnapshots]: the twelve latest snapshots, latest date first. *)
Definition by_date_desc (s1 s2 : EmergencyFundSnapshot) : Prop :=
  (snapshot_date s2 ≤ snapshot_date s1)%Z.

#[global] Instance by_date_desc_dec : RelDecision by_date_desc :=
  λ s1 s2, decide (snapshot_date s2 ≤ snapshot_date s1)%Z.

Definition loadSnapshots (w : World) : World :=
  with_view
    (set_snapshots
       (take 12 (merge_sort by_date_desc
                   (sys_plugin_emergency_fund_snapshots (db w)))))
    w.

(** ** [loadExpenseBreakdown] *)
Definition loadExpenseBreakdown (clock : Clock) (w : World) : World :=
  match config (view w) with
  | None => with_view (set_expenseBreakdown []) w
  | Some cfg =>
      match expense_account_ids cfg with
      | [] => with_view (set_expenseBreakdown []) w
      | _ => with_view (set_expenseBreakdown (breakdown_query (db w) clock cfg)) w
      end
  end.

(** ** [calculateRunway] *)

(** [goals.find((g) => g.id === config.linked_goal_id)] *)
Definition find_goal (gs : list Goal) (linked : option string) : option Goal :=
  List.find (λ g, bool_decide (Some (goal_id g) = linked)) gs.

(** The allocations the fund balance is computed from: those of the linked
    goal, else the manual ones of the configuration. *)
Definition allocationsToUse (cfg : EmergencyFundConfig) (gs : list Goal)
  : list FundAllocation :=
  if truthy_str (linked_goal_id cfg) then
    match find_goal gs (linked_goal_id cfg) with
    | Some goal => nullish (allocations goal) []
    | None => []
    end
  else fund_allocations cfg.

(** The target in months and the new value of [autoTargetMonths];
    [override] is [formTargetMonthsOverride] and [previous] is the value
    [autoTargetMonths] holds when the evaluation starts. *)
Definition resolveTarget (cfg : EmergencyFundConfig) (gs : list Goal)
    (override : bool) (previous : option number) (monthlyExpenses : number)
  : number * option number :=
  let targetMonths := Num (nullish (target_months cfg) 6%Z) in
  if truthy_str (linked_goal_id cfg) then
    match find_goal gs (linked_goal_id cfg) with
    | Some goal =>
        if JS.gt monthlyExpenses (Num 0) then
          let auto := JS.div (Num (target_amount goal)) monthlyExpenses in
          if negb override && bool_decide (target_months cfg = None)
          then (auto, Some auto)
          else (targetMonths, Some auto)
        else (targetMonths, previous)
    | None => (targetMonths, previous)
    end
  else (targetMonths, None).

Definition runwayPercent (monthsOfRunway targetMonths : number) : number :=
  if JS.gt targetMonths (Num 0)
  then JS.mul (JS.div monthsOfRunway targetMonths) (Num 100%Z)
  else Num 0.

Definition classify (runwayPercent : number) : Status :=
  if JS.lt runwayPercent (Num 80%Z)
  then (if JS.lt runwayPercent (Num 50%Z) then critical else warning)
  else on_track.

(** The result object built from the fund balance, the monthly expenses
    and the target in months. *)
Definition evaluate (fundBalance monthlyExpenses targetMonths : number)
  : RunwayData :=
  let monthsOfRunway :=
    if JS.gt monthlyExpenses (Num 0)
    then JS.div fundBalance monthlyExpenses else Num 0 in
  let targetAmount := JS.mul monthlyExpenses targetMonths in
  let progressPercent :=
    if JS.gt targetAmount (Num 0)
    then JS.mul (JS.div fundBalance targetAmount) (Num 100%Z) else Num 0 in
  let remainingToTarget := JS.max (Num 0) (JS.sub targetAmount fundBalance) in
  {| fundBalance := fundBalance;
     monthlyExpenses := monthlyExpenses;
     monthsOfRunway := monthsOfRunway;
     targetMonths := targetMonths;
     targetAmount := targetAmount;
     progressPercent := progressPercent;
     remainingToTarget := remainingToTarget;
     status := classify (runwayPercent monthsOfRunway targetMonths) |}.

Definition calculateRunway (clock : Clock) (w : World) : World :=
  match config (view w) with
  | None => w
  | Some cfg =>
      let fundBalance :=
        calculateFundBalanceFromAllocations (db w)
          (allocationsToUse cfg (goals (view w))) in
      let monthlyExpenses := queryMonthlyExpenses (db w) clock cfg in
      let '(targetMonths, auto) :=
        resolveTarget cfg (goals (view w))
          (formTargetMonthsOverride (form (view w)))
          (autoTargetMonths (view w)) monthlyExpenses in
      let result := evaluate fundBalance monthlyExpenses targetMonths in
      let w1 := with_view (set_runway (Some result) auto) w in
      let w2 :=
        match status result with
        | on_track => w1
        | _ => toast (toast_warning "Runway alert" (monthsOfRunway result)
                        targetMonths) w1
        end in
      loadExpenseBreakdown clock w2
  end.

(** ** [saveConfig] *)

(** [targetMonthsValue]: ["NULL"] with a goal linked and the override
    flag off, else the months of the form. *)
Definition targetMonthsValue (f : Form) : option Qc :=
  if truthy_str (formLinkedGoalId f) && negb (formTargetMonthsOverride f)
  then None
  else Some (formTargetMonths f).

(** The column values the host reads from the [UPDATE] or the [INSERT] of
    [saveConfig]. *)
Record ConfigValues : Type := {
  value_linked_goal_id : option string;
  value_target_months : option Qc;
  value_target_months_override : bool;
  value_fund_allocations : list FundAllocation;
  value_expense_account_ids : list string;
  value_excluded_tags : list string;
  value_lookback_months : Z;
  value_calculation_method : CalculationMethod;
}.

(** The allocations of ['${JSON.stringify(formFundAllocations)}']: the
    account ids are the strings of the text. *)
Definition sql_json_allocations (l : list FundAllocation)
  : option (list FundAllocation) :=
  mapM (λ a, (λ i, {| account_id := i;
                      allocation_type := allocation_type a;
                      allocation_value := allocation_value a |})
             <$> sql_literal (account_id a)) l.

(** [None] when the host rejects the statement: a spliced text ends its
    literal early, or a number does not fit its column
    ([target_months DECIMAL(4,1)], [lookback_months INTEGER]). *)
Definition saved_values (f : Form) : option ConfigValues :=
  linked ←
    (if truthy_str (formLinkedGoalId f)
     then g ← formLinkedGoalId f; Some <$> sql_literal g
     else Some None);
  target ←
    match targetMonthsValue f with
    | Some months => Some <$> DECIMAL 4 1 (Num months)
    | None => Some None
    end;
  allocations ← sql_json_allocations (formFundAllocations f);
  accountIds ← sql_json_strings (formExpenseAccountIds f);
  excluded ← sql_json_strings (formExcludedTags f);
  lookback ← INTEGER (formLookbackMonths f);
  Some {| value_linked_goal_id := linked;
          value_target_months := target;
          value_target_months_override := formTargetMonthsOverride f;
          value_fund_allocations := allocations;
          value_expense_account_ids := accountIds;
          value_excluded_tags := excluded;
          value_lookback_months := lookback;
          value_calculation_method := formCalculationMethod f |}.

Definition saved_row (v : ConfigValues) (rid : string)
    (created updated : timestamp) : ConfigRow :=
  {| row_id := rid;
     row_linked_goal_id := value_linked_goal_id v;
     row_target_months := value_target_months v;
     row_target_months_override := Some (value_target_months_override v);
     row_fund_allocations := value_fund_allocations v;
     row_expense_account_ids := value_expense_account_ids v;
     row_excluded_tags := value_excluded_tags v;
     row_lookback_months := value_lookback_months v;
     row_calculation_method := Some (value_calculation_method v);
     row_created_at := created;
     row_updated_at := updated |}.

(** The table after the statement: with a configuration loaded, the
    [UPDATE ... WHERE id = '${config.id}']; without one, the [INSERT],
    whose row takes the next [uuid()]. *)
Definition save_config_table (clock : Clock) (c : option EmergencyFundConfig)
    (f : Form) (table : list ConfigRow) : option (list ConfigRow) :=
  v ← saved_values f;
  match c with
  | Some cfg =>
      rid ← sql_literal (id cfg);
      Some (map (λ r, if String.eqb (row_id r) rid
                      then saved_row v (row_id r) (row_created_at r)
                             (CURRENT_TIMESTAMP clock)
                      else r) table)
  | None =>
      Some (table ++ [saved_row v (uuid clock) (CURRENT_TIMESTAMP clock)
                        (CURRENT_TIMESTAMP clock)])
  end.

(** A rejected statement takes the [catch] branch: an error is shown and
    nothing else changes. *)
Definition saveConfig (clock : Clock) (w : World) : World :=
  match save_config_table clock (config (view w)) (form (view w))
          (sys_plugin_emergency_fund_config (db w)) with
  | Some table =>
      let w1 := with_db (set_config_table table) w in
      let w2 := loadConfig w1 in
      let w3 := calculateRunway clock w2 in
      toast (toast_success "Settings saved") (with_view close_dialogs w3)
  | None => toast (toast_error "Failed to save settings") w
  end.

(** The column values of a form whose texts the host reads as they are
    and whose numbers fit their columns. *)
Definition form_values (f : Form) : ConfigValues :=
  {| value_linked_goal_id :=
       (if truthy_str (formLinkedGoalId f) then formLinkedGoalId f else None);
     value_target_months := (λ months, ROUND months 1) <$> targetMonthsValue f;
     value_target_months_override := formTargetMonthsOverride f;
     value_fund_allocations := formFundAllocations f;
     value_expense_account_ids := formExpenseAccountIds f;
     value_excluded_tags := formExcludedTags f;
     value_lookback_months := formLookbackMonths f;
     value_calculation_method := formCalculationMethod f |}.

(** The host reads the texts of the form, and the id of the configuration
    loaded, as they are: none holds an apostrophe. *)
Definition plain_form (c : option EmergencyFundConfig) (f : Form) : bool :=
  default true (no_apostrophe <$> formLinkedGoalId f)
  && forallb (λ a, no_apostrophe (account_id a)) (formFundAllocations f)
  && forallb no_apostrophe (formExpenseAccountIds f)
  && forallb no_apostrophe (formExcludedTags f)
  && default true ((λ cfg, no_apostrophe (id cfg)) <$> c).

(** The numbers of the form fit their columns. *)
Definition fits_columns (f : Form) : Prop :=
  is_Some (INTEGER (formLookbackMonths f))
  ∧ match targetMonthsValue f with
    | Some months => is_Some (DECIMAL 4 1 (Num months))
    | None => True
    end.

#[global] Instance fits_columns_dec f : Decision (fits_columns f).
Proof. unfold fits_columns. destruct (targetMonthsValue f); apply _. Defined.

(** The configuration table holds the one row the component has loaded,
    or no row when none is loaded. *)
Definition config_in_sync (w : World) : Prop :=
  match config (view w) with
  | Some cfg =>
      ∃ r, sys_plugin_emergency_fund_config (db w) = [r] ∧ row_id r = id cfg
  | None => sys_plugin_emergency_fund_config (db w) = []
  end.

(** ** Snapshots *)

(** The three figures of a result as the columns of the snapshot table
    take them: [fund_balance] and [monthly_expenses] are [DECIMAL(15,2)],
    [months_of_runway] is [DECIMAL(4,1)].  [None] when one of them does
    not fit: the statement is rejected. *)
Record SnapshotFigures : Type := {
  figure_fund_balance : Qc;
  figure_monthly_expenses : Qc;
  figure_months_of_runway : Qc;
}.

Definition snapshot_figures (r : RunwayData) : option SnapshotFigures :=
  fb ← DECIMAL 15 2 (fundBalance r);
  me ← DECIMAL 15 2 (monthlyExpenses r);
  months ← DECIMAL 4 1 (monthsOfRunway r);
  Some {| figure_fund_balance := fb;
          figure_monthly_expenses := me;
          figure_months_of_runway := months |}.

(** [INSERT ... ON CONFLICT (snapshot_date) DO UPDATE SET ...]: a row of
    that date has its three figures overwritten; without one a new row is
    appended, with a new id, no notes and the current instant. *)
Definition updated_snapshot (v : SnapshotFigures) (s : EmergencyFundSnapshot)
  : EmergencyFundSnapshot :=
  {| snapshot_id := snapshot_id s;
     snapshot_date := snapshot_date s;
     fund_balance := Num (figure_fund_balance v);
     monthly_expenses := Num (figure_monthly_expenses v);
     months_of_runway := Num (figure_months_of_runway v);
     notes := notes s;
     snapshot_created_at := snapshot_created_at s |}.

Definition inserted_snapshot (today : date) (clock : Clock)
    (v : SnapshotFigures) : EmergencyFundSnapshot :=
  {| snapshot_id := uuid clock;
     snapshot_date := today;
     fund_balance := Num (figure_fund_balance v);
     monthly_expenses := Num (figure_monthly_expenses v);
     months_of_runway := Num (figure_months_of_runway v);
     notes := None;
     snapshot_created_at := CURRENT_TIMESTAMP clock |}.

Definition upsert_snapshot (today : date) (clock : Clock)
    (v : SnapshotFigures) (table : list EmergencyFundSnapshot)
  : list EmergencyFundSnapshot :=
  if existsb (λ s, (snapshot_date s =? today)%Z) table
  then map (λ s, if (snapshot_date s =? today)%Z
                 then updated_snapshot v s else s) table
  else table ++ [inserted_snapshot today clock v].

(** The rows of a date, and the [UNIQUE(snapshot_date)] constraint of the
    table. *)
Definition rows_on (d : date) (table : list EmergencyFundSnapshot)
  : list EmergencyFundSnapshot :=
  List.filter (λ s, (snapshot_date s =? d)%Z) table.

Definition unique_dates (table : list EmergencyFundSnapshot) : Prop :=
  NoDup (map snapshot_date table).

(** [today] is the calendar date of the runtime at the call.  A rejected
    statement takes the [catch] branch: an error is shown and nothing else
    changes. *)
Definition addSnapshot (today : date) (clock : Clock) (w : World) : World :=
  match runwayData (view w) with
  | None => w
  | Some r =>
      match snapshot_figures r with
      | Some v =>
          let w1 :=
            with_db (λ d, set_snapshot_table
                            (upsert_snapshot today clock v
                               (sys_plugin_emergency_fund_snapshots d)) d) w in
          toast (toast_success "Snapshot added") (loadSnapshots w1)
      | None => toast (toast_error "Failed to add snapshot") w
      end
  end.

Definition deleteSnapshot (snapshotId : string) (w : World) : World :=
  let w1 :=
    with_db (λ d, set_snapshot_table
                    (List.filter
                       (λ s, negb (String.eqb (snapshot_id s) snapshotId))
                       (sys_plugin_emergency_fund_snapshots d)) d) w in
  toast (toast_info "Snapshot deleted" "") (loadSnapshots w1).

(** The claim as stated: after two upserts on one date the row of the date
    carries the three figures of the second call as the result holds
    them. *)
Definition second_upsert_carried : Prop :=
  ∀ (today : date) (first second : Clock) (w between : World)
    (r1 r2 : RunwayData),
    unique_dates (sys_plugin_emergency_fund_snapshots (db w)) →
    runwayData (view w) = Some r1 →
    sys_plugin_emergency_fund_snapshots (db between)
    = sys_plugin_emergency_fund_snapshots (db (addSnapshot today first w)) →
    runwayData (view between) = Some r2 →
    ∃ s1 s2,
      rows_on today
        (sys_plugin_emergency_fund_snapshots (db (addSnapshot today first w)))
      = [s1]
      ∧ rows_on today
          (sys_plugin_emergency_fund_snapshots
             (db (addSnapshot today second between)))
        = [s2]
      ∧ fund_balance s2 = fundBalance r2
      ∧ monthly_expenses s2 = monthlyExpenses r2
      ∧ months_of_runway s2 = monthsOfRunway r2
      ∧ snapshot_id s2 = snapshot_id s1
      ∧ snapshot_created_at s2 = snapshot_created_at s1.

(** ** [quickExcludeTag]

    The new list is spliced as ['${JSON.stringify(newExcludedTags)}'] and
    the id as ['${config.id}'], like the texts of [saveConfig]. *)
Definition exclude_in_row (rid : string) (stored : list string)
    (updated : timestamp) (r : ConfigRow) : ConfigRow :=
  if String.eqb (row_id r) rid
  then {| row_id := row_id r;
          row_linked_goal_id := row_linked_goal_id r;
          row_target_months := row_target_months r;
          row_target_months_override := row_target_months_override r;
          row_fund_allocations := row_fund_allocations r;
          row_expense_account_ids := row_expense_account_ids r;
          row_excluded_tags := stored;
          row_lookback_months := row_lookback_months r;
          row_calculation_method := row_calculation_method r;
          row_created_at := row_created_at r;
          row_updated_at := updated |}
  else r.

Definition quickExcludeTag (clock : Clock) (tag : string) (w : World) : World :=
  match config (view w) with
  | None => w
  | Some cfg =>
      if String.eqb tag "Untagged" then w
      else
        let newExcludedTags := excluded_tags cfg ++ [tag] in
        match sql_json_strings newExcludedTags, sql_literal (id cfg) with
        | Some stored, Some rid =>
            let w1 :=
              with_db
                (λ d, set_config_table
                        (map (exclude_in_row rid stored
                                (CURRENT_TIMESTAMP clock))
                           (sys_plugin_emergency_fund_config d)) d) w in
            toast (toast_info "Excluded from expenses" tag)
              (calculateRunway clock (loadConfig w1))
        | _, _ => toast (toast_error "Failed to exclude tag") w
        end
  end.

(** ** The figures of an evaluation as rationals *)

(** The months of runway. *)
Definition months_of (fb me : Qc) : Qc := if decide (0 < me) then fb / me else 0.

(** The progress percentage. *)
Definition progress_of (fb ta : Qc) : Qc :=
  if decide (0 < ta) then fb / ta * 100%Z else 0.

(** The runway percentage. *)
Definition percent_of (m t : Qc) : Qc :=
  if decide (0 < t) then m / t * 100%Z else 0.

(** The goal the configuration is linked to, when it names one and the
    goal is among the loaded goals. *)
Definition linked_goal (cfg : EmergencyFundConfig) (gs : list Goal)
  : option Goal :=
  if truthy_str (linked_goal_id cfg) then find_goal gs (linked_goal_id cfg)
  else None.

(** The target is derived from the goal: a goal is linked, the monthly
    expenses are positive, the override flag is off and no target is
    configured. *)
Definition auto_derived (cfg : EmergencyFundConfig) (gs : list Goal)
    (override : bool) (me : Qc) : Prop :=
  is_Some (linked_goal cfg gs) ∧ 0 < me ∧ override = false
  ∧ target_months cfg = None.

#[global] Instance auto_derived_dec cfg gs override me :
  Decision (auto_derived cfg gs override me).
Proof. unfold auto_derived. apply _. Defined.

(** ** The trimmed mean, in the words of the specification

    The percentile by linear interpolation between ranks: with the values
    in ascending order and the rank [p * (N - 1)] counted from 0, the value
    at the whole part of the rank plus the fractional part of the rank
    times the step to the next value. *)
Definition percentile (p : Qc) (l : list Qc) : option Qc :=
  match l with
  | [] => None
  | x0 :: _ =>
      let sorted := merge_sort Qcle l in
      let rank : Qc := p * (Z.of_nat (length l) - 1)%Z in
      let lo := Qc_floor rank in
      let value_at (i : Z) := nth (Z.to_nat i) sorted x0 in
      Some (value_at lo + (rank - lo) * (value_at (lo + 1)%Z - value_at lo))
  end.

(** The arithmetic mean, which an empty collection does not have. *)
Definition arithmetic_mean (l : list Qc) : option Qc :=
  if decide (l = []) then None
  else Some (Qc_sum l / Z.of_nat (length l)).

(** The totals inside the inclusive interval from [lo] to [hi]. *)
Definition inside (lo hi : Qc) (totals : list Qc) : list Qc :=
  filter (λ x, lo ≤ x ∧ x ≤ hi) totals.

(** The claim as stated: the estimator is the arithmetic mean of the
    totals inside the interval of the two percentiles of the full set. *)
Definition trimmed_mean_is_mean_inside : Prop :=
  ∀ totals : list Qc, totals ≠ [] →
    ∃ p10 p90 : Qc,
      percentile (1 / 10) totals = Some p10
      ∧ percentile (9 / 10) totals = Some p90
      ∧ Some (estimate trimmed_mean totals)
        = Num <$> arithmetic_mean (inside p10 p90 totals).

(** ** The breakdown percentages

    The share of a tag in the grand total of the [tagged_expenses] rows,
    as a percentage, before rounding. *)
Definition tag_share (rows : list (string * Qc)) (g : string) : Qc :=
  group_sum g rows / Qc_sum (map snd rows) * 100%Z.

Definition percent_total (entries : list BreakdownEntry) : Qc :=
  Qc_sum (map percent entries).

(** The claim as stated: the percentages sum to at least 100 when some
    included transaction carries several tags, and to exactly 100 when
    every included transaction carries exactly one. *)
Definition percentages_reach_100 : Prop :=
  ∀ (db : Database) (clock : Clock) (cfg : EmergencyFundConfig),
    let included := expense_rows db clock cfg in
    let total := percent_total (breakdown_query db clock cfg) in
    ((∃ t, t ∈ included ∧ (1 < length (tags t))%nat) → 100%Z ≤ total)
    ∧ (included ≠ [] →
       Forall (λ t, length (tags t) = 1%nat) included →
       total = 100%Z).

(** ** The target in months, as stated and as computed

    [Explicit] reads "otherwise the effective target is the configured
    explicit value" to the letter; [Defaulted] adds the default of six
    months the code falls back to when nothing is configured. *)
Inductive TargetReading : Type := Explicit | Defaulted.

Definition configured_target (reading : TargetReading)
    (cfg : EmergencyFundConfig) (t : Qc) : Prop :=
  match reading with
  | Explicit => target_months cfg = Some t
  | Defaulted => t = nullish (target_months cfg) 6%Z
  end.

Definition target_resolution (reading : TargetReading) : Prop :=
  ∀ (clock : Clock) (w : World) (cfg : EmergencyFundConfig),
    config (view w) = Some cfg →
    ∃ (r : RunwayData) (me t : Qc),
      runwayData (view (calculateRunway clock w)) = Some r
      ∧ monthlyExpenses r = Num me
      ∧ targetMonths r = Num t
      ∧ (let derived :=
           auto_derived cfg (goals (view w))
             (formTargetMonthsOverride (form (view w))) me in
         (derived →
          ∃ goal, linked_goal cfg (goals (view w)) = Some goal
                  ∧ t = target_amount goal / me)
         ∧ (¬ derived → configured_target reading cfg t))
      ∧ targetAmount r = Num (t * me).

(** ** The arithmetic of the script: binary64

    The numbers of the script are IEEE 754 binary64 values, and every
    operation rounds to the nearest value, ties to even.  This module runs
    the allocation resolver and the evaluation step on such values, as
    [SpecFloat] specifies them, for the properties that depend on the
    rounding.  A literal of the script or a value of the data source stands
    for the binary64 value nearest to it. *)

Module Binary64.

Definition number : Type := spec_float.

Definition add : number → number → number := SFadd 53 1024.
Definition sub : number → number → number := SFsub 53 1024.
Definition mul : number → number → number := SFmul 53 1024.
Definition div : number → number → number := SFdiv 53 1024.

(** [a < b], [a > b], [a >= b]: false when a side is [NaN]. *)
Definition lt (a b : number) : bool := SFltb a b.
Definition gt (a b : number) : bool := SFltb b a.
Definition ge (a b : number) : bool := SFleb b a.

(** The value of a whole number, and of the decimal [n / 10 ^ places]:
    with [n] and [10 ^ places] below [2 ^ 53] both operands of the
    division are exact and the division rounds once, so the quotient is
    the value nearest to the decimal. *)
Definition of_Z (z : Z) : number := binary_normalize 53 1024 z 0 false.

Definition decimal (n : Z) (places : nat) : number :=
  div (of_Z n) (of_Z (10 ^ Z.of_nat places)).

Definition zero : number := S754_zero false.
Definition hundred : number := of_Z 100.

Definition is_nan (a : number) : bool :=
  match a with S754_nan => true | _ => false end.

Definition is_finite (a : number) : bool :=
  match a with S754_zero _ | S754_finite _ _ _ => true | _ => false end.

(** [Math.min(a, b)] and [Math.max(a, b)]: [NaN] when a side is, and
    [-0] below [+0]. *)
Definition Math_min (a b : number) : number :=
  match a, b with
  | S754_nan, _ | _, S754_nan => S754_nan
  | S754_zero s, S754_zero s' => S754_zero (s || s')
  | _, _ => if lt b a then b else a
  end.

Definition Math_max (a b : number) : number :=
  match a, b with
  | S754_nan, _ | _, S754_nan => S754_nan
  | S754_zero s, S754_zero s' => S754_zero (s && s')
  | _, _ => if lt a b then b else a
  end.

(** [Number(v) || 0] where [v] is a column value or [undefined]: the two
    zeros and [NaN] are falsy. *)
Definition Number_or_zero (v : option number) : number :=
  match v with
  | Some (S754_zero _) | Some S754_nan | None => zero
  | Some x => x
  end.

(** The exact value of a finite number. *)
Definition exact (a : number) : option Qc :=
  match a with
  | S754_zero _ => Some (Q2Qc 0)
  | S754_finite s m e =>
      Some (Q2Qc (inject_Z (if s then Z.neg m else Z.pos m) * 2 ^ e))
  | S754_infinity _ | S754_nan => None
  end.

(** *** Allocation resolver *)

Record FundAllocation : Type := {
  account_id : string;
  allocation_type : AllocationType;
  allocation_value : number;
}.

(** A promise of a value: resolved, or rejected. *)
Inductive Promise (A : Type) : Type :=
  | resolved (value : A)
  | rejected.
Arguments resolved {A} value.
Arguments rejected {A}.

(** The balance query: [balances] maps an account id to the balance
    column the query selects, as [Number] reads it.  Each id is spliced as
    ['${id}'] into the [IN] list; the rows are those of the accounts whose
    id the host reads there. *)
Definition query_balances (balances : gmap string number)
    (accountIds : list string) : option (list (string * number)) :=
  ids ← mapM sql_literal accountIds;
  Some (map_to_list (filter (λ kv, kv.1 ∈ ids) balances)).

(** [Number(balanceRows.find(r => r[0] === id)?.[1]) || 0] *)
Definition account_balance (balanceRows : list (string * number))
    (aid : string) : number :=
  Number_or_zero (snd <$> List.find (λ r, String.eqb r.1 aid) balanceRows).

(** What a rule takes of a balance. *)
Definition contribution (accountBalance : number) (alloc : FundAllocation)
  : number :=
  match allocation_type alloc with
  | percentage => div (mul accountBalance (allocation_value alloc)) hundred
  | fixed => Math_min (allocation_value alloc) accountBalance
  end.

(** One turn of the loop over the allocations. *)
Definition add_allocation (balanceRows : list (string * number))
    (fundBalance : number) (alloc : FundAllocation) : number :=
  add fundBalance
    (contribution (account_balance balanceRows (account_id alloc)) alloc).

Definition calculateFundBalanceFromAllocations
    (balances : gmap string number) (allocs : list FundAllocation)
  : Promise number :=
  match allocs with
  | [] => resolved zero
  | _ =>
      match query_balances balances (map account_id allocs) with
      | Some balanceRows =>
          resolved (fold_left (add_allocation balanceRows) allocs zero)
      | None => rejected
      end
  end.

(** The balance of an account in the mapping, a missing account counting
    as balance 0. *)
Definition balance_of (balances : gmap string number) (aid : string)
  : number :=
  Number_or_zero (balances !! aid).

(** The sum of the contributions as the loop accumulates it: from 0, in
    the order of the list, each addition rounded. *)
Definition sum_in_order (balances : gmap string number)
    (allocs : list FundAllocation) : number :=
  fold_left (λ total alloc,
               add total
                 (contribution (balance_of balances (account_id alloc)) alloc))
    allocs zero.

(** The sum of the contributions in exact arithmetic, from the exact
    values of the balances and of the rule values. *)
Definition exact_contribution (balances : gmap string number)
    (alloc : FundAllocation) : option Qc :=
  balance ← exact (balance_of balances (account_id alloc));
  value ← exact (allocation_value alloc);
  Some (match allocation_type alloc with
        | percentage => balance * value / 100%Z
        | fixed => Qc_min value balance
        end).

Definition exact_sum (balances : gmap string number)
    (allocs : list FundAllocation) : option Qc :=
  Qc_sum <$> mapM (exact_contribution balances) allocs.

(** The claim as stated, in its two parts: no call is rejected, and the
    fund balance is the sum of the contributions. *)
Definition never_rejected : Prop :=
  ∀ balances allocs,
    ∃ fundBalance,
      calculateFundBalanceFromAllocations balances allocs
      = resolved fundBalance.

Definition resolves_to_exact_sum : Prop :=
  ∀ balances allocs fundBalance total,
    calculateFundBalanceFromAllocations balances allocs = resolved fundBalance →
    exact_sum balances allocs = Some total →
    exact fundBalance = Some total.

(** *** Evaluation step *)

Record RunwayData : Type := {
  fundBalance : number;
  monthlyExpenses : number;
  monthsOfRunway : number;
  targetMonths : number;
  targetAmount : number;
  progressPercent : number;
  remainingToTarget : number;
  status : Status;
}.

Definition runwayPercent (monthsOfRunway targetMonths : number) : number :=
  if gt targetMonths zero
  then mul (div monthsOfRunway targetMonths) hundred
  else zero.

Definition classify (runwayPercent : number) : Status :=
  if lt runwayPercent (of_Z 80)
  then (if lt runwayPercent (of_Z 50) then critical else warning)
  else on_track.

Definition evaluate (fundBalance monthlyExpenses targetMonths : number)
  : RunwayData :=
  let monthsOfRunway :=
    if gt monthlyExpenses zero
    then div fundBalance monthlyExpenses else zero in
  let targetAmount := mul monthlyExpenses targetMonths in
  let progressPercent :=
    if gt targetAmount zero
    then mul (div fundBalance targetAmount) hundred else zero in
  let remainingToTarget := Math_max zero (sub targetAmount fundBalance) in
  {| fundBalance := fundBalance;
     monthlyExpenses := monthlyExpenses;
     monthsOfRunway := monthsOfRunway;
     targetMonths := targetMonths;
     targetAmount := targetAmount;
     progressPercent := progressPercent;
     remainingToTarget := remainingToTarget;
     status := classify (runwayPercent monthsOfRunway targetMonths) |}.

(** *** The runway percentage, as stated and as computed

    The specification writes the percentage [100 * months_of_runway /
    target_months].  [Exact] reads the formula in exact arithmetic on the
    two numbers of the result; [Stated] reads it in the arithmetic of the
    script in the order written, the multiplication first; [Computed] is
    the order of [calculateRunway], the division first.  All three are 0
    when the target is not positive. *)
Inductive PercentReading : Type := Exact | Stated | Computed.

(** [runway_percent < threshold] under a reading. *)
Definition percent_below (reading : PercentReading)
    (monthsOfRunway targetMonths : number) (threshold : Z) : bool :=
  match reading with
  | Computed => lt (runwayPercent monthsOfRunway targetMonths) (of_Z threshold)
  | Stated =>
      lt (if gt targetMonths zero
          then div (mul hundred monthsOfRunway) targetMonths
          else zero)
        (of_Z threshold)
  | Exact =>
      if gt targetMonths zero then
        match exact monthsOfRunway, exact targetMonths with
        | Some m, Some t => bool_decide (100%Z * m / t < threshold)
        | _, _ =>
            lt (runwayPercent monthsOfRunway targetMonths) (of_Z threshold)
        end
      else bool_decide (0 < threshold)%Z
  end.

(** [runway_percent >= threshold] under a reading. *)
Definition percent_at_least (reading : PercentReading)
    (monthsOfRunway targetMonths : number) (threshold : Z) : bool :=
  match reading with
  | Computed => ge (runwayPercent monthsOfRunway targetMonths) (of_Z threshold)
  | Stated =>
      ge (if gt targetMonths zero
          then div (mul hundred monthsOfRunway) targetMonths
          else zero)
        (of_Z threshold)
  | Exact =>
      if gt targetMonths zero then
        match exact monthsOfRunway, exact targetMonths with
        | Some m, Some t => bool_decide (threshold ≤ 100%Z * m / t)
        | _, _ =>
            ge (runwayPercent monthsOfRunway targetMonths) (of_Z threshold)
        end
      else bool_decide (threshold ≤ 0)%Z
  end.

(** The claim under a reading: the status of every evaluation on finite
    numbers follows the two thresholds on the runway percentage. *)
Definition status_by_percent (reading : PercentReading) : Prop :=
  ∀ fb me t : number,
    is_finite fb = true → is_finite me = true → is_finite t = true →
    let r := evaluate fb me t in
    let below := percent_below reading (monthsOfRunway r) (targetMonths r) in
    let at_least :=
      percent_at_least reading (monthsOfRunway r) (targetMonths r) in
    (status r = critical ↔ below 50%Z = true)
    ∧ (status r = warning ↔ at_least 50%Z = true ∧ below 80%Z = true)
    ∧ (status r = on_track ↔ at_least 80%Z = true).

(** *** Worked inputs *)

(** Two accounts holding 0.10 and 0.20, each taken whole. *)
Definition dimes : gmap string number :=
  {[ "A" := decimal 10 2; "B" := decimal 20 2 ]}.

Definition whole (aid : string) : FundAllocation :=
  {| account_id := aid; allocation_type := percentage;
     allocation_value := hundred |}.

(** Three accounts holding 4866.30, 5000.00 and 5860.89: a quarter of
    the first, 1000 of the second, a quarter of the third. *)
Definition three_accounts : gmap string number :=
  {[ "A" := decimal 486630 2; "B" := decimal 500000 2;
     "C" := decimal 586089 2 ]}.

Definition quarter (aid : string) : FundAllocation :=
  {| account_id := aid; allocation_type := percentage;
     allocation_value := of_Z 25 |}.

Definition thousand (aid : string) : FundAllocation :=
  {| account_id := aid; allocation_type := fixed;
     allocation_value := of_Z 1000 |}.

End Binary64.

(** ** Worked scenarios *)

Module Scenario.

(** A calendar of thirty-day months, enough for the scenarios. *)
Definition clock : Clock :=
  {| CURRENT_DATE := 20000;
     CURRENT_TIMESTAMP := 1728000000;
     month_of := λ d, (d / 30)%Z;
     minus_months := λ d n, (d - 30 * n)%Z;
     uuid := "9b2f" |}.

Definition outflow (day : date) (dollars : Z) (tags : list string)
  : Transaction :=
  {| transaction_date := day; tx_amount := (- dollars)%Z;
     tx_account_id := "checking"; tx_tags := Some tags |}.

(** The state of the component when it is mounted. *)
Definition initial_view : View :=
  {| config := None; goals := []; snapshots := []; runwayData := None;
     expenseBreakdown := []; autoTargetMonths := None;
     showSettings := false; showSetup := false;
     form := {| formLinkedGoalId := None; formTargetMonths := 6%Z;
                formTargetMonthsOverride := false; formFundAllocations := [];
                formExpenseAccountIds := []; formExcludedTags := [];
                formLookbackMonths := 6; formCalculationMethod := mean |} |}.

Definition opened (d : Database) : World :=
  loadConfig (loadGoals {| db := d; view := initial_view; toasts := [] |}).

(** Manual mode: a fixed allocation of [allocated] on an account holding
    10000, monthly totals 1000, 1200 and 800, the mean, a target of six
    months. *)
Definition manual_row (allocated : Z) : ConfigRow :=
  {| row_id := "cfg";
     row_linked_goal_id := None;
     row_target_months := Some (6%Z : Qc);
     row_target_months_override := Some false;
     row_fund_allocations :=
       [{| account_id := "A"; allocation_type := fixed;
           allocation_value := allocated |}];
     row_expense_account_ids := ["checking"];
     row_excluded_tags := [];
     row_lookback_months := 6;
     row_calculation_method := Some mean;
     row_created_at := 0%Z;
     row_updated_at := 0%Z |}.

Definition manual_db (allocated : Z) : Database :=
  {| accounts := {[ "A" := (10000%Z : Qc) ]};
     transactions := [outflow 19990 1000 ["rent"]; outflow 19960 1200 ["rent"];
                      outflow 19930 800 ["food"]];
     sys_plugin_goals := [];
     sys_plugin_emergency_fund_config := [manual_row allocated];
     sys_plugin_emergency_fund_snapshots := [] |}.

Definition manual (allocated : Z) : World := opened (manual_db allocated).

(** Goal mode: a goal of 24000 holding the whole of account A, one month
    of 2000 tagged "rent", no override, no configured target. *)
Definition house_goal : Goal :=
  {| goal_id := "g1"; name := "Emergency fund"; target_amount := 24000%Z;
     allocations := Some [{| account_id := "A"; allocation_type := percentage;
                             allocation_value := 100%Z |}];
     icon := "shield"; active := true |}.

Definition goal_row : ConfigRow :=
  {| row_id := "cfg";
     row_linked_goal_id := Some "g1";
     row_target_months := None;
     row_target_months_override := Some false;
     row_fund_allocations := [];
     row_expense_account_ids := ["checking"];
     row_excluded_tags := [];
     row_lookback_months := 6;
     row_calculation_method := Some mean;
     row_created_at := 0%Z;
     row_updated_at := 0%Z |}.

Definition goal_db : Database :=
  {| accounts := {[ "A" := (10000%Z : Qc) ]};
     transactions := [outflow 19990 2000 ["rent"]];
     sys_plugin_goals := [house_goal];
     sys_plugin_emergency_fund_config := [goal_row];
     sys_plugin_emergency_fund_snapshots := [] |}.

Definition goal_linked : World := opened goal_db.

(** Goal mode with an explicit target of nine months stored, the
    override box then unticked in the settings form. *)
Definition override_row : ConfigRow :=
  {| row_id := "cfg";
     row_linked_goal_id := Some "g1";
     row_target_months := Some (9%Z : Qc);
     row_target_months_override := Some true;
     row_fund_allocations := [];
     row_expense_account_ids := ["checking"];
     row_excluded_tags := [];
     row_lookback_months := 6;
     row_calculation_method := Some mean;
     row_created_at := 0%Z;
     row_updated_at := 0%Z |}.

Definition untick_override (v : View) : View :=
  set_config (config v)
    {| formLinkedGoalId := formLinkedGoalId (form v);
       formTargetMonths := formTargetMonths (form v);
       formTargetMonthsOverride := false;
       formFundAllocations := formFundAllocations (form v);
       formExpenseAccountIds := formExpenseAccountIds (form v);
       formExcludedTags := formExcludedTags (form v);
       formLookbackMonths := formLookbackMonths (form v);
       formCalculationMethod := formCalculationMethod (form v) |} v.

Definition override_unticked : World :=
  with_view untick_override
    (opened (set_config_table [override_row] goal_db)).

(** The manual scenario of 5000 over other transactions. *)
Definition with_transactions (l : list Transaction) : Database :=
  {| accounts := {[ "A" := (10000%Z : Qc) ]};
     transactions := l;
     sys_plugin_goals := [];
     sys_plugin_emergency_fund_config := [manual_row 5000];
     sys_plugin_emergency_fund_snapshots := [] |}.

(** Three outflows of 10 under three tags. *)
Definition three_tags : Database :=
  with_transactions [outflow 19990 10 ["a"]; outflow 19990 10 ["b"];
                     outflow 19990 10 ["c"]].

(** A later call: another instant, another [uuid()]. *)
Definition later : Clock :=
  {| CURRENT_DATE := 20000;
     CURRENT_TIMESTAMP := 1728003600;
     month_of := λ d, (d / 30)%Z;
     minus_months := λ d n, (d - 30 * n)%Z;
     uuid := "c41d" |}.

(** The manual scenario evaluated, a snapshot taken, then "food"
    excluded, which changes the figures. *)
Definition evaluated : World := calculateRunway clock (manual 5000).

Definition food_excluded : World :=
  quickExcludeTag clock "food" (addSnapshot 20000 clock evaluated).

(** The result a state holds, for a state that holds one. *)
Definition result_of (w : World) : RunwayData :=
  default (evaluate (Num 0) (Num 0) (Num 0)) (runwayData (view w)).

(** The same after a first evaluation and a quick exclude of "rent",
    which leaves no expense in the window. *)
Definition rent_excluded : World :=
  quickExcludeTag clock "rent" (calculateRunway clock goal_linked).

End Scenario.

(** ** Further properties: the vocabulary they use *)

(** A rule on an account that is not overdrawn, with a value that is not
    negative and, for a percentage, not above 100. *)
Definition rule_in_range (balances : gmap string Qc) (rule : FundAllocation)
  : Prop :=
  0 ≤ balance_of balances (account_id rule)
  ∧ 0 ≤ allocation_value rule
  ∧ (allocation_type rule = percentage → allocation_value rule ≤ 100%Z).

#[global] Instance AllocationType_eq_dec : EqDecision AllocationType.
Proof. solve_decision. Defined.

#[global] Instance FundAllocation_eq_dec : EqDecision FundAllocation.
Proof. solve_decision. Defined.

#[global] Instance rule_in_range_dec balances rule :
  Decision (rule_in_range balances rule).
Proof. unfold rule_in_range. apply _. Defined.

(** The statuses from worst to best. *)
Definition status_rank (s : Status) : nat :=
  match s with
  | critical => 0
  | warning => 1
  | on_track => 2
  end.

(** ** The settings form: excluded tags, expense accounts, allocations *)

Definition set_formExcludedTags (l : list string) (f : Form) : Form :=
  {| formLinkedGoalId := formLinkedGoalId f;
     formTargetMonths := formTargetMonths f;
     formTargetMonthsOverride := formTargetMonthsOverride f;
     formFundAllocations := formFundAllocations f;
     formExpenseAccountIds := formExpenseAccountIds f;
     formExcludedTags := l;
     formLookbackMonths := formLookbackMonths f;
     formCalculationMethod := formCalculationMethod f |}.

Definition set_formExpenseAccountIds (l : list string) (f : Form) : Form :=
  {| formLinkedGoalId := formLinkedGoalId f;
     formTargetMonths := formTargetMonths f;
     formTargetMonthsOverride := formTargetMonthsOverride f;
     formFundAllocations := formFundAllocations f;
     formExpenseAccountIds := l;
     formExcludedTags := formExcludedTags f;
     formLookbackMonths := formLookbackMonths f;
     formCalculationMethod := formCalculationMethod f |}.

Definition set_formFundAllocations (l : list FundAllocation) (f : Form)
  : Form :=
  {| formLinkedGoalId := formLinkedGoalId f;
     formTargetMonths := formTargetMonths f;
     formTargetMonthsOverride := formTargetMonthsOverride f;
     formFundAllocations := l;
     formExpenseAccountIds := formExpenseAccountIds f;
     formExcludedTags := formExcludedTags f;
     formLookbackMonths := formLookbackMonths f;
     formCalculationMethod := formCalculationMethod f |}.

(** The form together with the text of the new-tag input. *)
Record Settings : Type := {
  fields : Form;
  newTagInput : string;
}.

(** [addExcludedTag]: a tag that is not empty and not yet listed goes to
    the end of the list; the input is cleared in every case. *)
Definition addExcludedTag (tag : string) (s : Settings) : Settings :=
  {| fields :=
       (if negb (String.eqb tag "")
           && negb (bool_decide (tag ∈ formExcludedTags (fields s)))
        then set_formExcludedTags (formExcludedTags (fields s) ++ [tag])
               (fields s)
        else fields s);
     newTagInput := "" |}.

(** [removeExcludedTag] *)
Definition removeExcludedTag (tag : string) (f : Form) : Form :=
  set_formExcludedTags
    (List.filter (λ t, negb (String.eqb t tag)) (formExcludedTags f)) f.

(** [toggleExpenseAccount] *)
Definition toggleExpenseAccount (accountId : string) (f : Form) : Form :=
  if bool_decide (accountId ∈ formExpenseAccountIds f)
  then set_formExpenseAccountIds
         (List.filter (λ i, negb (String.eqb i accountId))
            (formExpenseAccountIds f)) f
  else set_formExpenseAccountIds (formExpenseAccountIds f ++ [accountId]) f.

(** [formFundAllocations.some(a => a.account_id === accountId)] *)
Definition allocated (accountId : string) (f : Form) : bool :=
  existsb (λ a, String.eqb (account_id a) accountId) (formFundAllocations f).

(** [addFundAllocation]: a new account enters with the whole of its
    balance. *)
Definition addFundAllocation (accountId : string) (f : Form) : Form :=
  if allocated accountId f then f
  else set_formFundAllocations
         (formFundAllocations f
          ++ [{| account_id := accountId; allocation_type := percentage;
                 allocation_value := 100%Z |}]) f.

(** [removeFundAllocation] *)
Definition removeFundAllocation (accountId : string) (f : Form) : Form :=
  set_formFundAllocations
    (List.filter (λ a, negb (String.eqb (account_id a) accountId))
       (formFundAllocations f)) f.

(** The two fields [updateAllocation] can set. *)
Inductive AllocationField : Type :=
  | field_allocation_type (value : AllocationType)
  | field_allocation_value (value : Qc).

Definition update_field (a : FundAllocation) (field : AllocationField)
  : FundAllocation :=
  match field with
  | field_allocation_type value =>
      {| account_id := account_id a; allocation_type := value;
         allocation_value := allocation_value a |}
  | field_allocation_value value =>
      {| account_id := account_id a; allocation_type := allocation_type a;
         allocation_value := value |}
  end.

(** [updateAllocation] *)
Definition updateAllocation (accountId : string) (field : AllocationField)
    (f : Form) : Form :=
  set_formFundAllocations
    (map (λ a, if String.eqb (account_id a) accountId
               then update_field a field else a)
       (formFundAllocations f)) f.

(** [toggleFundAccount] *)
Definition toggleFundAccount (accountId : string) (f : Form) : Form :=
  if allocated accountId f then removeFundAllocation accountId f
  else addFundAllocation accountId f.

(** The actions on the allocations of the form. *)
Inductive AllocationAction : Type :=
  | do_add (accountId : string)
  | do_remove (accountId : string)
  | do_update (accountId : string) (field : AllocationField)
  | do_toggle (accountId : string).

Definition run_allocation_action (f : Form) (a : AllocationAction) : Form :=
  match a with
  | do_add i => addFundAllocation i f
  | do_remove i => removeFundAllocation i f
  | do_update i field => updateAllocation i field f
  | do_toggle i => toggleFundAccount i f
  end.

(** The form of the component when it is mounted. *)
Definition initial_form : Form :=
  {| formLinkedGoalId := None; formTargetMonths := 6%Z;
     formTargetMonthsOverride := false; formFundAllocations := [];
     formExpenseAccountIds := []; formExcludedTags := [];
     formLookbackMonths := 6; formCalculationMethod := mean |}.

(** ** [resetPluginData]

    [confirmed] is the answer to the confirmation dialog.  Both tables of
    the plugin are emptied; the configuration, the snapshots, the result
    and the derived target are dropped, the form goes back to its initial
    values and the setup screen is shown. *)
Definition resetPluginData (confirmed : bool) (w : World) : World :=
  if confirmed then
    {| db := set_snapshot_table [] (set_config_table [] (db w));
       view :=
         {| config := None;
            goals := goals (view w);
            snapshots := [];
            runwayData := None;
            expenseBreakdown := expenseBreakdown (view w);
            autoTargetMonths := None;
            showSettings := showSettings (view w);
            showSetup := true;
            form := initial_form |};
       toasts := toasts w ++ [toast_success "Plugin data reset"] |}
  else w.

(** ** Further scenarios *)

Module Cases.

(** The goal scenario with the goal switched off: the configuration
    still names it, the active goals no longer hold it. *)
Definition goal_switched_off : World :=
  Scenario.opened
    {| accounts := accounts Scenario.goal_db;
       transactions := transactions Scenario.goal_db;
       sys_plugin_goals :=
         [{| goal_id := "g1"; name := "Emergency fund";
             target_amount := 24000%Z;
             allocations := allocations Scenario.house_goal;
             icon := "shield"; active := false |}];
       sys_plugin_emergency_fund_config := [Scenario.goal_row];
       sys_plugin_emergency_fund_snapshots := [] |}.

(** A snapshot of an earlier day. *)
Definition earlier_snapshot : EmergencyFundSnapshot :=
  {| snapshot_id := "0a17"; snapshot_date := 19990;
     fund_balance := Num 4000%Z; monthly_expenses := Num 1000%Z;
     months_of_runway := Num 4%Z; notes := None;
     snapshot_created_at := 1727000000 |}.

(** The manual scenario evaluated, with that snapshot stored. *)
Definition with_history : World :=
  with_db (set_snapshot_table [earlier_snapshot]) Scenario.evaluated.

(** The settings form of the override scenario, with the tag "kid's"
    added to the excluded tags. *)
Definition apostrophe_tag : World :=
  with_view
    (λ v, set_config (config v) (set_formExcludedTags ["kid's"] (form v)) v)
    Scenario.override_unticked.

(** A snapshot taken in the manual scenario, then the spending of the
    window reduced to one outflow of 1: a runway of 5000 months. *)
Definition spending_stopped : World :=
  calculateRunway Scenario.clock
    (with_db
       (λ d, {| accounts := accounts d;
                transactions := [Scenario.outflow 19990 1 ["food"]];
                sys_plugin_goals := sys_plugin_goals d;
                sys_plugin_emergency_fund_config :=
                  sys_plugin_emergency_fund_config d;
                sys_plugin_emergency_fund_snapshots :=
                  sys_plugin_emergency_fund_snapshots d |})
       (addSnapshot 20000 Scenario.clock Scenario.evaluated)).

End Cases.
(** ** Proof steps for the order on rationals

    Comparisons on [Qc] are comparisons on the underlying fractions, where
    linear arithmetic decides them once the integer constants are
    evaluated. *)
Ltac Qc_consts :=
  repeat match goal with
  | H : context [Qred (inject_Z ?z)] |- _ =>
      let v := eval vm_compute in (Qred (inject_Z z)) in
      progress change (Qred (inject_Z z)) with v in H
  | |- context [Qred (inject_Z ?z)] =>
      let v := eval vm_compute in (Qred (inject_Z z)) in
      progress change (Qred (inject_Z z)) with v
  end.
Ltac Qc_arith := unfold Qclt, Qcle in *; simpl in *; Qc_consts; lra.
Ltac Qc_order := first [Qc_arith | exfalso; Qc_arith].

(** From [Qc] to the underlying fractions. *)
Ltac Qc_to_Q :=
  unfold Qcle, Qclt, Qc_of_Z in *;
  cbn [this Qcplus Qcminus Qcmult Qcdiv Qcopp Qcinv Q2Qc] in *;
  rewrite ?Qred_correct in *.

(** A closed decidable statement, settled by evaluating its decision. *)
Ltac by_evaluation := apply (bool_decide_unpack _); vm_compute; exact I.

(** ** What the host reads from a statement *)

Lemma sql_literal_plain (text : string) :
  no_apostrophe text = true → sql_literal text = Some text.
Proof.
  induction text as [|c rest IH]; [done|]. cbn [no_apostrophe sql_literal].
  intros [Hc Hrest]%andb_true_iff. apply negb_true_iff in Hc.
  rewrite Hc. by rewrite IH.
Qed.

Lemma sql_json_strings_plain (l : list string) :
  forallb no_apostrophe l = true → sql_json_strings l = Some l.
Proof.
  unfold sql_json_strings. induction l as [|text l IH]; [done|].
  cbn [forallb]. intros [Htext Hl]%andb_true_iff.
  cbn. rewrite (sql_literal_plain text Htext). cbn. by rewrite IH.
Qed.

Lemma sql_json_allocations_plain (l : list FundAllocation) :
  forallb (λ a, no_apostrophe (account_id a)) l = true →
  sql_json_allocations l = Some l.
Proof.
  unfold sql_json_allocations. induction l as [|a l IH]; [done|].
  cbn [forallb]. intros [Ha Hl]%andb_true_iff.
  cbn. rewrite (sql_literal_plain _ Ha). cbn. rewrite IH by done.
  by destruct a.
Qed.

Lemma DECIMAL_Some (width scale : nat) (q r : Qc) :
  DECIMAL width scale (Num q) = Some r → r = ROUND q scale.
Proof. unfold DECIMAL. case_decide; congruence. Qed.

Lemma DECIMAL_is_Some (width scale : nat) (q : Qc) :
  is_Some (DECIMAL width scale (Num q)) →
  DECIMAL width scale (Num q) = Some (ROUND q scale).
Proof. intros [r Hr]. by rewrite Hr, (DECIMAL_Some _ _ _ _ Hr). Qed.

Lemma INTEGER_is_Some (z : Z) : is_Some (INTEGER z) → INTEGER z = Some z.
Proof. unfold INTEGER. case_decide; [done|]. by intros [? ?]. Qed.

(** ** The allocation resolver in binary64 *)

Lemma find_in_rows {A} (rows : gmap string A) (ids : list string)
    (aid : string) :
  List.find (λ r, String.eqb r.1 aid)
    (map_to_list (filter (λ kv, kv.1 ∈ ids) rows))
  = if decide (aid ∈ ids) then (λ v, (aid, v)) <$> rows !! aid else None.
Proof.
  destruct (List.find _ _) as [[k v]|] eqn:Hfind.
  - apply find_some in Hfind as [Hin Heq]. simpl in Heq.
    apply String.eqb_eq in Heq. subst k.
    apply list_elem_of_In, elem_of_map_to_list, map_lookup_filter_Some in Hin
      as [Hlook Hids].
    simpl in Hids. rewrite decide_True by done. by rewrite Hlook.
  - case_decide as Hids; [|done].
    destruct (rows !! aid) as [v|] eqn:Hlook; [|done].
    exfalso. eapply find_none with (x := (aid, v)) in Hfind.
    + simpl in Hfind. by rewrite String.eqb_refl in Hfind.
    + apply list_elem_of_In, elem_of_map_to_list, map_lookup_filter_Some. done.
Qed.

Lemma Binary64_account_balance (balances : gmap string Binary64.number)
    (ids : list string) (aid : string) :
  aid ∈ ids →
  Binary64.account_balance
    (map_to_list (filter (λ kv, kv.1 ∈ ids) balances)) aid
  = Binary64.balance_of balances aid.
Proof.
  intros Hin. unfold Binary64.account_balance, Binary64.balance_of.
  rewrite find_in_rows, decide_True by done.
  by destruct (balances !! aid).
Qed.

Lemma Binary64_loop (balances : gmap string Binary64.number)
    (ids : list string) (allocs : list Binary64.FundAllocation)
    (total : Binary64.number) :
  Forall (λ a, Binary64.account_id a ∈ ids) allocs →
  fold_left
    (Binary64.add_allocation
       (map_to_list (filter (λ kv, kv.1 ∈ ids) balances))) allocs total
  = fold_left
      (λ total alloc,
         Binary64.add total
           (Binary64.contribution
              (Binary64.balance_of balances (Binary64.account_id alloc))
              alloc))
      allocs total.
Proof.
  intros Hall. revert total.
  induction Hall as [|a l Ha _ IH]; intros total; [done|].
  cbn [fold_left]. rewrite <- IH. unfold Binary64.add_allocation at 2.
  by rewrite Binary64_account_balance.
Qed.

(** C1 (as amended): for every balance mapping and every allocation list
    whose account ids hold no apostrophe, the call resolves, and the fund
    balance is the sum of the contributions as the loop accumulates it:
    from 0, in the order of the list, each operation rounded, with
    [(balance * value) / 100] for a percentage rule and
    [min(value, balance)] for a fixed rule, an account without a balance
    row counting as balance 0.  The empty list resolves to 0. *)
Theorem calculateFundBalanceFromAllocations_sum
    (balances : gmap string Binary64.number)
    (allocs : list Binary64.FundAllocation) :
  forallb (λ a, no_apostrophe (Binary64.account_id a)) allocs = true →
  Binary64.calculateFundBalanceFromAllocations balances allocs
  = Binary64.resolved (Binary64.sum_in_order balances allocs)
  ∧ (∀ aid, balances !! aid = None →
            Binary64.balance_of balances aid = Binary64.zero)
  ∧ Binary64.calculateFundBalanceFromAllocations balances []
    = Binary64.resolved Binary64.zero.
Proof.
  intros Hplain. split; [|split; [|done]].
  2: { intros aid Hnone. unfold Binary64.balance_of. by rewrite Hnone. }
  destruct allocs as [|a l]; [done|].
  unfold Binary64.calculateFundBalanceFromAllocations,
    Binary64.query_balances.
  assert (mapM sql_literal (map Binary64.account_id (a :: l))
          = Some (map Binary64.account_id (a :: l))) as ->.
  { apply sql_json_strings_plain. rewrite <- Hplain.
    generalize (a :: l). intros allocs.
    induction allocs as [|x allocs IH]; [done|].
    cbn [map forallb]. by rewrite IH. }
  cbn [mbind option_bind]. f_equal. apply Binary64_loop, Forall_forall.
  intros x Hx. apply list_elem_of_fmap. by exists x.
Qed.

Lemma calculateFundBalanceFromAllocations_sum_witness :
  let allocs := [Binary64.quarter "A"; Binary64.quarter "C";
                 Binary64.thousand "B"] in
  forallb (λ a, no_apostrophe (Binary64.account_id a)) allocs = true
  ∧ Binary64.sum_in_order Binary64.three_accounts allocs
    = Binary64.decimal 36817975 4
  ∧ Binary64.calculateFundBalanceFromAllocations Binary64.three_accounts
      allocs
    = Binary64.resolved (Binary64.sum_in_order Binary64.three_accounts allocs)
  ∧ (∀ aid, Binary64.three_accounts !! aid = None →
            Binary64.balance_of Binary64.three_accounts aid = Binary64.zero)
  ∧ Binary64.calculateFundBalanceFromAllocations Binary64.three_accounts []
    = Binary64.resolved Binary64.zero.
Proof.
  intros allocs.
  assert (forallb (λ a, no_apostrophe (Binary64.account_id a)) allocs = true)
    as H1 by (vm_compute; reflexivity).
  split; [exact H1|]. split; [vm_compute; reflexivity|].
  exact (calculateFundBalanceFromAllocations_sum Binary64.three_accounts
           allocs H1).
Defined.

(** The claim as stated fails in both parts.  An account id with an
    apostrophe ends its literal in the [IN] list early and the call is
    rejected.  Two accounts holding 0.10 and 0.20, each taken whole,
    resolve to the rounded sum 0.30000000000000004, which is not the sum
    of the two contributions; and the three rules of the witness, which
    resolve to 3681.7975 in the order of the witness, resolve to another
    number, 3681.7974999999997, with the last two rules exchanged. *)
Lemma fund_balance_not_the_sum :
  ¬ Binary64.never_rejected
  ∧ ¬ Binary64.resolves_to_exact_sum
  ∧ Binary64.calculateFundBalanceFromAllocations Binary64.three_accounts
      [Binary64.quarter "A"; Binary64.quarter "C"; Binary64.thousand "B"]
    ≠ Binary64.calculateFundBalanceFromAllocations Binary64.three_accounts
        [Binary64.quarter "A"; Binary64.thousand "B"; Binary64.quarter "C"].
Proof.
  split; [|split].
  - intros Hclaim.
    destruct (Hclaim Binary64.dimes [Binary64.whole "O'Brien"]) as [x Hx].
    vm_compute in Hx. discriminate.
  - intros Hclaim.
    set (allocs := [Binary64.whole "A"; Binary64.whole "B"]).
    set (x := Binary64.add (Binary64.decimal 10 2) (Binary64.decimal 20 2)).
    assert (Binary64.calculateFundBalanceFromAllocations Binary64.dimes allocs
            = Binary64.resolved x) as Hx by (vm_compute; reflexivity).
    destruct (Binary64.exact_sum Binary64.dimes allocs) as [total|] eqn:Hsum;
      [|vm_compute in Hsum; discriminate].
    pose proof (Hclaim Binary64.dimes allocs x total Hx Hsum) as Hexact.
    rewrite <- Hsum in Hexact. revert Hexact. by_evaluation.
  - intros Heq. vm_compute in Heq. discriminate.
Qed.

(** ** Comparisons of binary64 numbers with the two thresholds *)

Lemma Binary64_fifty :
  Binary64.of_Z 50 = S754_finite false 7036874417766400 (-47).
Proof. vm_compute. reflexivity. Qed.

Lemma Binary64_eighty :
  Binary64.of_Z 80 = S754_finite false 5629499534213120 (-46).
Proof. vm_compute. reflexivity. Qed.

(** Against a positive finite number [c], the comparison of [p] with [c]
    and that of [c] with [p] mirror each other. *)
Lemma SFcompare_mirror (p : spec_float) (mc : positive) (ec : Z) :
  SFcompare (S754_finite false mc ec) p
  = CompOpp <$> SFcompare p (S754_finite false mc ec).
Proof.
  destruct p as [s|s| |s m e]; try destruct s; try done.
  cbn [SFcompare fmap option_fmap option_map].
  assert (Pos.compare_cont Eq mc m = CompOpp (Pos.compare_cont Eq m mc))
    as -> by (symmetry; apply (Pos.compare_cont_antisym m mc Eq)).
  rewrite (Z.compare_antisym e ec). by destruct (e ?= ec)%Z.
Qed.

Lemma Binary64_below_50_below_80 (p : Binary64.number) :
  Binary64.lt p (Binary64.of_Z 50) = true →
  Binary64.lt p (Binary64.of_Z 80) = true.
Proof.
  rewrite Binary64_fifty, Binary64_eighty. unfold Binary64.lt, SFltb.
  destruct p as [s|s| |s m e]; try destruct s; try done.
  cbn [SFcompare].
  destruct (Z.compare_spec e (-47)), (Z.compare_spec e (-46)); try done; lia.
Qed.

Lemma Binary64_lt_or_le (p : Binary64.number) (mc : positive) (ec : Z) :
  let c := S754_finite false mc ec in
  (Binary64.lt p c = true → Binary64.ge p c = false)
  ∧ (Binary64.ge p c = true → Binary64.lt p c = false)
  ∧ (Binary64.lt p c = false →
     Binary64.ge p c = true ∨ Binary64.is_nan p = true).
Proof.
  intros c. unfold Binary64.lt, Binary64.ge, SFltb, SFleb. subst c.
  rewrite SFcompare_mirror.
  destruct (SFcompare p (S754_finite false mc ec)) as [[| |]|] eqn:Hcmp;
    cbn; repeat split; try done; try (by left).
  intros _. right. by destruct p as [s|s| |s m e]; try destruct s.
Qed.

(** ** Rounding never gives [NaN] *)

Lemma shr_1_nonneg (mrs : shr_record) :
  (0 ≤ shr_m mrs)%Z → (0 ≤ shr_m (shr_1 mrs))%Z.
Proof. destruct mrs as [[|[m|m|]|m] r s]; cbn; lia. Qed.

Lemma iter_shr_1_nonneg (n : positive) (mrs : shr_record) :
  (0 ≤ shr_m mrs)%Z → (0 ≤ shr_m (SpecFloat.iter_pos shr_1 n mrs))%Z.
Proof.
  revert mrs. induction n as [n IH|n IH|]; intros mrs Hm; cbn [SpecFloat.iter_pos].
  - by apply IH, IH, shr_1_nonneg.
  - by apply IH, IH.
  - by apply shr_1_nonneg.
Qed.

Lemma shr_fexp_nonneg (m e : Z) (l : location) :
  (0 ≤ m)%Z → (0 ≤ shr_m (shr_fexp 53 1024 m e l).1)%Z.
Proof.
  intros Hm. unfold shr_fexp, shr.
  assert (0 ≤ shr_m (shr_record_of_loc m l))%Z as Hrecord
    by (by destruct l as [|[| |]]).
  destruct (fexp 53 1024 (Zdigits2 m + e) - e)%Z; cbn [fst]; try done.
  by apply iter_shr_1_nonneg.
Qed.

Lemma binary_round_aux_not_nan (sx : bool) (mx ex : Z) (lx : location) :
  (0 ≤ mx)%Z →
  Binary64.is_nan (binary_round_aux 53 1024 sx mx ex lx) = false.
Proof.
  intros Hm. unfold binary_round_aux.
  pose proof (shr_fexp_nonneg mx ex lx Hm) as H1.
  destruct (shr_fexp 53 1024 mx ex lx) as [mrs' e']. cbn [fst] in H1.
  assert (0 ≤ round_nearest_even (shr_m mrs') (loc_of_shr_record mrs'))%Z
    as H2.
  { unfold round_nearest_even.
    destruct (loc_of_shr_record mrs') as [|[| |]]; try done; try lia.
    destruct (Z.even (shr_m mrs')); lia. }
  pose proof (shr_fexp_nonneg _ e' loc_Exact H2) as H3.
  destruct (shr_fexp 53 1024 _ e' loc_Exact) as [mrs'' e'']. cbn [fst] in H3.
  destruct (shr_m mrs'') as [|m|m]; [done| |lia].
  by destruct (e'' <=? 1024 - 53)%Z.
Qed.

Lemma Binary64_div_not_nan (a b : Binary64.number) :
  Binary64.is_nan a = false → Binary64.is_finite b = true →
  Binary64.gt b Binary64.zero = true →
  Binary64.is_nan (Binary64.div a b) = false.
Proof.
  intros Ha Hb Hpos.
  destruct b as [s|s| |s mb eb]; try done. destruct s; [done|].
  destruct a as [s|s| |s ma ea]; try done.
  unfold Binary64.div, SFdiv, SFdiv_core_binary.
  destruct (Z.div_eucl _ _) as [q r] eqn:Hdiv.
  apply binary_round_aux_not_nan.
  assert (q = fst (Z.div_eucl
                     match (ea - eb
                            - Z.min (fexp 53 1024
                                       (Zdigits2 (Z.pos ma) + ea
                                        - (Zdigits2 (Z.pos mb) + eb)))
                                (ea - eb))%Z with
                     | 0%Z => Z.pos ma
                     | Z.pos _ =>
                         Z.shiftl (Z.pos ma)
                           (ea - eb
                            - Z.min (fexp 53 1024
                                       (Zdigits2 (Z.pos ma) + ea
                                        - (Zdigits2 (Z.pos mb) + eb)))
                                (ea - eb))
                     | Z.neg _ => 0%Z
                     end (Z.pos mb))) as -> by (by rewrite Hdiv).
  apply Z.div_pos; [|done].
  destruct (ea - eb - _)%Z eqn:Hs; try done.
  apply Z.shiftl_nonneg. done.
Qed.

Lemma Binary64_mul_hundred_not_nan (a : Binary64.number) :
  Binary64.is_nan a = false →
  Binary64.is_nan (Binary64.mul a Binary64.hundred) = false.
Proof.
  intros Ha. destruct a as [s|s| |s ma ea]; try done.
  change Binary64.hundred with (S754_finite false 7036874417766400 (-46)).
  unfold Binary64.mul, SFmul. by apply binary_round_aux_not_nan.
Qed.

Lemma Binary64_finite_not_nan (a : Binary64.number) :
  Binary64.is_finite a = true → Binary64.is_nan a = false.
Proof. by destruct a. Qed.

Lemma Binary64_runwayPercent_not_nan (fb me t : Binary64.number) :
  Binary64.is_finite fb = true → Binary64.is_finite me = true →
  Binary64.is_finite t = true →
  let r := Binary64.evaluate fb me t in
  Binary64.is_nan
    (Binary64.runwayPercent (Binary64.monthsOfRunway r)
       (Binary64.targetMonths r)) = false.
Proof.
  intros Hfb Hme Ht r. subst r.
  cbn [Binary64.evaluate Binary64.monthsOfRunway Binary64.targetMonths].
  unfold Binary64.runwayPercent.
  destruct (Binary64.gt t Binary64.zero) eqn:Hpos; [|done].
  apply Binary64_mul_hundred_not_nan, Binary64_div_not_nan; try done.
  destruct (Binary64.gt me Binary64.zero) eqn:Hmepos; [|done].
  apply Binary64_div_not_nan; try done.
  by apply Binary64_finite_not_nan.
Qed.

(** C2 (as amended): for every evaluation on finite numbers, with the
    runway percentage the number [calculateRunway] computes,
    [(months_of_runway / target_months) * 100] with the division first and
    each operation rounded, and 0 when the target is not positive, the
    percentage is a number and the status is critical exactly when it is
    below 50, warning exactly when it is at least 50 and below 80, and
    on-track exactly when it is at least 80. *)
Theorem status_by_runway_percent (fb me t : Binary64.number) :
  Binary64.is_finite fb = true → Binary64.is_finite me = true →
  Binary64.is_finite t = true →
  let r := Binary64.evaluate fb me t in
  let p := Binary64.runwayPercent (Binary64.monthsOfRunway r)
             (Binary64.targetMonths r) in
  Binary64.is_nan p = false
  ∧ (Binary64.status r = critical
     ↔ Binary64.lt p (Binary64.of_Z 50) = true)
  ∧ (Binary64.status r = warning
     ↔ Binary64.ge p (Binary64.of_Z 50) = true
       ∧ Binary64.lt p (Binary64.of_Z 80) = true)
  ∧ (Binary64.status r = on_track
     ↔ Binary64.ge p (Binary64.of_Z 80) = true).
Proof.
  intros Hfb Hme Ht r p.
  assert (Binary64.is_nan p = false) as Hnan
    by apply (Binary64_runwayPercent_not_nan fb me t Hfb Hme Ht).
  assert (Binary64.status r = Binary64.classify p) as -> by done.
  clearbody p. split; [done|]. unfold Binary64.classify.
  pose proof (Binary64_below_50_below_80 p) as Hbelow.
  destruct (Binary64_lt_or_le p 7036874417766400 (-47)) as (H50a & H50b & H50c).
  destruct (Binary64_lt_or_le p 5629499534213120 (-46)) as (H80a & H80b & H80c).
  rewrite <- Binary64_fifty in H50a, H50b, H50c.
  rewrite <- Binary64_eighty in H80a, H80b, H80c.
  destruct (Binary64.lt p (Binary64.of_Z 80)) eqn:H80;
    destruct (Binary64.lt p (Binary64.of_Z 50)) eqn:H50.
  - rewrite H50a, H80a by done. repeat split; try done; by intros [? ?].
  - destruct (H50c eq_refl) as [Hge|Hp]; [|congruence].
    rewrite Hge, H80a by done. repeat split; done.
  - by specialize (Hbelow eq_refl).
  - destruct (H80c eq_refl) as [Hge|Hp]; [|congruence].
    rewrite Hge. repeat split; try done. by intros [_ ?].
Qed.

Lemma status_by_runway_percent_witness :
  let fb := Binary64.decimal 250000 2 in
  let me := Binary64.decimal 100000 2 in
  let t := Binary64.of_Z 6 in
  (Binary64.is_finite fb = true ∧ Binary64.is_finite me = true
   ∧ Binary64.is_finite t = true)
  ∧ Binary64.status (Binary64.evaluate fb me t) = critical
  ∧ let r := Binary64.evaluate fb me t in
    let p := Binary64.runwayPercent (Binary64.monthsOfRunway r)
               (Binary64.targetMonths r) in
    Binary64.is_nan p = false
    ∧ (Binary64.status r = critical
       ↔ Binary64.lt p (Binary64.of_Z 50) = true)
    ∧ (Binary64.status r = warning
       ↔ Binary64.ge p (Binary64.of_Z 50) = true
         ∧ Binary64.lt p (Binary64.of_Z 80) = true)
    ∧ (Binary64.status r = on_track
       ↔ Binary64.ge p (Binary64.of_Z 80) = true).
Proof.
  intros fb me t.
  assert (Binary64.is_finite fb = true) as H1 by (vm_compute; reflexivity).
  assert (Binary64.is_finite me = true) as H2 by (vm_compute; reflexivity).
  assert (Binary64.is_finite t = true) as H3 by (vm_compute; reflexivity).
  split; [exact (conj H1 (conj H2 H3))|].
  split; [vm_compute; reflexivity|].
  exact (status_by_runway_percent fb me t H1 H2 H3).
Defined.

(** The claim as stated fails at the threshold of 80 however the stated
    formula is read.  With a fund balance of 7201.44, monthly expenses of
    1000.20 and a target of 9 months the status is on-track, while
    [100 * months_of_runway / target_months] is below 80 both in exact
    arithmetic on the two numbers of the result and in the arithmetic of
    the script in the order written.  With 4918.32, 1024.65 and 6 months
    the decimal figures give exactly 80 percent and the status is
    warning. *)
Lemma status_not_by_stated_percent :
  ¬ Binary64.status_by_percent Binary64.Exact
  ∧ ¬ Binary64.status_by_percent Binary64.Stated
  ∧ Binary64.status
      (Binary64.evaluate (Binary64.decimal 491832 2)
         (Binary64.decimal 102465 2) (Binary64.of_Z 6)) = warning
  ∧ (100%Z * ((491832%Z : Qc) / (102465%Z : Qc)) / 6%Z = (80%Z : Qc)).
Proof.
  assert (∀ reading,
            Binary64.percent_at_least reading
              (Binary64.monthsOfRunway
                 (Binary64.evaluate (Binary64.decimal 720144 2)
                    (Binary64.decimal 100020 2) (Binary64.of_Z 9)))
              (Binary64.of_Z 9) 80 = false →
            ¬ Binary64.status_by_percent reading) as Hrefute.
  { intros reading Hbelow Hclaim.
    destruct (Hclaim (Binary64.decimal 720144 2) (Binary64.decimal 100020 2)
                (Binary64.of_Z 9)) as (_ & _ & Hon);
      [vm_compute; reflexivity..|].
    cbv zeta in Hon.
    change (Binary64.targetMonths
              (Binary64.evaluate (Binary64.decimal 720144 2)
                 (Binary64.decimal 100020 2) (Binary64.of_Z 9)))
      with (Binary64.of_Z 9) in Hon.
    rewrite Hbelow in Hon.
    assert (Binary64.status
              (Binary64.evaluate (Binary64.decimal 720144 2)
                 (Binary64.decimal 100020 2) (Binary64.of_Z 9)) = on_track)
      as Hstatus by (vm_compute; reflexivity).
    apply Hon in Hstatus. done. }
  split; [apply Hrefute; vm_compute; reflexivity|].
  split; [apply Hrefute; vm_compute; reflexivity|].
  split; [vm_compute; reflexivity|]. by_evaluation.
Qed.

(** The two manual scenarios of the specification in the arithmetic of the
    script: 5000 against monthly expenses of 1000 and a target of six
    months is on track, 2500 is critical. *)
Example Binary64_scenarios :
  Binary64.status
    (Binary64.evaluate (Binary64.of_Z 5000) (Binary64.of_Z 1000)
       (Binary64.of_Z 6)) = on_track
  ∧ Binary64.status
      (Binary64.evaluate (Binary64.of_Z 2500) (Binary64.of_Z 1000)
         (Binary64.of_Z 6)) = critical.
Proof. split; vm_compute; reflexivity. Qed.

(** The status follows the runway percentage, not the progress toward
    the target amount, and the two are rounded apart: with a fund of
    3000.66, monthly expenses of 1000.22 and a target of six months the
    progress is 50 percent and the status is critical. *)
Example Binary64_progress_at_50 :
  let r := Binary64.evaluate (Binary64.decimal 300066 2)
             (Binary64.decimal 100022 2) (Binary64.of_Z 6) in
  Binary64.progressPercent r = Binary64.of_Z 50
  ∧ Binary64.status r = critical.
Proof. split; vm_compute; reflexivity. Qed.

(** ** The allocation resolver in exact arithmetic *)

Lemma or_zero_Num (x : Qc) : or_zero (Num x) = Num x.
Proof.
  unfold or_zero, truthy, Qc_eqb. case_bool_decide; simpl; [by subst|done].
Qed.

Lemma min_Num (x y : Qc) : JS.min (Num x) (Num y) = Num (Qc_min x y).
Proof.
  unfold JS.min, JS.lt, Qc_ltb, Qc_min.
  case_bool_decide as Hlt; case_decide as Hle; try done.
  - f_equal. apply Qcle_antisym; [by apply Qclt_le_weak|done].
  - apply Qcnot_lt_le in Hlt. apply Qcnot_le_lt in Hle.
    exfalso. eapply Qclt_not_le; eauto.
Qed.

Lemma div_Num_100 (x : Qc) : JS.div (Num x) (Num 100) = Num (x / 100).
Proof. unfold JS.div, Qc_eqb. by case_bool_decide. Qed.

Lemma find_query_balances (db : Database) (ids : list string) (aid : string) :
  List.find (λ r, String.eqb r.1 aid) (query_balances db ids)
  = if decide (aid ∈ ids) then (λ v, (aid, v)) <$> accounts db !! aid else None.
Proof. apply find_in_rows. Qed.

Lemma account_balance_query (db : Database) (ids : list string) (aid : string) :
  aid ∈ ids →
  account_balance (query_balances db ids) aid = Num (balance_of (accounts db) aid).
Proof.
  intros Hin. unfold account_balance, Number_or_zero, balance_of.
  rewrite find_query_balances, decide_True by done.
  destruct (accounts db !! aid); simpl; [apply or_zero_Num|done].
Qed.

Lemma add_allocation_query (db : Database) (ids : list string) (acc : Qc)
    (alloc : FundAllocation) :
  account_id alloc ∈ ids →
  add_allocation (query_balances db ids) (Num acc) alloc
  = Num (acc + contribution (accounts db) alloc).
Proof.
  intros Hin. unfold add_allocation, contribution.
  rewrite account_balance_query by done.
  destruct (allocation_type alloc); simpl JS.mul.
  - by rewrite div_Num_100.
  - by rewrite min_Num.
Qed.

Lemma fold_add_allocation (db : Database) (ids : list string)
    (allocs : list FundAllocation) (acc : Qc) :
  Forall (λ a, account_id a ∈ ids) allocs →
  fold_left (add_allocation (query_balances db ids)) allocs (Num acc)
  = Num (acc + resolve allocs (accounts db)).
Proof.
  intros Hall. revert acc.
  induction Hall as [|a l Ha _ IH]; intros acc; simpl.
  - f_equal. unfold resolve. simpl. ring.
  - rewrite add_allocation_query, IH by done. f_equal.
    unfold resolve. simpl. ring.
Qed.

Lemma calculateFundBalance_resolve (db : Database)
    (allocs : list FundAllocation) :
  calculateFundBalanceFromAllocations db allocs
  = Num (resolve allocs (accounts db)).
Proof.
  assert (fold_left
            (add_allocation (query_balances db (map account_id allocs)))
            allocs (Num 0)
          = Num (0 + resolve allocs (accounts db))) as Hloop.
  { apply fold_add_allocation, Forall_forall. intros x Hx.
    apply list_elem_of_fmap. by exists x. }
  destruct allocs as [|a l]; [done|].
  unfold calculateFundBalanceFromAllocations. rewrite Hloop. f_equal. ring.
Qed.

(** ** The runway evaluation on finite inputs *)

Lemma value_or_zero_finite (v : option Qc) :
  value_or_zero v = Num (default 0 v).
Proof. destruct v; simpl; [apply or_zero_Num|done]. Qed.

Lemma queryMonthlyExpenses_finite (db : Database) (clock : Clock)
    (cfg : EmergencyFundConfig) :
  ∃ me : Qc, queryMonthlyExpenses db clock cfg = Num me.
Proof.
  unfold queryMonthlyExpenses, estimate.
  destruct (expense_account_ids cfg); [by exists 0|].
  rewrite value_or_zero_finite. eauto.
Qed.

Lemma gt_Num (x y : Qc) : JS.gt (Num x) (Num y) = bool_decide (y < x).
Proof. done. Qed.

Lemma lt_Num (x y : Qc) : JS.lt (Num x) (Num y) = bool_decide (x < y).
Proof. done. Qed.

Lemma Qc_lt_irrefl_0 (x : Qc) : 0 < x → x ≠ 0.
Proof. intros H ->. by apply Qclt_not_eq in H. Qed.

Lemma div_Num_pos (x y : Qc) : 0 < y → JS.div (Num x) (Num y) = Num (x / y).
Proof.
  intros Hy. unfold JS.div, Qc_eqb.
  rewrite bool_decide_eq_false_2; [done|by apply Qc_lt_irrefl_0].
Qed.

Lemma runwayPercent_finite (m t : Qc) :
  runwayPercent (Num m) (Num t) = Num (percent_of m t).
Proof.
  unfold runwayPercent, percent_of. rewrite gt_Num.
  case_bool_decide; case_decide; try done.
  by rewrite div_Num_pos.
Qed.

Lemma evaluate_finite (fb me t : Qc) :
  let r := evaluate (Num fb) (Num me) (Num t) in
  fundBalance r = Num fb
  ∧ monthlyExpenses r = Num me
  ∧ monthsOfRunway r = Num (months_of fb me)
  ∧ targetMonths r = Num t
  ∧ targetAmount r = Num (me * t)
  ∧ progressPercent r = Num (progress_of fb (me * t))
  ∧ (∃ rest : Qc, remainingToTarget r = Num rest)
  ∧ status r = classify (Num (percent_of (months_of fb me) t)).
Proof.
  unfold evaluate.
  cbn [fundBalance monthlyExpenses monthsOfRunway targetMonths targetAmount
       progressPercent remainingToTarget status].
  assert ((if JS.gt (Num me) (Num 0) then JS.div (Num fb) (Num me) else Num 0)
          = Num (months_of fb me)) as Hm.
  { unfold months_of. rewrite gt_Num.
    case_bool_decide; case_decide; try done. by rewrite div_Num_pos. }
  rewrite Hm. change (JS.mul (Num me) (Num t)) with (Num (me * t)).
  repeat split.
  - unfold progress_of. rewrite gt_Num.
    case_bool_decide; case_decide; try done. by rewrite div_Num_pos.
  - unfold JS.max, JS.sub, JS.lt. destruct (Qc_ltb _ _); eauto.
  - by rewrite runwayPercent_finite.
Qed.

Lemma resolveTarget_months (cfg : EmergencyFundConfig) (gs : list Goal)
    (override : bool) (previous : option number) (me : Qc) :
  (resolveTarget cfg gs override previous (Num me)).1
  = Num (match linked_goal cfg gs with
         | Some goal =>
             if decide (auto_derived cfg gs override me)
             then target_amount goal / me
             else nullish (target_months cfg) 6%Z
         | None => nullish (target_months cfg) 6%Z
         end).
Proof.
  unfold resolveTarget.
  destruct (linked_goal cfg gs) as [goal|] eqn:Hlg.
  - case_decide as Hauto.
    + destruct Hauto as (_ & Hme & -> & Hnull).
      unfold linked_goal in Hlg.
      destruct (truthy_str (linked_goal_id cfg)); [|done].
      rewrite Hlg, gt_Num, bool_decide_eq_true_2 by done.
      rewrite div_Num_pos by done. simpl.
      by rewrite bool_decide_eq_true_2 by done.
    + assert (linked_goal cfg gs = Some goal) as Hlg' by done.
      unfold linked_goal in Hlg.
      destruct (truthy_str (linked_goal_id cfg)); [|done].
      rewrite Hlg, gt_Num. case_bool_decide as Hme; [|done].
      destruct (negb override && bool_decide _) eqn:Hb; [|done].
      exfalso. apply Hauto. apply andb_true_iff in Hb as [Hov Hnull].
      apply negb_true_iff in Hov. apply bool_decide_eq_true_1 in Hnull.
      unfold auto_derived. rewrite Hlg'. eauto.
  - unfold linked_goal in Hlg.
    destruct (truthy_str (linked_goal_id cfg)); [|done]. by rewrite Hlg.
Qed.

Lemma resolveTarget_auto (cfg : EmergencyFundConfig) (gs : list Goal)
    (override : bool) (previous : option number) (me : Qc) :
  (resolveTarget cfg gs override previous (Num me)).2
  = if truthy_str (linked_goal_id cfg) then
      match find_goal gs (linked_goal_id cfg) with
      | Some goal =>
          if decide (0 < me) then Some (Num (target_amount goal / me))
          else previous
      | None => previous
      end
    else None.
Proof.
  unfold resolveTarget.
  destruct (truthy_str (linked_goal_id cfg)); [|done].
  destruct (find_goal gs (linked_goal_id cfg)) as [goal|]; [|done].
  rewrite gt_Num. case_bool_decide as Hme; case_decide; try done.
  rewrite div_Num_pos by done. by destruct (_ && _).
Qed.

Lemma loadExpenseBreakdown_view (clock : Clock) (w : World) :
  ∃ l, view (loadExpenseBreakdown clock w) = set_expenseBreakdown l (view w).
Proof.
  unfold loadExpenseBreakdown.
  destruct (config (view w)) as [cfg|]; [|by eexists].
  destruct (expense_account_ids cfg); by eexists.
Qed.

(** What an evaluation leaves in [runwayData] and [autoTargetMonths]. *)
Lemma calculateRunway_result (clock : Clock) (w : World)
    (cfg : EmergencyFundConfig) :
  config (view w) = Some cfg →
  let fb := calculateFundBalanceFromAllocations (db w)
              (allocationsToUse cfg (goals (view w))) in
  let me := queryMonthlyExpenses (db w) clock cfg in
  let target := resolveTarget cfg (goals (view w))
                  (formTargetMonthsOverride (form (view w)))
                  (autoTargetMonths (view w)) me in
  runwayData (view (calculateRunway clock w)) = Some (evaluate fb me target.1)
  ∧ autoTargetMonths (view (calculateRunway clock w)) = target.2.
Proof.
  intros Hcfg fb me target. unfold calculateRunway. rewrite Hcfg.
  fold fb me target. destruct target as [t auto]. cbn [fst snd].
  match goal with
  | |- context [loadExpenseBreakdown clock ?w2] =>
      destruct (loadExpenseBreakdown_view clock w2) as [l ->];
      assert (view w2 = set_runway (Some (evaluate fb me t)) auto (view w))
        as ->
  end.
  { by destruct (status _). }
  done.
Qed.

(** An evaluation always ends with a result made of finite numbers. *)
Lemma calculateRunway_finite (clock : Clock) (w : World)
    (cfg : EmergencyFundConfig) :
  config (view w) = Some cfg →
  ∃ fb me : Qc,
    queryMonthlyExpenses (db w) clock cfg = Num me
    ∧ runwayData (view (calculateRunway clock w))
      = Some (evaluate (Num fb) (Num me)
                (Num (match linked_goal cfg (goals (view w)) with
                      | Some goal =>
                          if decide (auto_derived cfg (goals (view w))
                                       (formTargetMonthsOverride (form (view w)))
                                       me)
                          then target_amount goal / me
                          else nullish (target_months cfg) 6%Z
                      | None => nullish (target_months cfg) 6%Z
                      end))).
Proof.
  intros Hcfg.
  destruct (calculateRunway_result clock w cfg Hcfg) as [Hr _].
  destruct (queryMonthlyExpenses_finite (db w) clock cfg) as [me Hme].
  exists (resolve (allocationsToUse cfg (goals (view w))) (accounts (db w))), me.
  split; [done|].
  rewrite Hr, Hme, resolveTarget_months.
  by rewrite calculateFundBalance_resolve.
Qed.

(** ** Status classification *)

(** The two manual scenarios: a balance of 5000 against monthly expenses
    of 1000 and a target of six months is on track; 2500 is critical. *)
Example scenario_on_track :
  let r := runwayData (view (calculateRunway Scenario.clock
                               (Scenario.manual 5000))) in
  fundBalance <$> r = Some (Num 5000%Z)
  ∧ monthlyExpenses <$> r = Some (Num 1000%Z)
  ∧ monthsOfRunway <$> r = Some (Num 5%Z)
  ∧ targetAmount <$> r = Some (Num 6000%Z)
  ∧ progressPercent <$> r = Some (Num (250%Z / 3%Z))
  ∧ status <$> r = Some on_track.
Proof. repeat split; by_evaluation. Qed.

Example scenario_critical :
  let r := runwayData (view (calculateRunway Scenario.clock
                               (Scenario.manual 2500))) in
  fundBalance <$> r = Some (Num 2500%Z)
  ∧ monthsOfRunway <$> r = Some (Num (5%Z / 2%Z))
  ∧ status <$> r = Some critical.
Proof. repeat split; by_evaluation. Qed.

(** ** Division hazards *)

(** C5: every evaluation ends with a result whose figures are finite
    numbers (none is NaN or an infinity): the months of runway are
    [fund_balance / monthly_expenses] when the monthly expenses are
    positive and 0 otherwise, the progress percentage is 0 when the target
    amount is not positive, and the runway percentage the status is
    classified from is 0 when the target in months is not positive. *)
Theorem division_hazards_resolve_to_zero (clock : Clock) (w : World)
    (cfg : EmergencyFundConfig) :
  config (view w) = Some cfg →
  ∃ (r : RunwayData) (fb me m t ta p rp : Qc),
    runwayData (view (calculateRunway clock w)) = Some r
    ∧ fundBalance r = Num fb ∧ monthlyExpenses r = Num me
    ∧ monthsOfRunway r = Num m ∧ targetMonths r = Num t
    ∧ targetAmount r = Num ta ∧ progressPercent r = Num p
    ∧ runwayPercent (monthsOfRunway r) (targetMonths r) = Num rp
    ∧ status r = classify (Num rp)
    ∧ (0 < me → m = fb / me) ∧ (¬ 0 < me → m = 0)
    ∧ (ta ≤ 0 → p = 0)
    ∧ (t ≤ 0 → rp = 0).
Proof.
  intros Hcfg.
  destruct (calculateRunway_finite clock w cfg Hcfg) as (fb & me & _ & Hr).
  lazymatch type of Hr with
  | context [evaluate (Num fb) (Num me) (Num ?t)] =>
      generalize dependent t
  end.
  intros t Hr.
  destruct (evaluate_finite fb me t)
    as (Hfb & Hme & Hm & Ht & Hta & Hp & _ & Hs).
  exists (evaluate (Num fb) (Num me) (Num t)), fb, me, (months_of fb me), t,
    (me * t), (progress_of fb (me * t)), (percent_of (months_of fb me) t).
  repeat (split; [done|]). split; [by rewrite Hm, Ht, runwayPercent_finite|].
  split; [done|]. unfold months_of, progress_of, percent_of.
  repeat split; intros; case_decide; try done; Qc_order.
Qed.

Lemma division_hazards_resolve_to_zero_witness :
  let w := Scenario.rent_excluded in
  config (view w) = Some (config_of_row
                            (hd Scenario.goal_row
                               (sys_plugin_emergency_fund_config (db w))))
  ∧ ∃ (r : RunwayData) (fb me m t ta p rp : Qc),
      runwayData (view (calculateRunway Scenario.clock w)) = Some r
      ∧ fundBalance r = Num fb ∧ monthlyExpenses r = Num me
      ∧ monthsOfRunway r = Num m ∧ targetMonths r = Num t
      ∧ targetAmount r = Num ta ∧ progressPercent r = Num p
      ∧ runwayPercent (monthsOfRunway r) (targetMonths r) = Num rp
      ∧ status r = classify (Num rp)
      ∧ (0 < me → m = fb / me) ∧ (¬ 0 < me → m = 0)
      ∧ (ta ≤ 0 → p = 0)
      ∧ (t ≤ 0 → rp = 0).
Proof.
  split; [reflexivity|].
  apply (division_hazards_resolve_to_zero Scenario.clock Scenario.rent_excluded
           (config_of_row (hd Scenario.goal_row
                             (sys_plugin_emergency_fund_config
                                (db Scenario.rent_excluded))))).
  reflexivity.
Defined.

(** ** Target resolution *)

(** C3 (as amended): when a goal is linked, the monthly expenses are
    positive, the override flag is off and no target is configured, the
    effective target in months is [goal.target_amount / monthly_expenses];
    otherwise it is the configured [target_months], or the default 6 when
    none is configured; in both cases the target amount is
    [target_months * monthly_expenses]. *)
Theorem target_months_derived_or_configured (clock : Clock) (w : World)
    (cfg : EmergencyFundConfig) :
  config (view w) = Some cfg →
  ∃ (r : RunwayData) (me t : Qc),
    runwayData (view (calculateRunway clock w)) = Some r
    ∧ monthlyExpenses r = Num me
    ∧ targetMonths r = Num t
    ∧ (let derived :=
         auto_derived cfg (goals (view w))
           (formTargetMonthsOverride (form (view w))) me in
       (derived →
        ∃ goal, linked_goal cfg (goals (view w)) = Some goal
                ∧ t = target_amount goal / me)
       ∧ (¬ derived → t = nullish (target_months cfg) 6%Z))
    ∧ targetAmount r = Num (t * me).
Proof.
  intros Hcfg.
  destruct (calculateRunway_finite clock w cfg Hcfg) as (fb & me & _ & Hr).
  eexists _, me, _. split; [exact Hr|].
  split; [done|]. split; [done|]. split.
  - split.
    + intros Hd. pose proof Hd as ([goal Hgoal] & _).
      exists goal. split; [done|]. rewrite Hgoal. by rewrite decide_True.
    + intros Hd. destruct (linked_goal _ _); [|done].
      by rewrite decide_False.
  - cbn. f_equal. ring.
Qed.

Lemma target_months_derived_or_configured_witness :
  let w := Scenario.goal_linked in
  config (view w) = Some (config_of_row Scenario.goal_row)
  ∧ ∃ (r : RunwayData) (me t : Qc),
      runwayData (view (calculateRunway Scenario.clock w)) = Some r
      ∧ monthlyExpenses r = Num me
      ∧ targetMonths r = Num t
      ∧ (let derived :=
           auto_derived (config_of_row Scenario.goal_row) (goals (view w))
             (formTargetMonthsOverride (form (view w))) me in
         (derived →
          ∃ goal, linked_goal (config_of_row Scenario.goal_row)
                    (goals (view w)) = Some goal
                  ∧ t = target_amount goal / me)
         ∧ (¬ derived
            → t = nullish (target_months (config_of_row Scenario.goal_row))
                    6%Z))
      ∧ targetAmount r = Num (t * me).
Proof.
  split; [reflexivity|].
  apply (target_months_derived_or_configured Scenario.clock
           Scenario.goal_linked (config_of_row Scenario.goal_row)).
  reflexivity.
Defined.

(** The goal scenario: a goal of 24000 against monthly expenses of 2000,
    no override and no configured target, gives a target of 12 months. *)
Example scenario_goal_linked :
  let w := calculateRunway Scenario.clock Scenario.goal_linked in
  monthlyExpenses <$> runwayData (view w) = Some (Num 2000%Z)
  ∧ targetMonths <$> runwayData (view w) = Some (Num 12%Z)
  ∧ autoTargetMonths (view w) = Some (Num 12%Z).
Proof. repeat split; by_evaluation. Qed.

(** The claim as stated, with "otherwise the configured explicit value"
    and no default, fails: with a goal linked, no override, no configured
    target and no expense in the window, the target is 6 months although
    nothing is configured. *)
Lemma target_months_not_always_explicit : ¬ target_resolution Explicit.
Proof.
  intros Hclaim.
  destruct (Hclaim Scenario.clock Scenario.rent_excluded
              (config_of_row
                 (hd Scenario.goal_row
                    (sys_plugin_emergency_fund_config
                       (db Scenario.rent_excluded)))) eq_refl)
    as (r & me & t & Hr & Hme & _ & [_ Hexplicit] & _).
  vm_compute in Hr. injection Hr as <-. vm_compute in Hme.
  injection Hme as <-.
  assert (None = Some t) as Habsurd; [|done].
  apply Hexplicit. intros (_ & Hpos & _). by vm_compute in Hpos.
Qed.

(** ** The auto-derived target across evaluations *)

(** With a goal linked and no positive monthly expenses, an evaluation
    leaves [autoTargetMonths] as it found it and takes the configured
    target in months, or 6 when none is configured. *)
Lemma calculateRunway_keeps_auto_target (clock : Clock) (w : World)
    (cfg : EmergencyFundConfig) (goal : Goal) :
  config (view w) = Some cfg →
  linked_goal cfg (goals (view w)) = Some goal →
  queryMonthlyExpenses (db w) clock cfg = Num 0 →
  autoTargetMonths (view (calculateRunway clock w)) = autoTargetMonths (view w)
  ∧ ∃ r, runwayData (view (calculateRunway clock w)) = Some r
         ∧ targetMonths r = Num (nullish (target_months cfg) 6%Z).
Proof.
  intros Hcfg Hgoal Hme.
  destruct (calculateRunway_result clock w cfg Hcfg) as [Hr Hauto].
  rewrite Hme in Hr, Hauto. split.
  - rewrite Hauto, resolveTarget_auto. unfold linked_goal in Hgoal.
    destruct (truthy_str (linked_goal_id cfg)); [|done]. by rewrite Hgoal.
  - eexists. split; [exact Hr|]. cbn [evaluate targetMonths].
    rewrite resolveTarget_months, Hgoal, decide_False; [done|].
    intros (_ & Hpos & _). by vm_compute in Hpos.
Qed.

(** C7: an evaluation with a goal linked and a monthly expense estimate of
    0 does not clear [autoTargetMonths].  In the goal scenario the first
    evaluation derives 12 months; once "rent" is excluded the estimate is
    0, the target falls back to the default 6, and [autoTargetMonths]
    still holds 12. *)
Theorem auto_target_months_not_cleared :
  let w := Scenario.rent_excluded in
  let w' := calculateRunway Scenario.clock w in
  is_Some (cfg ← config (view w); linked_goal cfg (goals (view w)))
  ∧ monthlyExpenses <$> runwayData (view w') = Some (Num 0)
  ∧ targetMonths <$> runwayData (view w') = Some (Num 6%Z)
  ∧ autoTargetMonths (view w') = Some (Num 12%Z)
  ∧ autoTargetMonths (view w') ≠ None.
Proof. repeat split; by_evaluation. Qed.

(** ** Quick exclude *)

(** C10: the quick-exclude action called with the tag "Untagged", or with
    no configuration loaded, leaves the data source, the component state
    and the notifications as they were. *)
Theorem quickExcludeTag_untagged_unchanged (clock : Clock) (tag : string)
    (w : World) :
  tag = "Untagged" ∨ config (view w) = None →
  quickExcludeTag clock tag w = w.
Proof.
  intros [-> | Hnone]; unfold quickExcludeTag.
  - by destruct (config (view w)).
  - by rewrite Hnone.
Qed.

Lemma quickExcludeTag_untagged_unchanged_witness :
  ("Untagged" = "Untagged" ∨ config (view Scenario.goal_linked) = None)
  ∧ quickExcludeTag Scenario.clock "Untagged" Scenario.goal_linked
    = Scenario.goal_linked.
Proof.
  split; [left; reflexivity|].
  apply (quickExcludeTag_untagged_unchanged Scenario.clock "Untagged"
           Scenario.goal_linked).
  left; reflexivity.
Defined.

(** Any other tag, with a configuration loaded, is appended to the
    excluded tags of the stored row. *)
Example quickExcludeTag_rent :
  map row_excluded_tags
    (sys_plugin_emergency_fund_config (db Scenario.rent_excluded))
  = [["rent"]].
Proof. by vm_compute. Qed.

(** ** What the operations leave of the data source *)

Lemma loadConfig_db (w : World) : db (loadConfig w) = db w.
Proof.
  unfold loadConfig. by destruct (sys_plugin_emergency_fund_config (db w)).
Qed.

Lemma loadExpenseBreakdown_db (clock : Clock) (w : World) :
  db (loadExpenseBreakdown clock w) = db w.
Proof.
  unfold loadExpenseBreakdown. destruct (config (view w)) as [cfg|]; [|done].
  by destruct (expense_account_ids cfg).
Qed.

Lemma calculateRunway_db (clock : Clock) (w : World) :
  db (calculateRunway clock w) = db w.
Proof.
  unfold calculateRunway. destruct (config (view w)) as [cfg|]; [|done].
  destruct (resolveTarget _ _ _ _ _) as [t auto].
  rewrite loadExpenseBreakdown_db. by destruct (status _).
Qed.

Lemma loadExpenseBreakdown_config (clock : Clock) (w : World) :
  config (view (loadExpenseBreakdown clock w)) = config (view w).
Proof. by destruct (loadExpenseBreakdown_view clock w) as [l ->]. Qed.

Lemma calculateRunway_config (clock : Clock) (w : World) :
  config (view (calculateRunway clock w)) = config (view w).
Proof.
  unfold calculateRunway. destruct (config (view w)) as [cfg|] eqn:Hcfg; [|done].
  destruct (resolveTarget _ _ _ _ _) as [t auto].
  rewrite loadExpenseBreakdown_config. by destruct (status _).
Qed.

Lemma saved_values_plain (c : option EmergencyFundConfig) (f : Form) :
  plain_form c f = true → fits_columns f →
  saved_values f = Some (form_values f).
Proof.
  unfold plain_form, fits_columns, saved_values, form_values.
  intros ((((Hgoal & Hallocs)%andb_true_iff & Hids)%andb_true_iff
           & Htags)%andb_true_iff & _)%andb_true_iff [Hlookback Htarget].
  rewrite (sql_json_allocations_plain _ Hallocs).
  rewrite (sql_json_strings_plain _ Hids), (sql_json_strings_plain _ Htags).
  rewrite (INTEGER_is_Some _ Hlookback).
  assert ((if truthy_str (formLinkedGoalId f)
           then g ← formLinkedGoalId f; Some <$> sql_literal g
           else Some None)
          = Some (if truthy_str (formLinkedGoalId f)
                  then formLinkedGoalId f else None)) as ->.
  { destruct (formLinkedGoalId f) as [g|]; [|done]. cbn in Hgoal.
    destruct (truthy_str (Some g)); [|done]. cbn.
    by rewrite (sql_literal_plain g Hgoal). }
  destruct (targetMonthsValue f) as [months|]; [|done].
  by rewrite (DECIMAL_is_Some _ _ _ Htarget).
Qed.

(** ** Saving the configuration *)

Lemma saveConfig_accepted (clock : Clock) (w : World)
    (table : list ConfigRow) :
  save_config_table clock (config (view w)) (form (view w))
    (sys_plugin_emergency_fund_config (db w)) = Some table →
  saveConfig clock w
  = toast (toast_success "Settings saved")
      (with_view close_dialogs
         (calculateRunway clock
            (loadConfig (with_db (set_config_table table) w)))).
Proof. intros Htable. unfold saveConfig. by rewrite Htable. Qed.

Lemma saveConfig_rejected (clock : Clock) (w : World) :
  save_config_table clock (config (view w)) (form (view w))
    (sys_plugin_emergency_fund_config (db w)) = None →
  saveConfig clock w = toast (toast_error "Failed to save settings") w.
Proof. intros Htable. unfold saveConfig. by rewrite Htable. Qed.

Lemma saveConfig_table (clock : Clock) (w : World) (table : list ConfigRow) :
  save_config_table clock (config (view w)) (form (view w))
    (sys_plugin_emergency_fund_config (db w)) = Some table →
  sys_plugin_emergency_fund_config (db (saveConfig clock w)) = table.
Proof.
  intros Htable. rewrite (saveConfig_accepted clock w table Htable).
  cbn [toast with_view db]. by rewrite calculateRunway_db, loadConfig_db.
Qed.

Lemma saveConfig_config (clock : Clock) (w : World) (table : list ConfigRow) :
  save_config_table clock (config (view w)) (form (view w))
    (sys_plugin_emergency_fund_config (db w)) = Some table →
  config (view (saveConfig clock w))
  = match table with
    | [] => config (view w)
    | r :: _ => Some (config_of_row r)
    end.
Proof.
  intros Htable. rewrite (saveConfig_accepted clock w table Htable).
  cbn [toast with_view view close_dialogs config].
  rewrite calculateRunway_config. unfold loadConfig.
  cbn [with_db db set_config_table sys_plugin_emergency_fund_config].
  by destruct table.
Qed.

(** The one row a save leaves, on the one stored row or on an empty
    table, when the host reads the form as it is. *)
Lemma save_config_table_plain (clock : Clock) (w : World) :
  config_in_sync w →
  plain_form (config (view w)) (form (view w)) = true →
  fits_columns (form (view w)) →
  save_config_table clock (config (view w)) (form (view w))
    (sys_plugin_emergency_fund_config (db w))
  = Some [saved_row (form_values (form (view w)))
            (match config (view w) with
             | Some cfg => id cfg
             | None => uuid clock
             end)
            (match sys_plugin_emergency_fund_config (db w) with
             | r :: _ => row_created_at r
             | [] => CURRENT_TIMESTAMP clock
             end)
            (CURRENT_TIMESTAMP clock)].
Proof.
  intros Hsync Hplain Hfits. unfold save_config_table.
  rewrite (saved_values_plain _ _ Hplain Hfits). cbn [mbind option_bind].
  unfold config_in_sync in Hsync.
  destruct (config (view w)) as [cfg|].
  - assert (no_apostrophe (id cfg) = true) as Hid.
    { unfold plain_form in Hplain. by apply andb_true_iff in Hplain as [_ ?]. }
    rewrite (sql_literal_plain _ Hid). cbn [mbind option_bind].
    destruct Hsync as (r & -> & Hr). cbn [map].
    destruct (String.eqb_spec (row_id r) (id cfg)); [|done].
    by rewrite Hr.
  - by rewrite Hsync.
Qed.

(** X1: a save with a goal linked in the form and the override flag off,
    which the host reads as it is, leaves the configuration row with a
    NULL [target_months], whatever months value the form holds and
    whatever the row held before; the configuration loaded after the save
    has no target either. *)
Theorem saveConfig_goal_linked_clears_target (clock : Clock) (w : World) :
  truthy_str (formLinkedGoalId (form (view w))) = true →
  formTargetMonthsOverride (form (view w)) = false →
  config_in_sync w →
  plain_form (config (view w)) (form (view w)) = true →
  is_Some (INTEGER (formLookbackMonths (form (view w)))) →
  ∃ row,
    sys_plugin_emergency_fund_config (db (saveConfig clock w)) = [row]
    ∧ row_target_months row = None
    ∧ row_linked_goal_id row = formLinkedGoalId (form (view w))
    ∧ target_months <$> config (view (saveConfig clock w)) = Some None.
Proof.
  intros Hlinked Hoverride Hsync Hplain Hlookback.
  assert (targetMonthsValue (form (view w)) = None) as Htarget.
  { unfold targetMonthsValue. by rewrite Hlinked, Hoverride. }
  assert (fits_columns (form (view w))) as Hfits.
  { unfold fits_columns. by rewrite Htarget. }
  pose proof (save_config_table_plain clock w Hsync Hplain Hfits) as Htable.
  rewrite (saveConfig_table clock w _ Htable).
  rewrite (saveConfig_config clock w _ Htable).
  eexists. split; [done|].
  cbn [saved_row form_values row_target_months row_linked_goal_id
       config_of_row target_months value_target_months value_linked_goal_id
       fmap option_fmap option_map].
  by rewrite Htarget, Hlinked.
Qed.

Lemma saveConfig_goal_linked_clears_target_witness :
  let w := Scenario.override_unticked in
  (truthy_str (formLinkedGoalId (form (view w))) = true
   ∧ formTargetMonthsOverride (form (view w)) = false
   ∧ config_in_sync w
   ∧ plain_form (config (view w)) (form (view w)) = true
   ∧ is_Some (INTEGER (formLookbackMonths (form (view w)))))
  ∧ formTargetMonths (form (view w)) = 9%Z
  ∧ map row_target_months (sys_plugin_emergency_fund_config (db w))
    = [Some (9%Z : Qc)]
  ∧ ∃ row,
      sys_plugin_emergency_fund_config (db (saveConfig Scenario.clock w))
      = [row]
      ∧ row_target_months row = None
      ∧ row_linked_goal_id row = formLinkedGoalId (form (view w))
      ∧ target_months <$> config (view (saveConfig Scenario.clock w))
        = Some None.
Proof.
  intros w.
  assert (truthy_str (formLinkedGoalId (form (view w))) = true) as H1
    by (vm_compute; reflexivity).
  assert (formTargetMonthsOverride (form (view w)) = false) as H2
    by (vm_compute; reflexivity).
  assert (config_in_sync w) as H3.
  { exists Scenario.override_row. split; vm_compute; reflexivity. }
  assert (plain_form (config (view w)) (form (view w)) = true) as H4
    by (vm_compute; reflexivity).
  assert (is_Some (INTEGER (formLookbackMonths (form (view w))))) as H5
    by by_evaluation.
  split; [exact (conj H1 (conj H2 (conj H3 (conj H4 H5))))|].
  split; [vm_compute; reflexivity|]. split; [vm_compute; reflexivity|].
  exact (saveConfig_goal_linked_clears_target Scenario.clock w H1 H2 H3 H4 H5).
Defined.

(** C9: the settings of the override scenario, with a stored target of
    nine months, a goal linked and the override box unticked, and with the
    tag "kid's" among the excluded tags.  The apostrophe ends the literal
    of the [UPDATE] early, the statement is rejected, and the row keeps its
    target of nine months: the save shows an error and changes nothing
    else. *)
Theorem saveConfig_apostrophe_keeps_target :
  let w := Cases.apostrophe_tag in
  truthy_str (formLinkedGoalId (form (view w))) = true
  ∧ formTargetMonthsOverride (form (view w)) = false
  ∧ formExcludedTags (form (view w)) = ["kid's"]
  ∧ map row_target_months (sys_plugin_emergency_fund_config (db w))
    = [Some (9%Z : Qc)]
  ∧ saveConfig Scenario.clock w
    = toast (toast_error "Failed to save settings") w
  ∧ map row_target_months
      (sys_plugin_emergency_fund_config (db (saveConfig Scenario.clock w)))
    = [Some (9%Z : Qc)].
Proof. repeat split; vm_compute; reflexivity. Qed.

(** ** Snapshot upsert *)

Lemma rows_on_cons (d : date) (s : EmergencyFundSnapshot)
    (l : list EmergencyFundSnapshot) :
  rows_on d (s :: l)
  = if (snapshot_date s =? d)%Z then s :: rows_on d l else rows_on d l.
Proof. done. Qed.

Lemma rows_on_other (d : date) (table : list EmergencyFundSnapshot) :
  d ∉ map snapshot_date table → rows_on d table = [].
Proof.
  induction table as [|s l IH]; [done|]. intros Hnot.
  change (map snapshot_date (s :: l))
    with (snapshot_date s :: map snapshot_date l) in Hnot.
  apply not_elem_of_cons in Hnot as [Hne Hl]. rewrite rows_on_cons.
  destruct (Z.eqb_spec (snapshot_date s) d) as [Heq|_]; [done|]. by apply IH.
Qed.

Lemma existsb_date (d : date) (table : list EmergencyFundSnapshot) :
  existsb (λ s, (snapshot_date s =? d)%Z) table = true
  ↔ d ∈ map snapshot_date table.
Proof.
  rewrite existsb_exists. split.
  - intros (s & Hin & Heq). apply Z.eqb_eq in Heq. subst d.
    apply list_elem_of_In, in_map, Hin.
  - intros Hin. apply list_elem_of_In, in_map_iff in Hin as (s & Heq & Hin).
    exists s. split; [done|]. by apply Z.eqb_eq.
Qed.

Section upsert.
Context (today : date) (clock : Clock) (v : SnapshotFigures).

Lemma upsert_snapshot_dates (table : list EmergencyFundSnapshot) :
  map snapshot_date (upsert_snapshot today clock v table)
  = if existsb (λ s, (snapshot_date s =? today)%Z) table
    then map snapshot_date table
    else map snapshot_date table ++ [today].
Proof.
  unfold upsert_snapshot. destruct (existsb _ _).
  - rewrite map_map. apply map_ext. intros s. by destruct (_ =? _)%Z.
  - by rewrite map_app.
Qed.

(** The constraint is kept by an upsert. *)
Lemma upsert_snapshot_unique (table : list EmergencyFundSnapshot) :
  unique_dates table → unique_dates (upsert_snapshot today clock v table).
Proof.
  unfold unique_dates. intros Hnodup. rewrite upsert_snapshot_dates.
  destruct (existsb _ _) eqn:Hex; [done|].
  apply NoDup_app. split; [done|]. split; [|apply NoDup_singleton].
  intros d Hd ->%list_elem_of_singleton.
  apply existsb_date in Hd. congruence.
Qed.

Lemma rows_on_updated (table : list EmergencyFundSnapshot) :
  rows_on today
    (map (λ s, if (snapshot_date s =? today)%Z
               then updated_snapshot v s else s) table)
  = map (updated_snapshot v) (rows_on today table).
Proof.
  induction table as [|s l IH]; [done|].
  cbn [map]. rewrite !rows_on_cons.
  destruct (Z.eqb_spec (snapshot_date s) today) as [Heq|Hne].
  - cbn [updated_snapshot snapshot_date map].
    rewrite (proj2 (Z.eqb_eq _ _) Heq). by rewrite IH.
  - by rewrite (proj2 (Z.eqb_neq _ _) Hne).
Qed.

Lemma rows_on_unique (table : list EmergencyFundSnapshot) :
  unique_dates table → today ∈ map snapshot_date table →
  ∃ s, rows_on today table = [s].
Proof.
  unfold unique_dates. induction table as [|s l IH]; intros Hnodup Hin.
  - by apply elem_of_nil in Hin.
  - change (map snapshot_date (s :: l))
      with (snapshot_date s :: map snapshot_date l) in Hnodup, Hin.
    apply NoDup_cons in Hnodup as [Hnot Hnodup]. rewrite rows_on_cons.
    destruct (Z.eqb_spec (snapshot_date s) today) as [Heq|Hne].
    + exists s. rewrite rows_on_other; [done|]. by rewrite <- Heq.
    + apply IH; [done|]. apply elem_of_cons in Hin as [Heq|Hin];
        [by symmetry in Heq|done].
Qed.

(** After an upsert the date has exactly one row: the existing one
    with the three figures replaced, else the inserted one. *)
Lemma rows_on_upsert (table : list EmergencyFundSnapshot) :
  unique_dates table →
  rows_on today (upsert_snapshot today clock v table)
  = match rows_on today table with
    | [] => [inserted_snapshot today clock v]
    | rows => map (updated_snapshot v) rows
    end
  ∧ length (rows_on today (upsert_snapshot today clock v table)) = 1%nat.
Proof.
  intros Hunique. unfold upsert_snapshot.
  destruct (existsb _ _) eqn:Hex.
  - apply existsb_date in Hex.
    destruct (rows_on_unique table Hunique Hex) as [s Hs].
    by rewrite rows_on_updated, Hs.
  - assert (today ∉ map snapshot_date table) as Hnot.
    { intros Hin. apply existsb_date in Hin. congruence. }
    unfold rows_on at 1 3. rewrite List.filter_app.
    fold (rows_on today table). rewrite rows_on_other by done.
    cbn. by rewrite Z.eqb_refl.
Qed.
End upsert.

Lemma loadSnapshots_db (w : World) : db (loadSnapshots w) = db w.
Proof. done. Qed.

Lemma addSnapshot_table (today : date) (clock : Clock) (w : World)
    (r : RunwayData) (v : SnapshotFigures) :
  runwayData (view w) = Some r → snapshot_figures r = Some v →
  sys_plugin_emergency_fund_snapshots (db (addSnapshot today clock w))
  = upsert_snapshot today clock v (sys_plugin_emergency_fund_snapshots (db w)).
Proof. intros Hr Hv. unfold addSnapshot. by rewrite Hr, Hv. Qed.

Lemma addSnapshot_rejected (today : date) (clock : Clock) (w : World)
    (r : RunwayData) :
  runwayData (view w) = Some r → snapshot_figures r = None →
  addSnapshot today clock w = toast (toast_error "Failed to add snapshot") w.
Proof. intros Hr Hv. unfold addSnapshot. by rewrite Hr, Hv. Qed.

Lemma snapshot_figures_columns (r : RunwayData) (v : SnapshotFigures) :
  snapshot_figures r = Some v →
  DECIMAL 15 2 (fundBalance r) = Some (figure_fund_balance v)
  ∧ DECIMAL 15 2 (monthlyExpenses r) = Some (figure_monthly_expenses v)
  ∧ DECIMAL 4 1 (monthsOfRunway r) = Some (figure_months_of_runway v).
Proof.
  unfold snapshot_figures. intros Hv.
  destruct (DECIMAL 15 2 (fundBalance r)) as [fb|]; [|done].
  destruct (DECIMAL 15 2 (monthlyExpenses r)) as [me|]; [|done].
  destruct (DECIMAL 4 1 (monthsOfRunway r)) as [months|]; [|done].
  cbn in Hv. by injection Hv as <-.
Qed.

(** C8 (as amended): two snapshot upserts on the same calendar date, with
    the snapshot table untouched in between and the figures of the first
    call fitting the columns.  When the figures of the second call fit
    too, the date has exactly one row afterwards; it carries the fund
    balance and the monthly expenses of the second call rounded to two
    decimals and its months of runway rounded to one, and the snapshot id
    and creation instant the row had after the first call.  When they do
    not fit, the second call is rejected: it shows an error and the row
    stays as the first call left it. *)
Theorem addSnapshot_same_date_twice (today : date) (first second : Clock)
    (w between : World) (r1 r2 : RunwayData) :
  unique_dates (sys_plugin_emergency_fund_snapshots (db w)) →
  runwayData (view w) = Some r1 →
  is_Some (snapshot_figures r1) →
  sys_plugin_emergency_fund_snapshots (db between)
  = sys_plugin_emergency_fund_snapshots (db (addSnapshot today first w)) →
  runwayData (view between) = Some r2 →
  ∃ s1,
    rows_on today
      (sys_plugin_emergency_fund_snapshots (db (addSnapshot today first w)))
    = [s1]
    ∧ (is_Some (snapshot_figures r2) →
       ∃ s2,
         rows_on today
           (sys_plugin_emergency_fund_snapshots
              (db (addSnapshot today second between)))
         = [s2]
         ∧ Num <$> DECIMAL 15 2 (fundBalance r2) = Some (fund_balance s2)
         ∧ Num <$> DECIMAL 15 2 (monthlyExpenses r2)
           = Some (monthly_expenses s2)
         ∧ Num <$> DECIMAL 4 1 (monthsOfRunway r2)
           = Some (months_of_runway s2)
         ∧ snapshot_id s2 = snapshot_id s1
         ∧ snapshot_created_at s2 = snapshot_created_at s1)
    ∧ (snapshot_figures r2 = None →
       addSnapshot today second between
       = toast (toast_error "Failed to add snapshot") between
       ∧ rows_on today
           (sys_plugin_emergency_fund_snapshots
              (db (addSnapshot today second between)))
         = [s1])
    ∧ unique_dates
        (sys_plugin_emergency_fund_snapshots
           (db (addSnapshot today second between))).
Proof.
  intros Hunique Hr1 [v1 Hv1] Htable Hr2.
  rewrite (addSnapshot_table today first w r1 v1 Hr1 Hv1) in *.
  pose proof (upsert_snapshot_unique today first v1 _ Hunique) as Hunique1.
  destruct (rows_on_upsert today first v1 _ Hunique) as [_ Hlen1].
  destruct (rows_on today (upsert_snapshot today first v1 _))
    as [|s1 [|? ?]] eqn:Hs1; try done.
  exists s1. split; [done|].
  destruct (snapshot_figures r2) as [v2|] eqn:Hv2.
  - rewrite (addSnapshot_table today second between r2 v2 Hr2 Hv2), Htable.
    destruct (rows_on_upsert today second v2 _ Hunique1) as [Hrows2 _].
    rewrite Hs1 in Hrows2.
    destruct (snapshot_figures_columns r2 v2 Hv2) as (Hfb & Hme & Hmonths).
    split; [|split; [done|by apply upsert_snapshot_unique]].
    intros _. exists (updated_snapshot v2 s1). split; [done|].
    by rewrite Hfb, Hme, Hmonths.
  - rewrite (addSnapshot_rejected today second between r2 Hr2 Hv2).
    cbn [toast db]. rewrite Htable, Hs1.
    split; [by intros [? ?]|]. split; [done|]. done.
Qed.

Lemma addSnapshot_same_date_twice_witness :
  let w := Scenario.evaluated in
  let between := Scenario.food_excluded in
  let r1 := Scenario.result_of w in
  let r2 := Scenario.result_of between in
  (unique_dates (sys_plugin_emergency_fund_snapshots (db w))
   ∧ runwayData (view w) = Some r1
   ∧ is_Some (snapshot_figures r1)
   ∧ sys_plugin_emergency_fund_snapshots (db between)
     = sys_plugin_emergency_fund_snapshots
         (db (addSnapshot 20000 Scenario.clock w))
   ∧ runwayData (view between) = Some r2)
  ∧ is_Some (snapshot_figures r2)
  ∧ monthsOfRunway r2 = Num (50%Z / 11%Z)
  ∧ map months_of_runway
      (rows_on 20000
         (sys_plugin_emergency_fund_snapshots
            (db (addSnapshot 20000 Scenario.later between))))
    = [Num (45%Z / 10%Z)]
  ∧ ∃ s1,
      rows_on 20000
        (sys_plugin_emergency_fund_snapshots
           (db (addSnapshot 20000 Scenario.clock w)))
      = [s1]
      ∧ (is_Some (snapshot_figures r2) →
         ∃ s2,
           rows_on 20000
             (sys_plugin_emergency_fund_snapshots
                (db (addSnapshot 20000 Scenario.later between)))
           = [s2]
           ∧ Num <$> DECIMAL 15 2 (fundBalance r2) = Some (fund_balance s2)
           ∧ Num <$> DECIMAL 15 2 (monthlyExpenses r2)
             = Some (monthly_expenses s2)
           ∧ Num <$> DECIMAL 4 1 (monthsOfRunway r2)
             = Some (months_of_runway s2)
           ∧ snapshot_id s2 = snapshot_id s1
           ∧ snapshot_created_at s2 = snapshot_created_at s1)
      ∧ (snapshot_figures r2 = None →
         addSnapshot 20000 Scenario.later between
         = toast (toast_error "Failed to add snapshot") between
         ∧ rows_on 20000
             (sys_plugin_emergency_fund_snapshots
                (db (addSnapshot 20000 Scenario.later between)))
           = [s1])
      ∧ unique_dates
          (sys_plugin_emergency_fund_snapshots
             (db (addSnapshot 20000 Scenario.later between))).
Proof.
  intros w between r1 r2.
  assert (unique_dates (sys_plugin_emergency_fund_snapshots (db w))) as H1
    by (vm_compute; apply NoDup_nil_2).
  assert (runwayData (view w) = Some r1) as H2 by (vm_compute; reflexivity).
  assert (is_Some (snapshot_figures r1)) as H3 by by_evaluation.
  assert (sys_plugin_emergency_fund_snapshots (db between)
          = sys_plugin_emergency_fund_snapshots
              (db (addSnapshot 20000 Scenario.clock w))) as H4
    by (vm_compute; reflexivity).
  assert (runwayData (view between) = Some r2) as H5
    by (vm_compute; reflexivity).
  split; [exact (conj H1 (conj H2 (conj H3 (conj H4 H5))))|].
  split; [by_evaluation|]. split; [by_evaluation|]. split; [by_evaluation|].
  exact (addSnapshot_same_date_twice 20000 Scenario.clock Scenario.later
           w between r1 r2 H1 H2 H3 H4 H5).
Defined.

(** The claim as stated fails on the columns of the table.  In the
    scenario of the two snapshots the second call has a runway of 50/11
    months and the row holds 4.5; and with a runway of 5000 months the
    second call is rejected, so the row keeps the figures of the first. *)
Lemma second_upsert_not_carried :
  ¬ second_upsert_carried
  ∧ monthsOfRunway (Scenario.result_of Cases.spending_stopped)
    = Num 5000%Z
  ∧ addSnapshot 20000 Scenario.later Cases.spending_stopped
    = toast (toast_error "Failed to add snapshot") Cases.spending_stopped.
Proof.
  split; [|split; vm_compute; reflexivity].
  intros Hclaim.
  destruct (Hclaim 20000%Z Scenario.clock Scenario.later Scenario.evaluated
              Scenario.food_excluded
              (Scenario.result_of Scenario.evaluated)
              (Scenario.result_of Scenario.food_excluded))
    as (s1 & s2 & _ & Hrows & _ & _ & Hmonths & _).
  - vm_compute. apply NoDup_nil_2.
  - vm_compute. reflexivity.
  - vm_compute. reflexivity.
  - vm_compute. reflexivity.
  - assert (map months_of_runway
              (rows_on 20000
                 (sys_plugin_emergency_fund_snapshots
                    (db (addSnapshot 20000 Scenario.later
                           Scenario.food_excluded))))
            ≠ [monthsOfRunway (Scenario.result_of Scenario.food_excluded)])
      as Hne by by_evaluation.
    apply Hne. rewrite Hrows. cbn [map]. by rewrite Hmonths.
Qed.

(** ** The trimmed mean *)

Lemma floor_ceiling (x : Qc) :
  Qc_ceiling x = Qc_floor x ∧ x = Qc_of_Z (Qc_floor x)
  ∨ Qc_ceiling x = (Qc_floor x + 1)%Z.
Proof.
  unfold Qc_ceiling, Qc_floor.
  pose proof (Qfloor_le x) as Hf. pose proof (Qlt_floor x) as Hf'.
  pose proof (Qle_ceiling x) as Hc. pose proof (Qceiling_lt x) as Hc'.
  destruct (decide (Qceiling x = Qfloor x)) as [Heq|Hne].
  - left. split; [done|]. apply Qc_is_canon. unfold Qc_of_Z. simpl.
    rewrite Qred_correct. rewrite Heq in Hc. by apply Qle_antisym.
  - right.
    assert (inject_Z (Qceiling x - 1) < inject_Z (Qfloor x + 1))%Q as Hlt
      by (eapply Qlt_trans; eauto).
    rewrite <- Zlt_Qlt in Hlt.
    assert (inject_Z (Qfloor x) <= inject_Z (Qceiling x))%Q as Hle
      by (eapply Qle_trans; eauto).
    rewrite <- Zle_Qle in Hle. lia.
Qed.

Lemma Qc_of_Z_succ (z : Z) : Qc_of_Z (z + 1) = Qc_of_Z z + 1.
Proof.
  apply Qc_is_canon. unfold Qc_of_Z. simpl.
  rewrite !Qred_correct, inject_Z_plus. reflexivity.
Qed.

(** [PERCENTILE_CONT] is the percentile by linear interpolation between
    ranks. *)
Lemma PERCENTILE_CONT_interpolation (p : Qc) (l : list Qc) :
  PERCENTILE_CONT p l = percentile p l.
Proof.
  unfold PERCENTILE_CONT, percentile. destruct l as [|x0 l']; [done|].
  cbv zeta. set (RN := p * _). set (sorted := merge_sort _ _).
  destruct (floor_ceiling RN) as [[Heq Hwhole]|Hsucc].
  - rewrite decide_True by done. f_equal. rewrite <- Hwhole. ring.
  - rewrite decide_False by lia. f_equal. rewrite Hsucc, Qc_of_Z_succ. ring.
Qed.

Lemma List_filter_decide {A} (f : A → bool) (P : A → Prop)
    `{!∀ x, Decision (P x)} (l : list A) :
  (∀ x, f x = true ↔ P x) → List.filter f l = filter P l.
Proof.
  intros Hf. induction l as [|x l IH]; [done|].
  simpl. rewrite filter_cons, IH.
  destruct (f x) eqn:Hx; case_decide as HP; try done.
  - by apply Hf in Hx.
  - apply Hf in HP. congruence.
Qed.

Lemma filter_BETWEEN (lo hi : Qc) (l : list Qc) :
  List.filter (λ x, BETWEEN x (Some lo) (Some hi)) l = inside lo hi l.
Proof.
  apply List_filter_decide. intros x. unfold BETWEEN.
  rewrite andb_true_iff, !bool_decide_eq_true. done.
Qed.

Lemma percentile_is_Some (p : Qc) (l : list Qc) :
  l ≠ [] → is_Some (percentile p l).
Proof. destruct l; [done|]. intros _. unfold percentile. eauto. Qed.

Lemma AVG_arithmetic_mean (l : list Qc) : AVG l = arithmetic_mean l.
Proof. unfold AVG, arithmetic_mean. by destruct l. Qed.

(** C4 (as amended): for every nonempty set of monthly totals, with the
    10th and the 90th percentile both computed by linear interpolation
    over the full set before any value is discarded, the trimmed-mean
    estimator is the arithmetic mean of the totals inside the inclusive
    interval from the one to the other, whenever at least one total lies
    inside it. *)
Theorem trimmed_mean_of_totals_inside (totals : list Qc) :
  totals ≠ [] →
  ∃ p10 p90 : Qc,
    percentile (1 / 10) totals = Some p10
    ∧ percentile (9 / 10) totals = Some p90
    ∧ (inside p10 p90 totals ≠ [] →
       Some (estimate trimmed_mean totals)
       = Num <$> arithmetic_mean (inside p10 p90 totals)).
Proof.
  intros Hne.
  destruct (percentile_is_Some (1 / 10) totals Hne) as [p10 H10].
  destruct (percentile_is_Some (9 / 10) totals Hne) as [p90 H90].
  exists p10, p90. split; [done|]. split; [done|]. intros Hin.
  unfold estimate, monthly_avg.
  rewrite !PERCENTILE_CONT_interpolation, H10, H90, filter_BETWEEN.
  rewrite AVG_arithmetic_mean, value_or_zero_finite.
  unfold arithmetic_mean. by rewrite decide_False.
Qed.

Lemma trimmed_mean_of_totals_inside_witness :
  let totals : list Qc := [1000%Z : Qc; 1500%Z : Qc; 2000%Z : Qc] in
  totals ≠ []
  ∧ inside 1100%Z 1900%Z totals = [1500%Z : Qc]
  ∧ ∃ p10 p90 : Qc,
      percentile (1 / 10) totals = Some p10
      ∧ percentile (9 / 10) totals = Some p90
      ∧ (inside p10 p90 totals ≠ [] →
         Some (estimate trimmed_mean totals)
         = Num <$> arithmetic_mean (inside p10 p90 totals)).
Proof.
  split; [by_evaluation|]. split; [by_evaluation|].
  apply (trimmed_mean_of_totals_inside
           [1000%Z : Qc; 1500%Z : Qc; 2000%Z : Qc]).
  by_evaluation.
Defined.

Example trimmed_mean_three_months :
  percentile (1 / 10) [1000%Z : Qc; 1500%Z : Qc; 2000%Z : Qc]
  = Some (1100%Z : Qc)
  ∧ percentile (9 / 10) [1000%Z : Qc; 1500%Z : Qc; 2000%Z : Qc]
    = Some (1900%Z : Qc)
  ∧ estimate trimmed_mean [1000%Z : Qc; 1500%Z : Qc; 2000%Z : Qc]
    = Num 1500%Z.
Proof. repeat split; by_evaluation. Qed.

(** With no total inside the interval the query averages no row, and the
    estimate is 0. *)
Lemma trimmed_mean_nothing_inside (totals : list Qc) (p10 p90 : Qc) :
  percentile (1 / 10) totals = Some p10 →
  percentile (9 / 10) totals = Some p90 →
  inside p10 p90 totals = [] →
  estimate trimmed_mean totals = Num 0.
Proof.
  intros H10 H90 Hin. unfold estimate, monthly_avg.
  by rewrite !PERCENTILE_CONT_interpolation, H10, H90, filter_BETWEEN, Hin.
Qed.

(** The claim as stated fails on two distinct monthly totals: the
    percentiles of 1000 and 2000 are 1100 and 1900, no total lies between
    them, there is no mean to take, and the estimate is 0. *)
Lemma trimmed_mean_two_months : ¬ trimmed_mean_is_mean_inside.
Proof.
  intros Hclaim.
  destruct (Hclaim [1000%Z : Qc; 2000%Z : Qc]) as (p10 & p90 & H10 & H90 & H);
    [done|].
  assert (percentile (1 / 10) [1000%Z : Qc; 2000%Z : Qc]
          = Some (1100%Z : Qc)) as E10 by by_evaluation.
  assert (percentile (9 / 10) [1000%Z : Qc; 2000%Z : Qc]
          = Some (1900%Z : Qc)) as E90 by by_evaluation.
  rewrite E10 in H10. rewrite E90 in H90.
  injection H10 as <-. injection H90 as <-.
  assert (inside 1100%Z 1900%Z [1000%Z : Qc; 2000%Z : Qc] = []) as Hin
    by by_evaluation.
  rewrite Hin in H. discriminate H.
Qed.
Lemma Qc_floor_spec (y : Qc) :
  Qc_of_Z (Qc_floor y) ≤ y ∧ y < Qc_of_Z (Qc_floor y) + 1.
Proof.
  unfold Qc_floor, Qcle, Qclt. cbn. rewrite !Qred_correct.
  split; [apply Qfloor_le|].
  pose proof (Qlt_floor y) as H. rewrite inject_Z_plus in H. exact H.
Qed.

Lemma ROUND_1_near (x : Qc) :
  x - 1 / 20%Z ≤ ROUND x 1 ∧ ROUND x 1 ≤ x + 1 / 20%Z.
Proof.
  unfold ROUND. cbv zeta.
  destruct (Qc_floor_spec (Qcabs x * (10 ^ Z.of_nat 1)%Z + 1 / 2)) as [Hlo Hhi].
  set (n := Qc_floor _) in *. clearbody n.
  change (10 ^ Z.of_nat 1)%Z with 10%Z in *.
  assert (1 * / (1 + 1) == 1 # 2)%Q as Ehalf by reflexivity.
  case_decide as Hneg.
  - unfold Qcle, Qclt in *. cbn in *. rewrite ?Qred_correct in *.
    rewrite Qabs.Qabs_neg, Ehalf in Hlo, Hhi by lra.
    rewrite inject_Z_opp.
    change (inject_Z 10) with (10 # 1)%Q in *.
    change (inject_Z 20) with (20 # 1)%Q in *. clear Ehalf.
    change (/ (10 # 1))%Q with (1 # 10)%Q.
    change (/ (20 # 1))%Q with (1 # 20)%Q. lra.
  - unfold Qcle, Qclt in *. cbn in *. rewrite ?Qred_correct in *.
    rewrite Qabs.Qabs_pos, Ehalf in Hlo, Hhi by lra.
    change (inject_Z 10) with (10 # 1)%Q in *.
    change (inject_Z 20) with (20 # 1)%Q in *. clear Ehalf.
    change (/ (10 # 1))%Q with (1 # 10)%Q.
    change (/ (20 # 1))%Q with (1 # 20)%Q. lra.
Qed.

Lemma Qc_sum_Permutation (l l' : list Qc) : l ≡ₚ l' → Qc_sum l = Qc_sum l'.
Proof.
  unfold Qc_sum.
  induction 1 as [|x l l' _ IH|x y l|l l' l'' _ IH1 _ IH2]; cbn [foldr].
  - done.
  - by rewrite IH.
  - ring.
  - congruence.
Qed.

Lemma Qc_sum_near {A} (f g : A → Qc) (l : list A) :
  Forall (λ x, g x - 1 / 20%Z ≤ f x ∧ f x ≤ g x + 1 / 20%Z) l →
  Qc_sum (map g l) - Z.of_nat (length l) / 20%Z ≤ Qc_sum (map f l)
  ∧ Qc_sum (map f l) ≤ Qc_sum (map g l) + Z.of_nat (length l) / 20%Z.
Proof.
  induction 1 as [|x l [Hlo Hhi] _ [IHlo IHhi]].
  - by vm_compute.
  - cbn [map length]. unfold Qc_sum. cbn [foldr].
    fold (Qc_sum (map f l)) (Qc_sum (map g l)).
    rewrite Nat2Z.inj_succ, <- Z.add_1_r, Qc_of_Z_succ.
    generalize dependent (Qc_sum (map f l)).
    generalize dependent (Qc_sum (map g l)).
    generalize dependent (Qc_of_Z (Z.of_nat (length l))).
    generalize dependent (f x). generalize dependent (g x).
    intros gx fx Hlo Hhi n sg sf IHlo IHhi.
    unfold Qcle, Qc_of_Z in *.
    cbn [this Qcplus Qcminus Qcmult Qcdiv Qcopp Qcinv Q2Qc] in *.
    rewrite ?Qred_correct in *.
    change (/ inject_Z 20)%Q with (1 # 20)%Q in *. lra.
Qed.

(** ** The breakdown percentages *)

Lemma Qc_sum_map_plus {A} (f g : A → Qc) (l : list A) :
  Qc_sum (map (λ x, f x + g x) l) = Qc_sum (map f l) + Qc_sum (map g l).
Proof.
  unfold Qc_sum. induction l as [|x l IH]; cbn [map foldr]; [ring|].
  rewrite IH. ring.
Qed.

Lemma Qc_sum_map_scale {A} (f : A → Qc) (c : Qc) (l : list A) :
  Qc_sum (map (λ x, f x * c) l) = Qc_sum (map f l) * c.
Proof.
  unfold Qc_sum. induction l as [|x l IH]; cbn [map foldr]; [ring|].
  rewrite IH. ring.
Qed.

Lemma group_sum_cons (g k : string) (v : Qc) (rows : list (string * Qc)) :
  group_sum g ((k, v) :: rows)
  = (if String.eqb k g then v else 0) + group_sum g rows.
Proof.
  unfold group_sum, Qc_sum. cbn [List.filter fst].
  destruct (String.eqb k g); cbn [map foldr snd]; ring.
Qed.

Lemma Qc_sum_indicator (k : string) (v : Qc) (ks : list string) :
  NoDup ks →
  Qc_sum (map (λ g, if String.eqb k g then v else 0) ks)
  = if decide (k ∈ ks) then v else 0.
Proof.
  unfold Qc_sum. induction 1 as [|g ks Hnot _ IH]; [done|].
  cbn [map foldr]. rewrite IH.
  destruct (String.eqb_spec k g) as [->|Hne].
  - rewrite (decide_False (P := g ∈ ks)) by done.
    rewrite (decide_True (P := g ∈ g :: ks)) by left. ring.
  - destruct (decide (k ∈ ks)) as [Hin|Hin].
    + rewrite (decide_True (P := k ∈ g :: ks)) by (by right). ring.
    + rewrite (decide_False (P := k ∈ g :: ks)); [ring|].
      by intros [?|?]%elem_of_cons.
Qed.

(** Grouping loses nothing: the sums of the groups add up to the sum of
    the rows. *)
Lemma group_sums_total (ks : list string) (rows : list (string * Qc)) :
  NoDup ks → Forall (λ r, r.1 ∈ ks) rows →
  Qc_sum (map (λ g, group_sum g rows) ks) = Qc_sum (map snd rows).
Proof.
  intros Hks. induction 1 as [|[k v] rows Hk _ IH].
  - unfold group_sum, Qc_sum. cbn. induction ks as [|? ? IHks]; [done|].
    apply NoDup_cons in Hks as [_ Hks]. cbn [map foldr]. rewrite IHks by done.
    ring.
  - rewrite (map_ext _ (λ g, (if String.eqb k g then v else 0)
                              + group_sum g rows))
      by (intros; apply group_sum_cons).
    rewrite Qc_sum_map_plus, Qc_sum_indicator, IH by done.
    by rewrite decide_True by done.
Qed.

Lemma Qcabs_negative (x : Qc) : x < 0 → 0 < Qcabs x.
Proof.
  unfold Qclt. cbn. rewrite !Qred_correct. intros Hx.
  rewrite Qabs.Qabs_neg by lra. lra.
Qed.

Lemma Qc_sum_positive (l : list Qc) :
  l ≠ [] → Forall (λ x, 0 < x) l → 0 < Qc_sum l.
Proof.
  intros Hne Hpos. destruct Hpos as [|x l Hx Hl]; [done|]. clear Hne.
  revert x Hx. induction Hl as [|y l Hy _ IH]; intros x Hx.
  - unfold Qc_sum. cbn [foldr]. by replace (x + 0) with x by ring.
  - specialize (IH y Hy). unfold Qc_sum in *. cbn [foldr] in *.
    generalize dependent (foldr Qcplus 0 l). intros s IH.
    unfold Qclt in *. cbn [this Qcplus Q2Qc] in *.
    rewrite ?Qred_correct in *. lra.
Qed.

Lemma expense_rows_outflow (db : Database) (clock : Clock)
    (cfg : EmergencyFundConfig) :
  Forall (λ t, tx_amount t < 0) (expense_rows db clock cfg).
Proof.
  apply Forall_forall. intros t Hin.
  apply list_elem_of_In, filter_In in Hin as [_ Hwhere].
  unfold expense_where in Hwhere.
  apply andb_true_iff in Hwhere as [Hwhere _].
  apply andb_true_iff in Hwhere as [Hwhere _].
  apply andb_true_iff in Hwhere as [Hamount _].
  by apply bool_decide_eq_true_1 in Hamount.
Qed.

Lemma tagged_expenses_positive (db : Database) (clock : Clock)
    (cfg : EmergencyFundConfig) :
  Forall (λ r, 0 < r.2) (tagged_expenses db clock cfg).
Proof.
  unfold tagged_expenses.
  induction (expense_rows_outflow db clock cfg) as [|t l Ht _ IH]; [done|].
  cbn [flat_map]. apply Forall_app. split; [|done].
  apply Forall_forall. intros r Hr.
  apply list_elem_of_fmap in Hr as (g & -> & _). by apply Qcabs_negative.
Qed.

Lemma tagged_expenses_nonempty (db : Database) (clock : Clock)
    (cfg : EmergencyFundConfig) :
  Exists (λ t, tags t ≠ []) (expense_rows db clock cfg) →
  tagged_expenses db clock cfg ≠ [].
Proof.
  unfold tagged_expenses.
  induction 1 as [t l Ht|t l _ IH]; cbn [flat_map]; intros Hnil;
    apply app_eq_nil in Hnil as [Hhere Hrest].
  - by apply fmap_nil_inv in Hhere.
  - by apply IH.
Qed.

Lemma grand_total_positive (db : Database) (clock : Clock)
    (cfg : EmergencyFundConfig) :
  tagged_expenses db clock cfg ≠ [] →
  0 < Qc_sum (map snd (tagged_expenses db clock cfg)).
Proof.
  intros Hne. apply Qc_sum_positive.
  - intros Hnil. by apply fmap_nil_inv in Hnil.
  - apply Forall_fmap. apply tagged_expenses_positive.
Qed.

(** With one tag on every included transaction there is one per-tag row
    for each of them, so the grand total of the rows is the total of the
    included amounts. *)
Lemma tagged_expenses_single (db : Database) (clock : Clock)
    (cfg : EmergencyFundConfig) :
  Forall (λ t, length (tags t) = 1%nat) (expense_rows db clock cfg) →
  map snd (tagged_expenses db clock cfg)
  = map (λ t, Qcabs (tx_amount t)) (expense_rows db clock cfg).
Proof.
  unfold tagged_expenses.
  induction 1 as [|t l Ht _ IH]; [done|].
  cbn [flat_map map]. rewrite map_app, IH.
  destruct (tags t) as [|g [|? ?]]; done.
Qed.

Lemma tag_shares_total (rows : list (string * Qc)) :
  Qc_sum (map snd rows) ≠ 0 →
  Qc_sum (map (tag_share rows) (remove_dups (map fst rows))) = 100%Z.
Proof.
  intros Hne. unfold tag_share.
  rewrite (Qc_sum_map_scale (λ g, group_sum g rows / Qc_sum (map snd rows))).
  unfold Qcdiv.
  rewrite (Qc_sum_map_scale (λ g, group_sum g rows)).
  rewrite group_sums_total.
  - field. done.
  - apply NoDup_remove_dups.
  - apply Forall_forall. intros r Hr. apply elem_of_remove_dups.
    apply list_elem_of_fmap. by exists r.
Qed.

Lemma breakdown_query_Permutation (db : Database) (clock : Clock)
    (cfg : EmergencyFundConfig) :
  breakdown_query db clock cfg
  ≡ₚ map (breakdown_row cfg (tagged_expenses db clock cfg))
       (remove_dups (map fst (tagged_expenses db clock cfg))).
Proof. unfold breakdown_query. apply merge_sort_Permutation. Qed.

(** Whenever the per-tag rows are not empty, the shares of the tags in
    their grand total sum to exactly 100; each reported percentage is the
    share of its tag rounded to one decimal, so the reported percentages
    sum to 100 within 0.05 per tag entry. *)
Lemma breakdown_shares (db : Database) (clock : Clock)
    (cfg : EmergencyFundConfig) :
  tagged_expenses db clock cfg ≠ [] →
  let rows := tagged_expenses db clock cfg in
  let entries := breakdown_query db clock cfg in
  Qc_sum (map (λ e, tag_share rows (tag e)) entries) = 100%Z
  ∧ Forall (λ e, percent e = ROUND (tag_share rows (tag e)) 1) entries
  ∧ 100%Z - Z.of_nat (length entries) / 20%Z ≤ percent_total entries
  ∧ percent_total entries ≤ 100%Z + Z.of_nat (length entries) / 20%Z.
Proof.
  intros Hne rows entries.
  pose proof (breakdown_query_Permutation db clock cfg) as Hperm.
  fold rows entries in Hperm.
  assert (Qc_sum (map (λ e, tag_share rows (tag e)) entries) = 100%Z) as Hsum.
  { rewrite (Qc_sum_Permutation _ _
               (Permutation_map (λ e, tag_share rows (tag e)) Hperm)).
    rewrite map_map. cbn [breakdown_row tag].
    apply tag_shares_total.
    pose proof (grand_total_positive db clock cfg Hne) as Hpos.
    intros Hzero. fold rows in Hpos. rewrite Hzero in Hpos.
    by apply Qclt_not_eq in Hpos. }
  assert (Forall (λ e, percent e = ROUND (tag_share rows (tag e)) 1) entries)
    as Hround.
  { rewrite Hperm. apply Forall_fmap, Forall_forall. by intros g _. }
  split; [done|]. split; [done|].
  rewrite <- Hsum. unfold percent_total. apply Qc_sum_near.
  eapply Forall_impl; [exact Hround|].
  intros e ->. apply ROUND_1_near.
Qed.

(** C6 (as amended): when at least one transaction is included and every
    included transaction carries exactly one tag, the grand total the
    shares are taken of is the total of the included amounts, the shares
    of the tags sum to exactly 100, and each reported percentage is the
    share of its tag rounded to one decimal: the reported percentages sum
    to 100 within 0.05 per tag entry, not always to exactly 100. *)
Theorem breakdown_percentages_sum (db : Database) (clock : Clock)
    (cfg : EmergencyFundConfig) :
  expense_rows db clock cfg ≠ [] →
  Forall (λ t, length (tags t) = 1%nat) (expense_rows db clock cfg) →
  let rows := tagged_expenses db clock cfg in
  let entries := breakdown_query db clock cfg in
  Qc_sum (map snd rows)
  = Qc_sum (map (λ t, Qcabs (tx_amount t)) (expense_rows db clock cfg))
  ∧ Qc_sum (map (λ e, tag_share rows (tag e)) entries) = 100%Z
  ∧ Forall (λ e, percent e = ROUND (tag_share rows (tag e)) 1) entries
  ∧ 100%Z - Z.of_nat (length entries) / 20%Z ≤ percent_total entries
  ∧ percent_total entries ≤ 100%Z + Z.of_nat (length entries) / 20%Z.
Proof.
  intros Hne Hsingle rows entries.
  split; [subst rows; by rewrite tagged_expenses_single|].
  apply breakdown_shares, tagged_expenses_nonempty.
  destruct Hsingle as [|t l Ht _]; [done|].
  left. by destruct (tags t).
Qed.

Lemma breakdown_percentages_sum_witness :
  let db := Scenario.three_tags in
  let cfg := config_of_row (Scenario.manual_row 5000) in
  let rows := tagged_expenses db Scenario.clock cfg in
  let entries := breakdown_query db Scenario.clock cfg in
  (expense_rows db Scenario.clock cfg ≠ []
   ∧ Forall (λ t, length (tags t) = 1%nat) (expense_rows db Scenario.clock cfg))
  ∧ percent_total entries = 999%Z / 10%Z
  ∧ Qc_sum (map snd rows)
    = Qc_sum (map (λ t, Qcabs (tx_amount t)) (expense_rows db Scenario.clock cfg))
  ∧ Qc_sum (map (λ e, tag_share rows (tag e)) entries) = 100%Z
  ∧ Forall (λ e, percent e = ROUND (tag_share rows (tag e)) 1) entries
  ∧ 100%Z - Z.of_nat (length entries) / 20%Z ≤ percent_total entries
  ∧ percent_total entries ≤ 100%Z + Z.of_nat (length entries) / 20%Z.
Proof.
  intros db cfg rows entries.
  assert (expense_rows db Scenario.clock cfg ≠ []) as H1 by by_evaluation.
  assert (Forall (λ t, length (tags t) = 1%nat)
            (expense_rows db Scenario.clock cfg)) as H2 by by_evaluation.
  split; [exact (conj H1 H2)|]. split; [by_evaluation|].
  exact (breakdown_percentages_sum db Scenario.clock cfg H1 H2).
Defined.

(** The claim as stated fails on rounding where every included
    transaction carries exactly one tag: three outflows of 10 under three
    tags are reported as 33.3 each, 99.9 in all. *)
Lemma breakdown_percentages_below_100 : ¬ percentages_reach_100.
Proof.
  intros Hclaim.
  destruct (Hclaim Scenario.three_tags Scenario.clock
              (config_of_row (Scenario.manual_row 5000))) as [_ Hexact].
  assert (percent_total
            (breakdown_query Scenario.three_tags Scenario.clock
               (config_of_row (Scenario.manual_row 5000)))
          ≠ 100%Z) as Hne by by_evaluation.
  apply Hne, Hexact; by_evaluation.
Qed.

(** A transaction that carries no tag has no row among the per-tag rows:
    spending without tags is left out of the breakdown. *)
Example breakdown_without_tags :
  let cfg := config_of_row (Scenario.manual_row 5000) in
  let db := Scenario.with_transactions
              [Scenario.outflow 19990 10 ["a"]; Scenario.outflow 19990 30 []] in
  length (expense_rows db Scenario.clock cfg) = 2%nat
  ∧ map tag (breakdown_query db Scenario.clock cfg) = ["a"]
  ∧ map percent (breakdown_query db Scenario.clock cfg) = [100%Z : Qc].
Proof. repeat split; by_evaluation. Qed.

(** ** Further properties of the allocation resolver *)

Lemma contribution_in_range (balances : gmap string Qc)
    (rule : FundAllocation) :
  rule_in_range balances rule →
  0 ≤ contribution balances rule
  ∧ contribution balances rule ≤ balance_of balances (account_id rule).
Proof.
  intros (Hb & Hv & Hpct). unfold contribution. cbv zeta.
  generalize dependent (balance_of balances (account_id rule)). intros b Hb.
  destruct (allocation_type rule).
  - specialize (Hpct eq_refl).
    generalize dependent (allocation_value rule). intros v Hv Hpct.
    Qc_to_Q. change (/ inject_Z 100)%Q with (1 # 100)%Q.
    change (inject_Z 100) with (100 # 1)%Q in *. split; nra.
  - unfold Qc_min. by case_decide.
Qed.

Lemma Qc_sum_between {A} (f g : A → Qc) (l : list A) :
  Forall (λ x, 0 ≤ f x ∧ f x ≤ g x) l →
  0 ≤ Qc_sum (map f l) ∧ Qc_sum (map f l) ≤ Qc_sum (map g l).
Proof.
  induction 1 as [|x l [Hlo Hhi] _ [IHlo IHhi]]; [done|].
  cbn [map]. unfold Qc_sum. cbn [foldr].
  fold (Qc_sum (map f l)) (Qc_sum (map g l)).
  generalize dependent (Qc_sum (map f l)).
  generalize dependent (Qc_sum (map g l)).
  generalize dependent (f x). generalize dependent (g x).
  intros gx fx Hlo Hhi sg sf IHlo IHhi. Qc_to_Q. lra.
Qed.



(** ** Further properties of the expense estimator *)

Lemma merge_sort_Permutation_eq (l l' : list Qc) :
  l ≡ₚ l' → merge_sort Qcle l = merge_sort Qcle l'.
Proof.
  intros Hperm. apply (Sorted_unique Qcle).
  - apply Sorted_merge_sort, _.
  - apply Sorted_merge_sort, _.
  - by rewrite !merge_sort_Permutation.
Qed.

Lemma Qc_of_Z_le (a b : Z) : (a ≤ b)%Z → Qc_of_Z a ≤ Qc_of_Z b.
Proof. intros H. Qc_to_Q. by rewrite Zle_Qle in H. Qed.

Lemma Qc_of_Z_nonneg (a : Z) : (0 ≤ a)%Z → 0 ≤ Qc_of_Z a.
Proof. intros H. apply (Qc_of_Z_le 0 a H). Qed.

(** The two ranks the interpolation reads lie inside the sorted list when
    the fraction is between 0 and 1. *)
Lemma rank_in_range (p : Qc) (n : nat) :
  0 ≤ p → p ≤ 1 → (0 < n)%nat →
  let RN : Qc := p * (Z.of_nat n - 1)%Z in
  (0 ≤ Qc_floor RN)%Z ∧ (Qc_ceiling RN < Z.of_nat n)%Z
  ∧ (Qc_floor RN ≤ Qc_ceiling RN)%Z.
Proof.
  intros Hp0 Hp1 Hn RN.
  assert (0 ≤ Qc_of_Z (Z.of_nat n - 1)) as Hm by (apply Qc_of_Z_nonneg; lia).
  assert (0 ≤ RN ∧ RN ≤ Qc_of_Z (Z.of_nat n - 1)) as [Hlo Hhi].
  { subst RN. generalize dependent (Qc_of_Z (Z.of_nat n - 1)). intros m Hm.
    Qc_to_Q. split; nra. }
  clearbody RN.
  assert (Qc_floor RN ≤ Qc_ceiling RN)%Z as Hfc
    by (destruct (floor_ceiling RN) as [[? _]|?]; lia).
  unfold Qc_floor, Qc_ceiling in *.
  split; [|split]; [| |done].
  - change 0%Z with (Qfloor (inject_Z 0)). apply Qfloor_resp_le.
    unfold Qcle in Hlo. exact Hlo.
  - assert (Qceiling RN ≤ Z.of_nat n - 1)%Z; [|lia].
    rewrite <- (Qceiling_Z (Z.of_nat n - 1)). apply Qceiling_resp_le.
    clear Hm Hlo. Qc_to_Q. exact Hhi.
Qed.

Lemma PERCENTILE_CONT_Permutation (p : Qc) (l l' : list Qc) :
  0 ≤ p → p ≤ 1 → l ≡ₚ l' → PERCENTILE_CONT p l = PERCENTILE_CONT p l'.
Proof.
  intros Hp0 Hp1 Hperm. unfold PERCENTILE_CONT.
  destruct l as [|x0 l0] eqn:El.
  { apply Permutation_nil in Hperm. by subst. }
  destruct l' as [|x0' l0'] eqn:El'.
  { by apply Permutation_nil_r in Hperm. }
  rewrite <- El, <- El' in *. cbv zeta.
  rewrite <- (merge_sort_Permutation_eq l l' Hperm).
  rewrite <- (Permutation_length Hperm).
  destruct (rank_in_range p (length l) Hp0 Hp1) as (Hf & Hc & Hfc).
  { rewrite El. cbn. lia. }
  cbv zeta in Hf, Hc, Hfc.
  assert (length (merge_sort Qcle l) = length l) as Hlen
    by (apply Permutation_length, merge_sort_Permutation).
  set (RN := p * _) in *.
  by rewrite !(nth_indep (merge_sort Qcle l) x0 x0') by lia.
Qed.

Lemma List_filter_Permutation {A} (f : A → bool) (l l' : list A) :
  l ≡ₚ l' → List.filter f l ≡ₚ List.filter f l'.
Proof.
  induction 1 as [|x l l' _ IH|x y l|l l' l'' _ IH1 _ IH2]; simpl.
  - done.
  - destruct (f x); [by constructor|done].
  - destruct (f x), (f y); try done. apply perm_swap.
  - by etrans.
Qed.

Lemma AVG_Permutation (l l' : list Qc) : l ≡ₚ l' → AVG l = AVG l'.
Proof.
  intros Hperm. unfold AVG.
  destruct l as [|x l0] eqn:El.
  { apply Permutation_nil in Hperm. by subst. }
  destruct l' as [|x' l0'] eqn:El'.
  { by apply Permutation_nil_r in Hperm. }
  rewrite <- El, <- El' in *.
  by rewrite (Qc_sum_Permutation l l' Hperm), (Permutation_length Hperm).
Qed.

(** X4: the estimate depends on the monthly totals as a collection only: the
    order in which the query returns the months does not matter. *)
Theorem estimate_Permutation (method : CalculationMethod)
    (totals totals' : list Qc) :
  totals ≡ₚ totals' → estimate method totals = estimate method totals'.
Proof.
  intros Hperm. unfold estimate. f_equal. destruct method; cbn [monthly_avg].
  - by apply AVG_Permutation.
  - by apply PERCENTILE_CONT_Permutation.
  - rewrite <- (PERCENTILE_CONT_Permutation (1 / 10) totals totals') by done.
    rewrite <- (PERCENTILE_CONT_Permutation (9 / 10) totals totals') by done.
    by apply AVG_Permutation, List_filter_Permutation.
Qed.

Lemma estimate_Permutation_witness :
  let totals : list Qc := [1000%Z : Qc; 1200%Z : Qc; 800%Z : Qc; 4000%Z : Qc] in
  let totals' : list Qc := [4000%Z : Qc; 800%Z : Qc; 1000%Z : Qc; 1200%Z : Qc] in
  totals ≡ₚ totals'
  ∧ estimate trimmed_mean totals = estimate trimmed_mean totals'.
Proof.
  intros totals totals'. split; [by_evaluation|].
  apply (estimate_Permutation trimmed_mean totals totals'). by_evaluation.
Defined.

Lemma Qc_sum_scaled_bounds (l : list Qc) (lo hi : Qc) :
  Forall (λ x, lo ≤ x ∧ x ≤ hi) l →
  Qc_of_Z (Z.of_nat (length l)) * lo ≤ Qc_sum l
  ∧ Qc_sum l ≤ Qc_of_Z (Z.of_nat (length l)) * hi.
Proof.
  induction 1 as [|x l [Hlo Hhi] _ [IHlo IHhi]].
  - by vm_compute.
  - cbn [length]. unfold Qc_sum. cbn [foldr]. fold (Qc_sum l).
    rewrite Nat2Z.inj_succ, <- Z.add_1_r, Qc_of_Z_succ.
    generalize dependent (Qc_sum l).
    generalize dependent (Qc_of_Z (Z.of_nat (length l))).
    intros n s IHlo IHhi. Qc_to_Q. split; nra.
Qed.

Lemma AVG_between (l : list Qc) (lo hi : Qc) :
  l ≠ [] → Forall (λ x, lo ≤ x ∧ x ≤ hi) l →
  ∃ m, AVG l = Some m ∧ lo ≤ m ∧ m ≤ hi.
Proof.
  intros Hne Hall. destruct (Qc_sum_scaled_bounds l lo hi Hall) as [Hlo Hhi].
  assert (0 < Qc_of_Z (Z.of_nat (length l))) as Hn.
  { destruct l; [done|]. cbn [length]. unfold Qclt, Qc_of_Z. cbn [this Q2Qc].
    rewrite !Qred_correct. change 0%Q with (inject_Z 0).
    rewrite <- Zlt_Qlt. lia. }
  unfold AVG. destruct l as [|x l0] eqn:El; [done|]. rewrite <- El in *.
  eexists. split; [done|].
  generalize dependent (Qc_sum l).
  generalize dependent (Qc_of_Z (Z.of_nat (length l))).
  intros n Hn s Hlo Hhi. Qc_to_Q. split.
  - apply Qle_shift_div_l; [done|]. lra.
  - apply Qle_shift_div_r; [done|]. lra.
Qed.

Lemma PERCENTILE_CONT_between (p : Qc) (l : list Qc) (lo hi : Qc) :
  l ≠ [] → Forall (λ x, lo ≤ x ∧ x ≤ hi) l →
  ∃ v, PERCENTILE_CONT p l = Some v ∧ lo ≤ v ∧ v ≤ hi.
Proof.
  intros Hne Hall. unfold PERCENTILE_CONT.
  destruct l as [|x0 l0] eqn:El; [done|]. rewrite <- El in *. cbv zeta.
  assert (∀ i, lo ≤ nth i (merge_sort Qcle l) x0
               ∧ nth i (merge_sort Qcle l) x0 ≤ hi) as Hnth.
  { intros i. rewrite Forall_forall in Hall. apply Hall.
    destruct (nth_in_or_default i (merge_sort Qcle l) x0) as [Hin| ->].
    - apply list_elem_of_In in Hin.
      eapply elem_of_Permutation_proper; [|exact Hin].
      symmetry. apply merge_sort_Permutation.
    - rewrite El. left. }
  set (RN := p * _). set (sorted := merge_sort _ _) in *.
  destruct (floor_ceiling RN) as [[Heq _]|Hsucc].
  - rewrite decide_True by done. eexists. split; [done|]. apply Hnth.
  - rewrite decide_False by lia. eexists. split; [done|].
    destruct (Qc_floor_spec RN) as [Hf Hf'].
    rewrite Hsucc, Qc_of_Z_succ.
    destruct (Hnth (Z.to_nat (Qc_floor RN))) as [Ha1 Ha2].
    destruct (Hnth (Z.to_nat (Qc_floor RN + 1))) as [Hb1 Hb2].
    generalize dependent (nth (Z.to_nat (Qc_floor RN)) sorted x0).
    generalize dependent (nth (Z.to_nat (Qc_floor RN + 1)) sorted x0).
    generalize dependent (Qc_of_Z (Qc_floor RN)). clearbody RN.
    intros f Hf Hf' b Hb1 Hb2 a Ha1 Ha2. clear Hnth Hall.
    Qc_to_Q. split; nra.
Qed.

Lemma Forall_List_filter {A} (P : A → Prop) (f : A → bool) (l : list A) :
  Forall P l → Forall P (List.filter f l).
Proof.
  induction 1 as [|x l Hx _ IH]; simpl; [done|].
  destruct (f x); [by constructor|done].
Qed.

Lemma monthly_avg_between (method : CalculationMethod) (totals : list Qc)
    (lo hi : Qc) :
  totals ≠ [] → Forall (λ x, lo ≤ x ∧ x ≤ hi) totals →
  match monthly_avg method totals with
  | Some e => lo ≤ e ∧ e ≤ hi
  | None => method = trimmed_mean
  end.
Proof.
  intros Hne Hall. destruct method; cbn [monthly_avg].
  - by destruct (AVG_between totals lo hi Hne Hall) as (m & -> & Hm).
  - by destruct (PERCENTILE_CONT_between (1 / 2) totals lo hi Hne Hall)
      as (v & -> & Hv).
  - match goal with |- context [AVG ?l] => destruct l as [|x kept] eqn:Hkept end.
    + done.
    + rewrite <- Hkept.
      by destruct (AVG_between (List.filter
                  (λ total, BETWEEN total (PERCENTILE_CONT (1 / 10) totals)
                              (PERCENTILE_CONT (9 / 10) totals)) totals) lo hi)
        as (m & -> & Hm); [by rewrite Hkept|by apply Forall_List_filter|].
Qed.

(** X5: every estimator stays between any two bounds that hold all the
    monthly totals; the trimmed mean alone may instead fall to 0, when no
    total lies between its two percentiles. *)
Theorem estimate_between (method : CalculationMethod) (totals : list Qc)
    (lo hi : Qc) :
  totals ≠ [] → Forall (λ x, lo ≤ x ∧ x ≤ hi) totals →
  ∃ e : Qc,
    estimate method totals = Num e
    ∧ ((lo ≤ e ∧ e ≤ hi) ∨ (method = trimmed_mean ∧ e = 0)).
Proof.
  intros Hne Hall. unfold estimate. rewrite value_or_zero_finite.
  eexists. split; [done|].
  pose proof (monthly_avg_between method totals lo hi Hne Hall) as Hb.
  destruct (monthly_avg method totals); [by left|by right].
Qed.

Lemma estimate_between_witness :
  let totals : list Qc := [1000%Z : Qc; 1200%Z : Qc; 800%Z : Qc] in
  (totals ≠ [] ∧ Forall (λ x, 800%Z ≤ x ∧ x ≤ 1200%Z) totals)
  ∧ ∃ e : Qc,
      estimate median totals = Num e
      ∧ ((800%Z ≤ e ∧ e ≤ 1200%Z) ∨ (median = trimmed_mean ∧ e = 0)).
Proof.
  intros totals. split; [split; by_evaluation|].
  apply (estimate_between median totals 800%Z 1200%Z); by_evaluation.
Defined.

(** X6: when every monthly total is the same amount, the mean, the median
    and the trimmed mean all return that amount. *)
Theorem estimate_equal_totals (method : CalculationMethod) (totals : list Qc)
    (c : Qc) :
  totals ≠ [] → Forall (λ x, x = c) totals → estimate method totals = Num c.
Proof.
  intros Hne Hall.
  assert (Forall (λ x, c ≤ x ∧ x ≤ c) totals) as Hbounds.
  { eapply Forall_impl; [exact Hall|]. by intros x ->. }
  assert (∀ e, c ≤ e ∧ e ≤ c → e = c) as Hanti.
  { intros e [H1 H2]. by apply Qcle_antisym. }
  unfold estimate. rewrite value_or_zero_finite. f_equal.
  destruct method; cbn [monthly_avg].
  - destruct (AVG_between totals c c Hne Hbounds) as (m & -> & Hm).
    by apply Hanti.
  - destruct (PERCENTILE_CONT_between (1 / 2) totals c c Hne Hbounds)
      as (v & -> & Hv). by apply Hanti.
  - destruct (PERCENTILE_CONT_between (1 / 10) totals c c Hne Hbounds)
      as (p10 & -> & ->%Hanti).
    destruct (PERCENTILE_CONT_between (9 / 10) totals c c Hne Hbounds)
      as (p90 & -> & ->%Hanti).
    assert (List.filter (λ total, BETWEEN total (Some c) (Some c)) totals
            = totals) as ->.
    { clear Hne Hbounds. induction Hall as [|x l -> _ IH]; [done|].
      simpl. rewrite !bool_decide_eq_true_2 by done. simpl. f_equal.
      exact IH. }
    destruct (AVG_between totals c c Hne Hbounds) as (m & -> & Hm).
    by apply Hanti.
Qed.

Lemma estimate_equal_totals_witness :
  let totals : list Qc := [1500%Z : Qc; 1500%Z : Qc] in
  (totals ≠ [] ∧ Forall (λ x, x = (1500%Z : Qc)) totals)
  ∧ estimate trimmed_mean totals = Num 1500%Z.
Proof.
  intros totals. split; [split; by_evaluation|].
  apply (estimate_equal_totals trimmed_mean totals 1500%Z); by_evaluation.
Defined.

(** ** Monthly totals *)

Lemma Qc_sum_indicator_key {K} `{EqDecision K} (k : K) (v : Qc) (ks : list K) :
  NoDup ks →
  Qc_sum (map (λ g, if bool_decide (k = g) then v else 0) ks)
  = if decide (k ∈ ks) then v else 0.
Proof.
  unfold Qc_sum. induction 1 as [|g ks Hnot _ IH]; [done|].
  cbn [map foldr]. rewrite IH.
  case_bool_decide as Hkg.
  - subst g. rewrite (decide_False (P := k ∈ ks)) by done.
    rewrite (decide_True (P := k ∈ k :: ks)) by left. ring.
  - destruct (decide (k ∈ ks)) as [Hin|Hin].
    + rewrite (decide_True (P := k ∈ g :: ks)) by (by right). ring.
    + rewrite (decide_False (P := k ∈ g :: ks)); [ring|].
      by intros [?|?]%elem_of_cons.
Qed.

(** Grouping by a key loses nothing. *)
Lemma Qc_sum_grouped {A K} `{EqDecision K} (key : A → K) (val : A → Qc)
    (ks : list K) (l : list A) :
  NoDup ks → Forall (λ x, key x ∈ ks) l →
  Qc_sum (map (λ g, Qc_sum (map val
                              (List.filter (λ x, bool_decide (key x = g)) l)))
            ks)
  = Qc_sum (map val l).
Proof.
  intros Hks. induction 1 as [|x l Hx _ IH].
  - cbn [List.filter map]. clear Hks.
    induction ks as [|? ? IHks]; [done|].
    unfold Qc_sum in *. cbn [map foldr] in *. rewrite IHks. ring.
  - rewrite (map_ext _ (λ g, (if bool_decide (key x = g) then val x else 0)
                             + Qc_sum (map val
                                 (List.filter (λ y, bool_decide (key y = g)) l)))).
    + rewrite Qc_sum_map_plus, Qc_sum_indicator_key, IH by done.
      rewrite decide_True by done. unfold Qc_sum. by cbn [map foldr].
    + intros g. cbn [List.filter]. destruct (bool_decide (key x = g)).
      * unfold Qc_sum. by cbn [map foldr].
      * ring.
Qed.

Lemma monthly_totals_positive (db : Database) (clock : Clock)
    (cfg : EmergencyFundConfig) :
  Forall (λ row, 0 < row.2) (monthly_totals db clock cfg).
Proof.
  unfold monthly_totals. cbv zeta.
  set (included := expense_rows db clock cfg).
  apply Forall_fmap, Forall_forall. intros m Hm. cbn [snd].
  apply elem_of_remove_dups, list_elem_of_fmap in Hm as (t & -> & Ht).
  apply Qc_sum_positive.
  - intros Hnil. apply fmap_nil_inv in Hnil.
    assert (t ∈ List.filter
              (λ t0, bool_decide (month_of clock (transaction_date t0)
                                  = month_of clock (transaction_date t)))
              included) as Hin.
    { apply list_elem_of_In, filter_In. split; [by apply list_elem_of_In|].
      by apply bool_decide_eq_true_2. }
    rewrite Hnil in Hin. by apply elem_of_nil in Hin.
  - apply Forall_fmap, Forall_List_filter.
    eapply Forall_impl; [apply expense_rows_outflow|].
    intros t' Ht'. by apply Qcabs_negative.
Qed.

(** X7: the monthly totals: one row per month that has an included
    transaction, each total positive, and together the sum of the absolute
    amounts of the included transactions. *)
Theorem monthly_totals_partition (db : Database) (clock : Clock)
    (cfg : EmergencyFundConfig) :
  let included := expense_rows db clock cfg in
  let totals := monthly_totals db clock cfg in
  NoDup (map fst totals)
  ∧ (∀ m, m ∈ map fst totals
          ↔ ∃ t, t ∈ included ∧ month_of clock (transaction_date t) = m)
  ∧ Forall (λ row, 0 < row.2) totals
  ∧ Qc_sum (map snd totals)
    = Qc_sum (map (λ t, Qcabs (tx_amount t)) included).
Proof.
  intros included totals.
  split; [|split; [|split; [apply monthly_totals_positive|]]];
    subst totals; unfold monthly_totals; fold included; cbv zeta;
    rewrite !map_map; cbn [fst snd]; rewrite ?map_id.
  - apply NoDup_remove_dups.
  - intros m. rewrite elem_of_remove_dups. split.
    + intros (t & -> & Ht)%list_elem_of_fmap. by exists t.
    + intros (t & Ht & <-). apply list_elem_of_fmap. by exists t.
  - apply (Qc_sum_grouped (λ t, month_of clock (transaction_date t))
             (λ t, Qcabs (tx_amount t))); [apply NoDup_remove_dups|].
    apply Forall_forall. intros t Ht. apply elem_of_remove_dups.
    apply list_elem_of_fmap. by exists t.
Qed.

Lemma list_bounds_positive (l : list Qc) :
  l ≠ [] → Forall (λ x, 0 < x) l →
  ∃ lo hi : Qc, 0 < lo ∧ Forall (λ x, lo ≤ x ∧ x ≤ hi) l.
Proof.
  intros Hne Hpos. destruct Hpos as [|x l Hx Hl]; [done|]. clear Hne.
  revert x Hx. induction Hl as [|y l Hy _ IH]; intros x Hx.
  - exists x, x. split; [done|]. by repeat constructor.
  - destruct (IH y Hy) as (lo & hi & Hlo & Hall).
    exists (Qc_min x lo), (if decide (x ≤ hi) then hi else x).
    split; [unfold Qc_min; by case_decide|].
    assert (Qc_min x lo ≤ x ∧ Qc_min x lo ≤ lo) as [Hm1 Hm2].
    { unfold Qc_min. case_decide as Hle; [done|].
      split; [|done]. by apply Qclt_le_weak, Qcnot_le_lt. }
    assert (x ≤ (if decide (x ≤ hi) then hi else x)
            ∧ hi ≤ (if decide (x ≤ hi) then hi else x)) as [Hh1 Hh2].
    { case_decide as Hle; [done|].
      split; [done|]. by apply Qclt_le_weak, Qcnot_le_lt. }
    constructor; [done|].
    eapply Forall_impl; [exact Hall|]. intros z [Hz1 Hz2]. split.
    + by apply Qcle_trans with lo.
    + by apply Qcle_trans with hi.
Qed.

Lemma monthly_totals_nil (db : Database) (clock : Clock)
    (cfg : EmergencyFundConfig) :
  monthly_totals db clock cfg = [] ↔ expense_rows db clock cfg = [].
Proof.
  unfold monthly_totals. cbv zeta. split.
  - intros Hnil. apply fmap_nil_inv in Hnil.
    destruct (expense_rows db clock cfg) as [|t l]; [done|].
    assert (month_of clock (transaction_date t)
            ∈ remove_dups (map (λ t0, month_of clock (transaction_date t0))
                             (t :: l))) as Hin
      by (apply elem_of_remove_dups; left).
    rewrite Hnil in Hin. by apply elem_of_nil in Hin.
  - by intros ->.
Qed.

Lemma queryMonthlyExpenses_cases (db : Database) (clock : Clock)
    (cfg : EmergencyFundConfig) :
  (expense_rows db clock cfg = [] → queryMonthlyExpenses db clock cfg = Num 0)
  ∧ ∃ me : Qc,
      queryMonthlyExpenses db clock cfg = Num me
      ∧ 0 ≤ me
      ∧ (expense_account_ids cfg ≠ [] → expense_rows db clock cfg ≠ [] →
         calculation_method cfg ≠ trimmed_mean → 0 < me).
Proof.
  unfold queryMonthlyExpenses.
  destruct (expense_account_ids cfg) as [|a ids] eqn:Hids.
  { split; [done|]. exists 0. repeat split; done. }
  destruct (monthly_totals db clock cfg) as [|row rows] eqn:Htotals.
  - assert (estimate (calculation_method cfg) (map snd []) = Num 0) as ->
      by (unfold estimate; by destruct (calculation_method cfg)).
    apply monthly_totals_nil in Htotals.
    split; [done|]. exists 0. repeat split; done.
  - assert (expense_rows db clock cfg ≠ []) as Hrows.
    { intros Hnil. apply monthly_totals_nil in Hnil. congruence. }
    split; [done|]. rewrite <- Htotals.
    pose proof (monthly_totals_positive db clock cfg) as Hpos.
    assert (map snd (monthly_totals db clock cfg) ≠ []) as Hne
      by (by rewrite Htotals).
    destruct (list_bounds_positive (map snd (monthly_totals db clock cfg)))
      as (lo & hi & Hlo & Hall); [done|by apply Forall_fmap|].
    pose proof (monthly_avg_between (calculation_method cfg) _ lo hi Hne Hall)
      as Hb.
    unfold estimate. rewrite value_or_zero_finite.
    destruct (monthly_avg _ _) as [e|]; cbn [default].
    + exists e. split; [done|]. destruct Hb as [He _].
      assert (0 < e) as Hpose by (by apply Qclt_le_trans with lo).
      split; [by apply Qclt_le_weak|done].
    + exists 0. repeat split; done.
Qed.

(** X8: the monthly expense estimate is a finite number that is never
    negative; it is 0 when no transaction is included, and positive for the
    mean and the median as soon as one is. *)
Theorem queryMonthlyExpenses_sign (db : Database) (clock : Clock)
    (cfg : EmergencyFundConfig) :
  ∃ me : Qc,
    queryMonthlyExpenses db clock cfg = Num me
    ∧ 0 ≤ me
    ∧ (expense_rows db clock cfg = [] → me = 0)
    ∧ (expense_account_ids cfg ≠ [] → expense_rows db clock cfg ≠ [] →
       calculation_method cfg ≠ trimmed_mean → 0 < me).
Proof.
  destruct (queryMonthlyExpenses_cases db clock cfg)
    as (Hzero & me & Hme & Hsign & Hpos).
  exists me. split; [done|]. split; [done|]. split; [|done].
  intros Hrows. rewrite (Hzero Hrows) in Hme. by injection Hme.
Qed.

(** ** Further properties of the evaluation *)

Lemma classify_rank_thresholds (x : Qc) :
  status_rank (classify (Num x))
  = if decide (x < 50%Z) then 0%nat
    else if decide (x < 80%Z) then 1%nat else 2%nat.
Proof.
  unfold classify. rewrite !lt_Num.
  repeat case_bool_decide; repeat case_decide; try done; Qc_order.
Qed.

Lemma classify_monotone (x y : Qc) :
  x ≤ y → (status_rank (classify (Num x)) ≤ status_rank (classify (Num y)))%nat.
Proof.
  intros Hxy. rewrite !classify_rank_thresholds.
  repeat case_decide; try lia; Qc_order.
Qed.

Lemma Qcinv_positive (x : Qc) : 0 < x → 0 < / x.
Proof.
  intros Hx. Qc_to_Q. by apply Qinv_lt_0_compat.
Qed.

Lemma Qcdiv_monotone (x y z : Qc) : 0 < z → x ≤ y → x / z ≤ y / z.
Proof.
  intros Hz Hxy. unfold Qcdiv. apply Qcmult_le_compat_r; [done|].
  by apply Qclt_le_weak, Qcinv_positive.
Qed.

Lemma percent_of_monotone (m m' t : Qc) :
  m ≤ m' → percent_of m t ≤ percent_of m' t.
Proof.
  intros Hm. unfold percent_of. case_decide as Ht; [|done].
  apply Qcmult_le_compat_r; [by apply Qcdiv_monotone|done].
Qed.

Lemma months_of_monotone (fb fb' me : Qc) :
  fb ≤ fb' → months_of fb me ≤ months_of fb' me.
Proof.
  intros Hfb. unfold months_of. case_decide; [|done].
  by apply Qcdiv_monotone.
Qed.

(** X9: with the monthly expenses and the target in months held fixed, a
    larger fund balance never gives a worse status. *)
Theorem status_monotone_in_fund_balance (fb fb' me t : Qc) :
  fb ≤ fb' →
  (status_rank (status (evaluate (Num fb) (Num me) (Num t)))
   ≤ status_rank (status (evaluate (Num fb') (Num me) (Num t))))%nat.
Proof.
  intros Hfb.
  destruct (evaluate_finite fb me t) as (_ & _ & _ & _ & _ & _ & _ & ->).
  destruct (evaluate_finite fb' me t) as (_ & _ & _ & _ & _ & _ & _ & ->).
  by apply classify_monotone, percent_of_monotone, months_of_monotone.
Qed.

Lemma status_monotone_in_fund_balance_witness :
  (2500%Z : Qc) ≤ 5000%Z
  ∧ status (evaluate (Num 2500%Z) (Num 1000%Z) (Num 6%Z)) = critical
  ∧ status (evaluate (Num 5000%Z) (Num 1000%Z) (Num 6%Z)) = on_track
  ∧ (status_rank (status (evaluate (Num 2500%Z) (Num 1000%Z) (Num 6%Z)))
     ≤ status_rank (status (evaluate (Num 5000%Z) (Num 1000%Z) (Num 6%Z))))%nat.
Proof.
  split; [by_evaluation|]. split; [by_evaluation|]. split; [by_evaluation|].
  apply (status_monotone_in_fund_balance 2500%Z 5000%Z 1000%Z 6%Z).
  by_evaluation.
Defined.

(** The component state an evaluation leaves: the result, the derived
    target and the breakdown, everything else as before. *)
Lemma calculateRunway_view (clock : Clock) (w : World)
    (cfg : EmergencyFundConfig) :
  config (view w) = Some cfg →
  let fb := calculateFundBalanceFromAllocations (db w)
              (allocationsToUse cfg (goals (view w))) in
  let me := queryMonthlyExpenses (db w) clock cfg in
  let target := resolveTarget cfg (goals (view w))
                  (formTargetMonthsOverride (form (view w)))
                  (autoTargetMonths (view w)) me in
  view (calculateRunway clock w)
  = set_expenseBreakdown
      (match expense_account_ids cfg with
       | [] => []
       | _ => breakdown_query (db w) clock cfg
       end)
      (set_runway (Some (evaluate fb me target.1)) target.2 (view w)).
Proof.
  intros Hcfg fb me target. unfold calculateRunway. rewrite Hcfg.
  fold fb me target. destruct target as [t auto]. cbn [fst snd].
  set (w1 := with_view (set_runway (Some (evaluate fb me t)) auto) w).
  set (w2 := match status (evaluate fb me t) with
             | on_track => w1
             | _ => toast (toast_warning "Runway alert"
                             (monthsOfRunway (evaluate fb me t)) t) w1
             end).
  assert (view w2 = view w1 ∧ db w2 = db w) as [Hview Hdb].
  { subst w2. by destruct (status _). }
  unfold loadExpenseBreakdown. rewrite Hview.
  assert (config (view w1) = Some cfg) as -> by done.
  destruct (expense_account_ids cfg); cbn [with_view view]; rewrite Hview;
    [done|]. by rewrite Hdb.
Qed.

Lemma resolveTarget_previous (cfg : EmergencyFundConfig) (gs : list Goal)
    (override : bool) (previous : option number) (me : Qc) :
  let target := resolveTarget cfg gs override previous (Num me) in
  resolveTarget cfg gs override target.2 (Num me) = target.
Proof.
  cbv zeta. unfold resolveTarget.
  destruct (truthy_str (linked_goal_id cfg)); [|done].
  destruct (find_goal gs (linked_goal_id cfg)) as [goal|]; [|done].
  destruct (JS.gt (Num me) (Num 0)); [|done].
  by destruct (negb override && bool_decide (target_months cfg = None)).
Qed.

Lemma calculateRunway_view_twice (clock : Clock) (w : World) :
  view (calculateRunway clock (calculateRunway clock w))
  = view (calculateRunway clock w).
Proof.
  destruct (config (view w)) as [cfg|] eqn:Hcfg.
  - assert (config (view (calculateRunway clock w)) = Some cfg) as Hcfg'
      by (by rewrite calculateRunway_config).
    rewrite (calculateRunway_view clock (calculateRunway clock w) cfg Hcfg').
    rewrite calculateRunway_db.
    rewrite (calculateRunway_view clock w cfg Hcfg).
    cbn [set_expenseBreakdown set_runway goals form autoTargetMonths
         config snapshots runwayData expenseBreakdown showSettings showSetup].
    destruct (queryMonthlyExpenses_finite (db w) clock cfg) as [me ->].
    by rewrite resolveTarget_previous.
  - unfold calculateRunway at 1 2. rewrite !Hcfg. unfold calculateRunway.
    by rewrite Hcfg.
Qed.

(** X11: an evaluation reads the data source and never writes it, and a
    second evaluation right after the first leaves the component state as
    the first left it. *)
Theorem calculateRunway_idempotent (clock : Clock) (w : World) :
  db (calculateRunway clock w) = db w
  ∧ view (calculateRunway clock (calculateRunway clock w))
    = view (calculateRunway clock w).
Proof. split; [apply calculateRunway_db|apply calculateRunway_view_twice]. Qed.

(** X12: an evaluation that does not end on track raises one runway alert
    carrying the months of runway and the target; one that ends on track
    raises none. Nothing is remembered between evaluations: evaluating again
    raises the alert again. *)
Theorem calculateRunway_alert (clock : Clock) (w : World)
    (cfg : EmergencyFundConfig) :
  config (view w) = Some cfg →
  ∃ r, runwayData (view (calculateRunway clock w)) = Some r
       ∧ toasts (calculateRunway clock w)
         = toasts w
           ++ (if decide (status r = on_track) then []
               else [toast_warning "Runway alert" (monthsOfRunway r)
                       (targetMonths r)])
       ∧ toasts (calculateRunway clock (calculateRunway clock w))
         = toasts w
           ++ (if decide (status r = on_track) then []
               else [toast_warning "Runway alert" (monthsOfRunway r)
                       (targetMonths r);
                     toast_warning "Runway alert" (monthsOfRunway r)
                       (targetMonths r)]).
Proof.
  intros Hcfg.
  assert (∀ w0, config (view w0) = Some cfg →
            ∃ r, runwayData (view (calculateRunway clock w0)) = Some r
                 ∧ toasts (calculateRunway clock w0)
                   = toasts w0
                     ++ (if decide (status r = on_track) then []
                         else [toast_warning "Runway alert" (monthsOfRunway r)
                                 (targetMonths r)])) as Hone.
  { intros w0 Hcfg0.
    destruct (calculateRunway_result clock w0 cfg Hcfg0) as [Hr _].
    eexists. split; [exact Hr|].
    unfold calculateRunway. rewrite Hcfg0.
    destruct (resolveTarget _ _ _ _ _) as [t auto]. cbn [fst].
    assert (∀ w', toasts (loadExpenseBreakdown clock w') = toasts w') as ->.
    { intros w'. unfold loadExpenseBreakdown.
      destruct (config (view w')) as [c|]; [|done].
      by destruct (expense_account_ids c). }
    destruct (status _) eqn:Hs.
    - rewrite decide_True by done. cbn. by rewrite app_nil_r.
    - by rewrite decide_False by done.
    - by rewrite decide_False by done. }
  destruct (Hone w Hcfg) as (r & Hr & Htoasts).
  assert (config (view (calculateRunway clock w)) = Some cfg) as Hcfg'
    by (by rewrite calculateRunway_config).
  destruct (Hone (calculateRunway clock w) Hcfg') as (r' & Hr' & Htoasts').
  pose proof (calculateRunway_view_twice clock w) as Hview.
  rewrite Hview, Hr in Hr'. injection Hr' as <-.
  exists r. split; [done|]. split; [done|].
  rewrite Htoasts', Htoasts, <- app_assoc. by case_decide.
Qed.

Lemma calculateRunway_alert_witness :
  let w := Scenario.manual 2500 in
  config (view w) = Some (config_of_row (Scenario.manual_row 2500))
  ∧ ∃ r, runwayData (view (calculateRunway Scenario.clock w)) = Some r
         ∧ toasts (calculateRunway Scenario.clock w)
           = toasts w
             ++ (if decide (status r = on_track) then []
                 else [toast_warning "Runway alert" (monthsOfRunway r)
                         (targetMonths r)])
         ∧ toasts (calculateRunway Scenario.clock
                     (calculateRunway Scenario.clock w))
           = toasts w
             ++ (if decide (status r = on_track) then []
                 else [toast_warning "Runway alert" (monthsOfRunway r)
                         (targetMonths r);
                       toast_warning "Runway alert" (monthsOfRunway r)
                         (targetMonths r)]).
Proof.
  split; [reflexivity|].
  apply (calculateRunway_alert Scenario.clock (Scenario.manual 2500)
           (config_of_row (Scenario.manual_row 2500))).
  reflexivity.
Defined.

(** X13: what remains to the target is never negative, is the shortfall of
    the fund balance below the target amount, and for a positive target
    amount is 0 exactly when the progress has reached 100 percent. *)
Theorem remaining_and_progress (clock : Clock) (w : World)
    (cfg : EmergencyFundConfig) :
  config (view w) = Some cfg →
  ∃ (r : RunwayData) (fb ta rest progress : Qc),
    runwayData (view (calculateRunway clock w)) = Some r
    ∧ fundBalance r = Num fb ∧ targetAmount r = Num ta
    ∧ remainingToTarget r = Num rest ∧ progressPercent r = Num progress
    ∧ 0 ≤ rest
    ∧ (fb ≤ ta → rest = ta - fb)
    ∧ (ta ≤ fb → rest = 0)
    ∧ (0 < ta → (rest = 0 ↔ 100%Z ≤ progress)).
Proof.
  intros Hcfg.
  destruct (calculateRunway_finite clock w cfg Hcfg) as (fb & me & _ & Hr).
  lazymatch type of Hr with
  | context [evaluate (Num fb) (Num me) (Num ?t)] => generalize dependent t
  end.
  intros t Hr.
  destruct (evaluate_finite fb me t) as (Hfb & _ & _ & _ & Hta & Hp & _ & _).
  exists (evaluate (Num fb) (Num me) (Num t)), fb, (me * t),
    (if decide (0 < me * t - fb) then me * t - fb else 0),
    (progress_of fb (me * t)).
  split; [done|]. split; [done|]. split; [done|]. split.
  { cbn [evaluate remainingToTarget]. unfold JS.max, JS.sub, JS.mul, JS.lt.
    unfold Qc_ltb. by case_bool_decide; case_decide. }
  split; [done|].
  clear Hr Hfb Hta Hp. generalize (me * t). intros ta.
  unfold progress_of. repeat split.
  - case_decide; [by apply Qclt_le_weak|done].
  - intros Hle. case_decide as Hd; [done|]. Qc_to_Q.
    apply Qc_is_canon. unfold Qclt in Hd. cbn in *.
    rewrite ?Qred_correct in *. lra.
  - intros Hle. case_decide as Hd; [|done]. exfalso. Qc_to_Q. lra.
  - intros Hrest. rewrite decide_True by done.
    case_decide as Hd; [exfalso; rewrite Hrest in Hd; by vm_compute in Hd|].
    assert (1 ≤ fb / ta) as Hone.
    { Qc_to_Q. apply Qle_shift_div_l; [done|]. lra. }
    generalize dependent (fb / ta). intros q Hq. Qc_to_Q.
    change (inject_Z 100) with (100 # 1)%Q. lra.
  - rewrite decide_True by done. intros Hp100.
    case_decide as Hd; [|done]. exfalso.
    assert (fb / ta < 1) as Hlt.
    { Qc_to_Q. apply Qlt_shift_div_r; [done|]. lra. }
    generalize dependent (fb / ta). intros q Hq Hlt. Qc_to_Q.
    change (inject_Z 100) with (100 # 1)%Q in *. lra.
Qed.

Lemma remaining_and_progress_witness :
  let w := Scenario.manual 2500 in
  config (view w) = Some (config_of_row (Scenario.manual_row 2500))
  ∧ ∃ (r : RunwayData) (fb ta rest progress : Qc),
      runwayData (view (calculateRunway Scenario.clock w)) = Some r
      ∧ fundBalance r = Num fb ∧ targetAmount r = Num ta
      ∧ remainingToTarget r = Num rest ∧ progressPercent r = Num progress
      ∧ 0 ≤ rest
      ∧ (fb ≤ ta → rest = ta - fb)
      ∧ (ta ≤ fb → rest = 0)
      ∧ (0 < ta → (rest = 0 ↔ 100%Z ≤ progress)).
Proof.
  split; [reflexivity|].
  apply (remaining_and_progress Scenario.clock (Scenario.manual 2500)
           (config_of_row (Scenario.manual_row 2500))).
  reflexivity.
Defined.

(** ** Further properties of the breakdown *)

#[local] Instance by_amount_desc_total : Total by_amount_desc.
Proof. intros r1 r2. unfold by_amount_desc. apply (total Qcle). Qed.

Lemma tagged_expenses_tags (db : Database) (clock : Clock)
    (cfg : EmergencyFundConfig) (g : string) :
  g ∈ map fst (tagged_expenses db clock cfg)
  ↔ ∃ t, t ∈ expense_rows db clock cfg ∧ g ∈ tags t.
Proof.
  unfold tagged_expenses.
  induction (expense_rows db clock cfg) as [|t l IH].
  - cbn. split; [by intros ?%elem_of_nil|].
    by intros (t & ?%elem_of_nil & _).
  - cbn [flat_map]. rewrite map_app, elem_of_app, IH, map_map. cbn [fst].
    rewrite map_id. split.
    + intros [Hhere|(t' & Ht' & Hg)].
      * exists t. split; [left|done].
      * exists t'. split; [by right|done].
    + intros (t' & [->|Ht']%elem_of_cons & Hg).
      * by left.
      * right. by exists t'.
Qed.

Lemma breakdown_query_tags (db : Database) (clock : Clock)
    (cfg : EmergencyFundConfig) :
  map tag (breakdown_query db clock cfg)
  ≡ₚ remove_dups (map fst (tagged_expenses db clock cfg)).
Proof.
  rewrite (Permutation_map tag (breakdown_query_Permutation db clock cfg)).
  rewrite map_map. cbn [breakdown_row tag]. by rewrite map_id.
Qed.

Lemma breakdown_query_tag (db : Database) (clock : Clock)
    (cfg : EmergencyFundConfig) (g : string) :
  g ∈ map tag (breakdown_query db clock cfg)
  ↔ ∃ t, t ∈ expense_rows db clock cfg ∧ g ∈ tags t.
Proof.
  rewrite <- tagged_expenses_tags.
  rewrite <- (elem_of_remove_dups (map fst (tagged_expenses db clock cfg))).
  pose proof (breakdown_query_tags db clock cfg) as Htags.
  split; intros Hin.
  - eapply elem_of_Permutation_proper; [symmetry; exact Htags|done].
  - eapply elem_of_Permutation_proper; [exact Htags|done].
Qed.

(** X14: the breakdown is ordered by monthly amount, largest first, holds
    each tag once, and holds exactly the tags carried by the included
    transactions: a transaction that carries no tag adds no entry. *)
Theorem breakdown_query_entries (db : Database) (clock : Clock)
    (cfg : EmergencyFundConfig) :
  let entries := breakdown_query db clock cfg in
  Sorted by_amount_desc entries
  ∧ NoDup (map tag entries)
  ∧ ∀ g, g ∈ map tag entries
         ↔ ∃ t, t ∈ expense_rows db clock cfg ∧ g ∈ tags t.
Proof.
  intros entries. subst entries.
  split; [apply Sorted_merge_sort, _|]. split.
  - rewrite breakdown_query_tags. apply NoDup_remove_dups.
  - apply breakdown_query_tag.
Qed.

Lemma expense_rows_not_excluded (db : Database) (clock : Clock)
    (cfg : EmergencyFundConfig) (t : Transaction) (g : string) :
  t ∈ expense_rows db clock cfg → g ∈ excluded_tags cfg → g ∉ tags t.
Proof.
  intros Hin Hex Hg.
  apply list_elem_of_In, filter_In in Hin as [_ Hwhere].
  unfold expense_where in Hwhere.
  apply andb_true_iff in Hwhere as [Hwhere _].
  apply andb_true_iff in Hwhere as [_ Hfilter].
  unfold tagFilter in Hfilter. unfold tags in Hg.
  destruct (excluded_tags cfg) as [|g0 excluded] eqn:Hexcluded;
    [by apply elem_of_nil in Hex|].
  destruct (tx_tags t) as [ts|]; [|done]. cbn [default] in Hg.
  apply negb_true_iff in Hfilter.
  assert (existsb (list_contains ts) (g0 :: excluded) = true)
    as Hyes; [|congruence].
  apply existsb_exists. exists g. split; [by apply list_elem_of_In|].
  by apply bool_decide_eq_true_2.
Qed.

Lemma breakdown_query_without (db : Database) (clock : Clock)
    (cfg : EmergencyFundConfig) (g : string) :
  g ∈ excluded_tags cfg → g ∉ map tag (breakdown_query db clock cfg).
Proof.
  intros Hex (t & Ht & Hg)%breakdown_query_tag.
  by apply (expense_rows_not_excluded db clock cfg t g).
Qed.

(** X15: a tag that is excluded (other than the name "Untagged" itself)
    never shows in the breakdown, and neither does a tag that no included
    transaction carries. *)
Theorem breakdown_query_excluded (db : Database) (clock : Clock)
    (cfg : EmergencyFundConfig) (g : string) :
  g ≠ "Untagged" →
  g ∈ excluded_tags cfg
  ∨ Forall (λ t, g ∉ tags t) (expense_rows db clock cfg) →
  g ∉ map tag (breakdown_query db clock cfg).
Proof.
  intros _ [Hex|Hnone]; [by apply breakdown_query_without|].
  intros (t & Ht & Hg)%breakdown_query_tag.
  rewrite Forall_forall in Hnone. by apply (Hnone t).
Qed.

Lemma breakdown_query_excluded_witness :
  let cfg := config_of_row
               (hd Scenario.goal_row
                  (sys_plugin_emergency_fund_config
                     (db Scenario.food_excluded))) in
  ("food" ≠ "Untagged" ∧ "food" ∈ excluded_tags cfg)
  ∧ "food" ∉ map tag (breakdown_query (db Scenario.food_excluded)
                        Scenario.clock cfg).
Proof.
  intros cfg.
  assert ("food" ≠ "Untagged") as H1 by by_evaluation.
  assert ("food" ∈ excluded_tags cfg) as H2 by by_evaluation.
  split; [exact (conj H1 H2)|].
  exact (breakdown_query_excluded (db Scenario.food_excluded) Scenario.clock
           cfg "food" H1 (or_introl H2)).
Defined.

Lemma loadExpenseBreakdown_toasts (clock : Clock) (w : World) :
  toasts (loadExpenseBreakdown clock w) = toasts w.
Proof.
  unfold loadExpenseBreakdown. destruct (config (view w)) as [c|]; [|done].
  by destruct (expense_account_ids c).
Qed.

(** X16: quick exclude of a tag other than "Untagged", on the one stored
    row, when neither the tag, nor the tags excluded so far, nor the id of
    the configuration holds an apostrophe: the tag is appended to the
    excluded tags of the row and of the configuration loaded back, and the
    breakdown computed from it no longer shows the tag. *)
Theorem quickExcludeTag_removes_tag (clock : Clock) (excluded : string)
    (w : World) (cfg : EmergencyFundConfig) :
  config (view w) = Some cfg → config_in_sync w → excluded ≠ "Untagged" →
  forallb no_apostrophe (id cfg :: excluded_tags cfg ++ [excluded]) = true →
  let w' := quickExcludeTag clock excluded w in
  map row_excluded_tags (sys_plugin_emergency_fund_config (db w'))
  = [excluded_tags cfg ++ [excluded]]
  ∧ excluded_tags <$> config (view w') = Some (excluded_tags cfg ++ [excluded])
  ∧ excluded ∉ map tag (expenseBreakdown (view w')).
Proof.
  intros Hcfg Hsync Hne Hplain w'. subst w'. unfold quickExcludeTag.
  rewrite Hcfg. rewrite (proj2 (String.eqb_neq _ _) Hne).
  cbn [forallb] in Hplain. apply andb_true_iff in Hplain as [Hid Htags].
  rewrite (sql_json_strings_plain _ Htags), (sql_literal_plain _ Hid).
  unfold config_in_sync in Hsync. rewrite Hcfg in Hsync.
  destruct Hsync as (r & Htable & Hr).
  match goal with
  | |- context [calculateRunway clock (loadConfig ?x)] => set (w1 := x)
  end.
  set (r' := exclude_in_row (id cfg) (excluded_tags cfg ++ [excluded])
               (CURRENT_TIMESTAMP clock) r).
  assert (sys_plugin_emergency_fund_config (db w1) = [r']) as Htable1.
  { subst w1. cbn [with_db db set_config_table
                   sys_plugin_emergency_fund_config].
    by rewrite Htable. }
  assert (row_excluded_tags r' = excluded_tags cfg ++ [excluded]) as Hr'.
  { subst r'. unfold exclude_in_row. by rewrite Hr, String.eqb_refl. }
  assert (config (view (loadConfig w1)) = Some (config_of_row r')) as Hcfg2.
  { unfold loadConfig. by rewrite Htable1. }
  cbn [toast db view].
  rewrite calculateRunway_db, loadConfig_db, Htable1.
  split; [cbn [map]; by rewrite Hr'|].
  rewrite calculateRunway_config, Hcfg2.
  split; [cbn [fmap option_fmap option_map config_of_row excluded_tags];
          by rewrite Hr'|].
  rewrite (calculateRunway_view clock (loadConfig w1) _ Hcfg2).
  cbn [set_expenseBreakdown expenseBreakdown].
  destruct (expense_account_ids (config_of_row r')); [by intros ?%elem_of_nil|].
  apply breakdown_query_without.
  cbn [config_of_row excluded_tags]. rewrite Hr'.
  apply elem_of_app. right. left.
Qed.

Lemma quickExcludeTag_removes_tag_witness :
  let w := Scenario.evaluated in
  let cfg := config_of_row (Scenario.manual_row 5000) in
  (config (view w) = Some cfg ∧ config_in_sync w ∧ "food" ≠ "Untagged"
   ∧ forallb no_apostrophe (id cfg :: excluded_tags cfg ++ ["food"]) = true)
  ∧ "food" ∈ map tag (expenseBreakdown (view w))
  ∧ let w' := quickExcludeTag Scenario.clock "food" w in
    map row_excluded_tags (sys_plugin_emergency_fund_config (db w'))
    = [excluded_tags cfg ++ ["food"]]
    ∧ excluded_tags <$> config (view w') = Some (excluded_tags cfg ++ ["food"])
    ∧ "food" ∉ map tag (expenseBreakdown (view w')).
Proof.
  intros w cfg.
  assert (config (view w) = Some cfg) as H1 by (vm_compute; reflexivity).
  assert (config_in_sync w) as H2.
  { unfold config_in_sync. rewrite H1. exists (Scenario.manual_row 5000).
    split; vm_compute; reflexivity. }
  assert ("food" ≠ "Untagged") as H3 by by_evaluation.
  assert (forallb no_apostrophe (id cfg :: excluded_tags cfg ++ ["food"])
          = true) as H4 by (vm_compute; reflexivity).
  split; [exact (conj H1 (conj H2 (conj H3 H4)))|]. split; [by_evaluation|].
  exact (quickExcludeTag_removes_tag Scenario.clock "food" w cfg H1 H2 H3 H4).
Defined.

(** ** The settings form *)

Lemma filter_other_not_in (x : string) (l : list string) :
  x ∉ l → List.filter (λ t, negb (String.eqb t x)) l = l.
Proof.
  induction l as [|y l IH]; [done|]. intros Hnot.
  apply not_elem_of_cons in Hnot as [Hne Hl]. simpl.
  rewrite (proj2 (String.eqb_neq y x)) by done. simpl. f_equal. by apply IH.
Qed.

Lemma elem_of_filter_other (x y : string) (l : list string) :
  y ∈ List.filter (λ t, negb (String.eqb t x)) l ↔ y ≠ x ∧ y ∈ l.
Proof.
  rewrite list_elem_of_In, filter_In, <- list_elem_of_In, negb_true_iff.
  rewrite String.eqb_neq. tauto.
Qed.

Lemma NoDup_List_filter {A} (f : A → bool) (l : list A) :
  NoDup l → NoDup (List.filter f l).
Proof.
  induction 1 as [|x l Hx _ IH]; simpl; [constructor|].
  destruct (f x); [|done]. constructor; [|done].
  intros Hin. apply Hx. by apply list_elem_of_In, filter_In in Hin as [Hin _];
    apply list_elem_of_In.
Qed.

(** X17: adding an excluded tag never lists a tag twice and never lists the
    empty tag; a tag that is not empty is listed afterwards; adding it again
    changes nothing; the input is cleared. *)
Theorem addExcludedTag_set (tag : string) (s : Settings) :
  NoDup (formExcludedTags (fields s)) →
  let s' := addExcludedTag tag s in
  NoDup (formExcludedTags (fields s'))
  ∧ (tag ≠ "" → tag ∈ formExcludedTags (fields s'))
  ∧ (tag = "" → fields s' = fields s)
  ∧ (∀ t, t ∈ formExcludedTags (fields s) → t ∈ formExcludedTags (fields s'))
  ∧ addExcludedTag tag s' = s'
  ∧ newTagInput s' = "".
Proof.
  intros Hnodup s'. subst s'. unfold addExcludedTag. cbn [fields newTagInput].
  destruct (String.eqb_spec tag "") as [->|Hne]; cbn [negb andb].
  { repeat split; try done. }
  case_bool_decide as Hin; cbn [negb].
  - repeat split; try done. by rewrite (bool_decide_eq_true_2 _ Hin).
  - cbn [set_formExcludedTags formExcludedTags]. repeat split; try done.
    + apply NoDup_app. repeat split; [done| |apply NoDup_singleton].
      by intros x Hx ->%list_elem_of_singleton.
    + intros _. apply elem_of_app. right. left.
    + intros t Ht. apply elem_of_app. by left.
    + rewrite bool_decide_eq_true_2; [done|].
      apply elem_of_app. right. left.
Qed.

Lemma addExcludedTag_set_witness :
  let s := {| fields := set_formExcludedTags ["transfer"] initial_form;
              newTagInput := "rent" |} in
  NoDup (formExcludedTags (fields s))
  ∧ formExcludedTags (fields (addExcludedTag "rent" s)) = ["transfer"; "rent"]
  ∧ let s' := addExcludedTag "rent" s in
    NoDup (formExcludedTags (fields s'))
    ∧ ("rent" ≠ "" → "rent" ∈ formExcludedTags (fields s'))
    ∧ ("rent" = "" → fields s' = fields s)
    ∧ (∀ t, t ∈ formExcludedTags (fields s)
            → t ∈ formExcludedTags (fields s'))
    ∧ addExcludedTag "rent" s' = s'
    ∧ newTagInput s' = "".
Proof.
  intros s. split; [by_evaluation|]. split; [reflexivity|].
  apply (addExcludedTag_set "rent" s). by_evaluation.
Defined.

(** X18: removing an excluded tag leaves no occurrence of it and keeps every
    other tag; removing a tag just added to a list that did not hold it
    gives the list back. *)
Theorem removeExcludedTag_inverse (tag : string) (s : Settings) :
  tag ∉ formExcludedTags (fields s) →
  formExcludedTags (removeExcludedTag tag (fields (addExcludedTag tag s)))
  = formExcludedTags (fields s)
  ∧ ∀ f t, t ∈ formExcludedTags (removeExcludedTag tag f)
           ↔ t ≠ tag ∧ t ∈ formExcludedTags f.
Proof.
  intros Hnot. split.
  - unfold removeExcludedTag, addExcludedTag.
    cbn [fields set_formExcludedTags formExcludedTags].
    rewrite (bool_decide_eq_false_2 _ Hnot). cbn [negb]. rewrite andb_true_r.
    destruct (String.eqb tag ""); cbn [negb set_formExcludedTags
                                        formExcludedTags].
    + by apply filter_other_not_in.
    + rewrite List.filter_app, filter_other_not_in by done. cbn.
      rewrite String.eqb_refl. cbn. by rewrite app_nil_r.
  - intros f t. unfold removeExcludedTag.
    cbn [set_formExcludedTags formExcludedTags]. apply elem_of_filter_other.
Qed.

Lemma removeExcludedTag_inverse_witness :
  let s := {| fields := set_formExcludedTags ["transfer"] initial_form;
              newTagInput := "rent" |} in
  ("rent" ∉ formExcludedTags (fields s))
  ∧ formExcludedTags (removeExcludedTag "rent"
                        (fields (addExcludedTag "rent" s)))
    = formExcludedTags (fields s)
  ∧ ∀ f t, t ∈ formExcludedTags (removeExcludedTag "rent" f)
           ↔ t ≠ "rent" ∧ t ∈ formExcludedTags f.
Proof.
  intros s. split; [by_evaluation|].
  apply (removeExcludedTag_inverse "rent" s). by_evaluation.
Defined.

(** X19: toggling an expense account flips whether it is selected and leaves
    the selection of every other account alone; it keeps the list free of
    duplicates, and toggling twice an account that was not selected gives
    the list back. *)
Theorem toggleExpenseAccount_flips (accountId : string) (f : Form) :
  NoDup (formExpenseAccountIds f) →
  let f' := toggleExpenseAccount accountId f in
  (accountId ∈ formExpenseAccountIds f' ↔ accountId ∉ formExpenseAccountIds f)
  ∧ (∀ i, i ≠ accountId →
          (i ∈ formExpenseAccountIds f' ↔ i ∈ formExpenseAccountIds f))
  ∧ NoDup (formExpenseAccountIds f')
  ∧ (accountId ∉ formExpenseAccountIds f →
     formExpenseAccountIds (toggleExpenseAccount accountId f')
     = formExpenseAccountIds f).
Proof.
  intros Hnodup f'. subst f'. unfold toggleExpenseAccount.
  case_bool_decide as Hin; cbn [set_formExpenseAccountIds formExpenseAccountIds].
  - split; [|split; [|split]].
    + split; [|done]. by intros [? _]%elem_of_filter_other.
    + intros i Hne. rewrite elem_of_filter_other. tauto.
    + by apply NoDup_List_filter.
    + done.
  - split; [|split; [|split]].
    + split; [done|]. intros _. apply elem_of_app. right. left.
    + intros i Hne. rewrite elem_of_app, list_elem_of_singleton. tauto.
    + apply NoDup_app. repeat split; [done| |apply NoDup_singleton].
      by intros x Hx ->%list_elem_of_singleton.
    + intros _. rewrite bool_decide_eq_true_2
        by (apply elem_of_app; right; left).
      cbn [set_formExpenseAccountIds formExpenseAccountIds].
      rewrite List.filter_app, filter_other_not_in by done. cbn.
      rewrite String.eqb_refl. cbn. by rewrite app_nil_r.
Qed.

Lemma toggleExpenseAccount_flips_witness :
  let f := set_formExpenseAccountIds ["checking"] initial_form in
  NoDup (formExpenseAccountIds f)
  ∧ formExpenseAccountIds (toggleExpenseAccount "card" f)
    = ["checking"; "card"]
  ∧ let f' := toggleExpenseAccount "card" f in
    ("card" ∈ formExpenseAccountIds f' ↔ "card" ∉ formExpenseAccountIds f)
    ∧ (∀ i, i ≠ "card" →
            (i ∈ formExpenseAccountIds f' ↔ i ∈ formExpenseAccountIds f))
    ∧ NoDup (formExpenseAccountIds f')
    ∧ ("card" ∉ formExpenseAccountIds f →
       formExpenseAccountIds (toggleExpenseAccount "card" f')
       = formExpenseAccountIds f).
Proof.
  intros f. split; [by_evaluation|]. split; [reflexivity|].
  apply (toggleExpenseAccount_flips "card" f). by_evaluation.
Defined.

Lemma allocated_spec (accountId : string) (f : Form) :
  allocated accountId f = true
  ↔ accountId ∈ map account_id (formFundAllocations f).
Proof.
  unfold allocated. rewrite existsb_exists. split.
  - intros (a & Hin & Heq). apply String.eqb_eq in Heq. subst accountId.
    apply list_elem_of_In, in_map, Hin.
  - intros Hin. apply list_elem_of_In, in_map_iff in Hin as (a & Heq & Hin).
    exists a. split; [done|]. by apply String.eqb_eq.
Qed.

Lemma map_account_id_filter (accountId : string) (l : list FundAllocation) :
  map account_id
    (List.filter (λ a, negb (String.eqb (account_id a) accountId)) l)
  = List.filter (λ i, negb (String.eqb i accountId)) (map account_id l).
Proof.
  induction l as [|a l IH]; [done|]. simpl.
  destruct (String.eqb (account_id a) accountId); simpl; [done|].
  f_equal. exact IH.
Qed.

Lemma map_account_id_update (accountId : string) (field : AllocationField)
    (l : list FundAllocation) :
  map account_id
    (map (λ a, if String.eqb (account_id a) accountId
               then update_field a field else a) l)
  = map account_id l.
Proof.
  rewrite map_map. apply map_ext. intros a.
  destruct (String.eqb (account_id a) accountId); [|done]. by destruct field.
Qed.

Lemma run_allocation_action_unique (f : Form) (a : AllocationAction) :
  NoDup (map account_id (formFundAllocations f)) →
  NoDup (map account_id (formFundAllocations (run_allocation_action f a))).
Proof.
  intros Hnodup.
  assert (∀ i, NoDup (map account_id
                        (formFundAllocations (removeFundAllocation i f))))
    as Hremove.
  { intros i. unfold removeFundAllocation.
    cbn [set_formFundAllocations formFundAllocations].
    rewrite map_account_id_filter. by apply NoDup_List_filter. }
  assert (∀ i, NoDup (map account_id
                        (formFundAllocations (addFundAllocation i f))))
    as Hadd.
  { intros i. unfold addFundAllocation.
    destruct (allocated i f) eqn:Hi; [done|].
    cbn [set_formFundAllocations formFundAllocations].
    rewrite map_app. cbn [map account_id].
    apply NoDup_app. repeat split; [done| |apply NoDup_singleton].
    intros x Hx ->%list_elem_of_singleton.
    apply allocated_spec in Hx. congruence. }
  destruct a as [i|i|i field|i]; cbn [run_allocation_action].
  - apply Hadd.
  - apply Hremove.
  - unfold updateAllocation. cbn [set_formFundAllocations formFundAllocations].
    by rewrite map_account_id_update.
  - unfold toggleFundAccount. destruct (allocated i f); [apply Hremove|apply Hadd].
Qed.

(** X20: whatever sequence of add, remove, update and toggle is run on the
    allocations of the form, no account gets a second rule. *)
Theorem allocation_actions_keep_accounts_unique (f : Form)
    (actions : list AllocationAction) :
  NoDup (map account_id (formFundAllocations f)) →
  NoDup (map account_id
           (formFundAllocations (fold_left run_allocation_action actions f))).
Proof.
  revert f. induction actions as [|a actions IH]; intros f Hnodup; [done|].
  cbn [fold_left]. by apply IH, run_allocation_action_unique.
Qed.

Lemma allocation_actions_keep_accounts_unique_witness :
  let actions := [do_add "A"; do_add "A"; do_toggle "B";
                  do_update "A" (field_allocation_type fixed);
                  do_toggle "A"; do_add "A"] in
  NoDup (map account_id (formFundAllocations initial_form))
  ∧ map account_id
      (formFundAllocations (fold_left run_allocation_action actions
                              initial_form))
    = ["B"; "A"]
  ∧ NoDup (map account_id
             (formFundAllocations (fold_left run_allocation_action actions
                                     initial_form))).
Proof.
  intros actions. split; [by_evaluation|]. split; [reflexivity|].
  apply (allocation_actions_keep_accounts_unique initial_form actions).
  by_evaluation.
Defined.

(** X21: toggling a fund account flips whether it has a rule and leaves the
    rules of the other accounts as they were; an account that enters gets
    the rule "100 percent". *)
Theorem toggleFundAccount_flips (accountId : string) (f : Form) :
  let f' := toggleFundAccount accountId f in
  (allocated accountId f' = negb (allocated accountId f))
  ∧ (∀ a, account_id a ≠ accountId →
          (a ∈ formFundAllocations f' ↔ a ∈ formFundAllocations f))
  ∧ (allocated accountId f = false →
     formFundAllocations f'
     = formFundAllocations f
       ++ [{| account_id := accountId; allocation_type := percentage;
              allocation_value := 100%Z |}]).
Proof.
  intros f'. subst f'. unfold toggleFundAccount.
  destruct (allocated accountId f) eqn:Hal.
  - unfold removeFundAllocation. split; [|split; [|done]].
    + cbn [negb]. apply not_true_is_false. rewrite allocated_spec.
      cbn [set_formFundAllocations formFundAllocations].
      rewrite map_account_id_filter. by intros [? _]%elem_of_filter_other.
    + intros a Hne. cbn [set_formFundAllocations formFundAllocations].
      rewrite list_elem_of_In, filter_In, <- list_elem_of_In, negb_true_iff.
      rewrite String.eqb_neq. tauto.
  - unfold addFundAllocation. rewrite Hal.
    cbn [set_formFundAllocations formFundAllocations]. split; [|split; [|done]].
    + cbn [negb]. apply allocated_spec.
      cbn [set_formFundAllocations formFundAllocations].
      rewrite map_app. apply elem_of_app. right. left.
    + intros a Hne. rewrite elem_of_app, list_elem_of_singleton. split.
      * intros [Hin|Heq]; [done|]. subst a. by cbn in Hne.
      * by left.
Qed.

(** Updating a rule changes neither which accounts have a rule nor their
    order, leaves the rules of the other accounts alone and sets the given
    field on every rule of the account. *)
Lemma updateAllocation_sets_field (accountId : string)
    (field : AllocationField) (f : Form) :
  let f' := updateAllocation accountId field f in
  map account_id (formFundAllocations f')
  = map account_id (formFundAllocations f)
  ∧ Forall2 (λ a a',
       if String.eqb (account_id a) accountId
       then match field with
            | field_allocation_type value =>
                allocation_type a' = value
                ∧ allocation_value a' = allocation_value a
            | field_allocation_value value =>
                allocation_value a' = value
                ∧ allocation_type a' = allocation_type a
            end
       else a' = a)
      (formFundAllocations f) (formFundAllocations f').
Proof.
  intros f'. subst f'. unfold updateAllocation.
  cbn [set_formFundAllocations formFundAllocations].
  split; [apply map_account_id_update|].
  induction (formFundAllocations f) as [|a l IH]; [constructor|].
  cbn [map]. constructor; [|exact IH].
  destruct (String.eqb (account_id a) accountId); [|done].
  by destruct field.
Qed.

(** ** Snapshots: listing and deleting *)

#[local] Instance by_date_desc_total : Total by_date_desc.
Proof. intros s1 s2. unfold by_date_desc. lia. Qed.

#[local] Instance by_date_desc_transitive : Transitive by_date_desc.
Proof. intros s1 s2 s3. unfold by_date_desc. lia. Qed.

(** X22: the list shown: at most twelve snapshots, all of them stored,
    latest date first, and none of the stored snapshots left out is later
    than one that is shown; with twelve or fewer stored, all are shown. *)
Theorem loadSnapshots_latest (w : World) :
  let table := sys_plugin_emergency_fund_snapshots (db w) in
  let shown := snapshots (view (loadSnapshots w)) in
  (length shown ≤ 12)%nat
  ∧ Sorted by_date_desc shown
  ∧ (∀ s, s ∈ shown → s ∈ table)
  ∧ (∀ s t, s ∈ shown → t ∈ table → t ∉ shown →
            (snapshot_date t ≤ snapshot_date s)%Z)
  ∧ ((length table ≤ 12)%nat → shown ≡ₚ table)
  ∧ db (loadSnapshots w) = db w.
Proof.
  intros table shown. subst shown. unfold loadSnapshots.
  cbn [with_view view set_snapshots snapshots]. fold table.
  pose proof (merge_sort_Permutation by_date_desc table) as Hperm.
  pose proof (StronglySorted_merge_sort by_date_desc table) as Hsorted.
  set (sorted := merge_sort by_date_desc table) in *.
  rewrite <- (take_drop 12 sorted) in Hsorted.
  split; [rewrite length_take; lia|]. split; [|split; [|split; [|split]]].
  - apply StronglySorted_Sorted. by apply StronglySorted_app_1_l in Hsorted.
  - intros s Hs. rewrite <- Hperm, <- (take_drop 12 sorted).
    apply elem_of_app. by left.
  - intros s t Hs Ht Hnot.
    apply (StronglySorted_app_1_elem_of by_date_desc _ _ s t Hsorted Hs).
    rewrite <- Hperm, <- (take_drop 12 sorted) in Ht.
    by apply elem_of_app in Ht as [?|?].
  - intros Hlen. rewrite take_ge; [done|].
    by rewrite (Permutation_length Hperm).
  - done.
Qed.

Lemma snapshot_id_filter (snapshotId : string)
    (table : list EmergencyFundSnapshot) (s : EmergencyFundSnapshot) :
  s ∈ List.filter (λ s, negb (String.eqb (snapshot_id s) snapshotId)) table
  ↔ s ∈ table ∧ snapshot_id s ≠ snapshotId.
Proof.
  rewrite list_elem_of_In, filter_In, <- list_elem_of_In, negb_true_iff.
  by rewrite String.eqb_neq.
Qed.

Lemma deleteSnapshot_db_table (snapshotId : string) (w : World) :
  sys_plugin_emergency_fund_snapshots (db (deleteSnapshot snapshotId w))
  = List.filter (λ s, negb (String.eqb (snapshot_id s) snapshotId))
      (sys_plugin_emergency_fund_snapshots (db w)).
Proof. done. Qed.

Lemma filter_id_absent (snapshotId : string)
    (table : list EmergencyFundSnapshot) :
  snapshotId ∉ map snapshot_id table →
  List.filter (λ s, negb (String.eqb (snapshot_id s) snapshotId)) table
  = table.
Proof.
  induction table as [|s l IH]; [done|]. intros Hnot.
  change (map snapshot_id (s :: l)) with (snapshot_id s :: map snapshot_id l)
    in Hnot.
  apply not_elem_of_cons in Hnot as [Hne Hl]. simpl.
  rewrite (proj2 (String.eqb_neq (snapshot_id s) snapshotId)) by done.
  simpl. f_equal. by apply IH.
Qed.

Lemma unique_dates_filter (f : EmergencyFundSnapshot → bool)
    (table : list EmergencyFundSnapshot) :
  unique_dates table → unique_dates (List.filter f table).
Proof.
  unfold unique_dates. induction table as [|s l IH]; [done|].
  change (map snapshot_date (s :: l))
    with (snapshot_date s :: map snapshot_date l).
  intros [Hnot Hl]%NoDup_cons. simpl. destruct (f s); [|by apply IH].
  change (NoDup (snapshot_date s :: map snapshot_date (List.filter f l))).
  apply NoDup_cons. split; [|by apply IH].
  intros Hin. apply Hnot.
  apply list_elem_of_In, in_map_iff in Hin as (s' & Heq & Hin).
  apply filter_In in Hin as [Hin _]. rewrite <- Heq.
  apply list_elem_of_In, in_map, Hin.
Qed.

(** X23: deleting a snapshot removes the rows of that id and no other; an id
    that is not stored leaves the table as it is, so that deleting twice is
    deleting once; the one-row-per-date constraint is kept, and the list
    shown is the listing of the table after the deletion. *)
Theorem deleteSnapshot_removes (snapshotId : string) (w : World) :
  let table := sys_plugin_emergency_fund_snapshots (db w) in
  let w' := deleteSnapshot snapshotId w in
  let table' := sys_plugin_emergency_fund_snapshots (db w') in
  (∀ s, s ∈ table' ↔ s ∈ table ∧ snapshot_id s ≠ snapshotId)
  ∧ (snapshotId ∉ map snapshot_id table → table' = table)
  ∧ sys_plugin_emergency_fund_snapshots (db (deleteSnapshot snapshotId w'))
    = table'
  ∧ (unique_dates table → unique_dates table')
  ∧ snapshots (view w') = take 12 (merge_sort by_date_desc table').
Proof.
  intros table w' table'. subst w' table'.
  rewrite !deleteSnapshot_db_table. fold table.
  split; [|split; [|split; [|split]]].
  - intros s. apply snapshot_id_filter.
  - apply filter_id_absent.
  - apply filter_id_absent. intros Hin.
    apply list_elem_of_In, in_map_iff in Hin as (s & Heq & Hin).
    apply list_elem_of_In, snapshot_id_filter in Hin as [_ Hne]. done.
  - apply unique_dates_filter.
  - done.
Qed.

(** X24: taking a snapshot on a date that has none and deleting the row just
    inserted gives the table back, provided the new id is not already used. *)
Theorem addSnapshot_deleteSnapshot (today : date) (clock : Clock) (w : World)
    (r : RunwayData) :
  runwayData (view w) = Some r →
  today ∉ map snapshot_date (sys_plugin_emergency_fund_snapshots (db w)) →
  uuid clock ∉ map snapshot_id (sys_plugin_emergency_fund_snapshots (db w)) →
  sys_plugin_emergency_fund_snapshots
    (db (deleteSnapshot (uuid clock) (addSnapshot today clock w)))
  = sys_plugin_emergency_fund_snapshots (db w).
Proof.
  intros Hr Hdate Hid. rewrite deleteSnapshot_db_table.
  destruct (snapshot_figures r) as [v|] eqn:Hv.
  - rewrite (addSnapshot_table today clock w r v Hr Hv).
    unfold upsert_snapshot.
    destruct (existsb _ _) eqn:Hex.
    { apply existsb_date in Hex. done. }
    rewrite List.filter_app, filter_id_absent by done. cbn.
    rewrite String.eqb_refl. cbn. apply app_nil_r.
  - rewrite (addSnapshot_rejected today clock w r Hr Hv). cbn [toast db].
    by apply filter_id_absent.
Qed.

Lemma addSnapshot_deleteSnapshot_witness :
  let w := Scenario.evaluated in
  let r := Scenario.result_of w in
  (runwayData (view w) = Some r
   ∧ (20000%Z ∉ map snapshot_date
                  (sys_plugin_emergency_fund_snapshots (db w)))
   ∧ (uuid Scenario.clock
      ∉ map snapshot_id (sys_plugin_emergency_fund_snapshots (db w))))
  ∧ length (sys_plugin_emergency_fund_snapshots
              (db (addSnapshot 20000 Scenario.clock w))) = 1%nat
  ∧ sys_plugin_emergency_fund_snapshots
      (db (deleteSnapshot (uuid Scenario.clock)
             (addSnapshot 20000 Scenario.clock w)))
    = sys_plugin_emergency_fund_snapshots (db w).
Proof.
  intros w r.
  assert (runwayData (view w) = Some r) as H1 by (vm_compute; reflexivity).
  assert (20000%Z ∉ map snapshot_date
                       (sys_plugin_emergency_fund_snapshots (db w))) as H2
    by (vm_compute; apply not_elem_of_nil).
  assert (uuid Scenario.clock
          ∉ map snapshot_id (sys_plugin_emergency_fund_snapshots (db w)))
    as H3 by (vm_compute; apply not_elem_of_nil).
  split; [exact (conj H1 (conj H2 H3))|].
  split; [vm_compute; reflexivity|].
  exact (addSnapshot_deleteSnapshot 20000 Scenario.clock w r H1 H2 H3).
Defined.

(** ** Saving, loading and resetting *)

Lemma calculateRunway_form (clock : Clock) (w : World) :
  form (view (calculateRunway clock w)) = form (view w)
  ∧ showSettings (view (calculateRunway clock w)) = showSettings (view w)
  ∧ showSetup (view (calculateRunway clock w)) = showSetup (view w).
Proof.
  destruct (config (view w)) as [cfg|] eqn:Hcfg.
  - by rewrite (calculateRunway_view clock w cfg Hcfg).
  - unfold calculateRunway. by rewrite Hcfg.
Qed.

Lemma saveConfig_one_row (clock : Clock) (w : World) :
  config_in_sync w →
  plain_form (config (view w)) (form (view w)) = true →
  fits_columns (form (view w)) →
  let r' := saved_row (form_values (form (view w)))
              (match config (view w) with
               | Some cfg => id cfg
               | None => uuid clock
               end)
              (match sys_plugin_emergency_fund_config (db w) with
               | r :: _ => row_created_at r
               | [] => CURRENT_TIMESTAMP clock
               end)
              (CURRENT_TIMESTAMP clock) in
  sys_plugin_emergency_fund_config (db (saveConfig clock w)) = [r']
  ∧ config (view (saveConfig clock w)) = Some (config_of_row r')
  ∧ form (view (saveConfig clock w)) = form_of_row r'
  ∧ showSettings (view (saveConfig clock w)) = false
  ∧ showSetup (view (saveConfig clock w)) = false.
Proof.
  intros Hsync Hplain Hfits r'.
  pose proof (save_config_table_plain clock w Hsync Hplain Hfits) as Htable.
  fold r' in Htable.
  split; [by rewrite (saveConfig_table clock w _ Htable)|].
  split; [by rewrite (saveConfig_config clock w _ Htable)|].
  rewrite (saveConfig_accepted clock w _ Htable).
  cbn [toast with_view view close_dialogs form showSettings showSetup].
  split; [|done].
  destruct (calculateRunway_form clock
              (loadConfig (with_db (set_config_table [r']) w)))
    as (-> & _ & _).
  done.
Qed.

(** X25: saving the settings on the one stored row (or on an empty
    table), when no text of the form holds an apostrophe and its numbers
    fit their columns, leaves exactly one row, which is the one loaded
    back.  The loaded configuration holds the lists and the method of the
    form, the goal id with an empty id read as no goal, no target months
    with a goal linked and the override flag off and else the months of the
    form rounded to one decimal, and a lookback of 0 read as 6; the row
    keeps its id, or takes the new id when it is inserted; both dialogs
    are closed. *)
Theorem saveConfig_round_trip (clock : Clock) (w : World) :
  config_in_sync w →
  plain_form (config (view w)) (form (view w)) = true →
  fits_columns (form (view w)) →
  let f := form (view w) in
  let w' := saveConfig clock w in
  ∃ cfg',
    config (view w') = Some cfg'
    ∧ config_in_sync w'
    ∧ id cfg' = match config (view w) with
                | Some cfg => id cfg
                | None => uuid clock
                end
    ∧ linked_goal_id cfg'
      = (if truthy_str (formLinkedGoalId f) then formLinkedGoalId f else None)
    ∧ target_months cfg'
      = (if truthy_str (formLinkedGoalId f) && negb (formTargetMonthsOverride f)
         then None else Some (ROUND (formTargetMonths f) 1))
    ∧ fund_allocations cfg' = formFundAllocations f
    ∧ expense_account_ids cfg' = formExpenseAccountIds f
    ∧ excluded_tags cfg' = formExcludedTags f
    ∧ lookback_months cfg'
      = (if (formLookbackMonths f =? 0)%Z then 6%Z else formLookbackMonths f)
    ∧ calculation_method cfg' = formCalculationMethod f
    ∧ formTargetMonthsOverride (form (view w')) = formTargetMonthsOverride f
    ∧ formTargetMonths (form (view w'))
      = (if truthy_str (formLinkedGoalId f) && negb (formTargetMonthsOverride f)
         then 6%Z : Qc else ROUND (formTargetMonths f) 1)
    ∧ showSettings (view w') = false ∧ showSetup (view w') = false.
Proof.
  intros Hsync Hplain Hfits f w'.
  destruct (saveConfig_one_row clock w Hsync Hplain Hfits)
    as (Htable' & Hcfg' & Hform & Hsettings & Hsetup).
  fold w' f in Htable', Hcfg', Hform, Hsettings, Hsetup.
  match type of Htable' with _ = [?r] => set (r' := r) in * end.
  exists (config_of_row r'). split; [done|]. split.
  { unfold config_in_sync. rewrite Hcfg'. by exists r'. }
  rewrite Hform. subst r'.
  cbn [config_of_row form_of_row saved_row form_values id linked_goal_id
       target_months fund_allocations expense_account_ids excluded_tags
       lookback_months calculation_method formTargetMonthsOverride
       formTargetMonths row_id row_linked_goal_id row_target_months
       row_target_months_override row_fund_allocations
       row_expense_account_ids row_excluded_tags row_lookback_months
       row_calculation_method nullish value_linked_goal_id
       value_target_months value_target_months_override
       value_fund_allocations value_expense_account_ids value_excluded_tags
       value_lookback_months value_calculation_method].
  unfold targetMonthsValue.
  destruct (truthy_str (formLinkedGoalId f) && negb (formTargetMonthsOverride f));
    repeat split; done.
Qed.

Lemma saveConfig_round_trip_witness :
  let w := Scenario.override_unticked in
  (config_in_sync w
   ∧ plain_form (config (view w)) (form (view w)) = true
   ∧ fits_columns (form (view w)))
  ∧ let f := form (view w) in
    let w' := saveConfig Scenario.clock w in
    ∃ cfg',
      config (view w') = Some cfg'
      ∧ config_in_sync w'
      ∧ id cfg' = match config (view w) with
                  | Some cfg => id cfg
                  | None => uuid Scenario.clock
                  end
      ∧ linked_goal_id cfg'
        = (if truthy_str (formLinkedGoalId f) then formLinkedGoalId f
           else None)
      ∧ target_months cfg'
        = (if truthy_str (formLinkedGoalId f)
              && negb (formTargetMonthsOverride f)
           then None else Some (ROUND (formTargetMonths f) 1))
      ∧ fund_allocations cfg' = formFundAllocations f
      ∧ expense_account_ids cfg' = formExpenseAccountIds f
      ∧ excluded_tags cfg' = formExcludedTags f
      ∧ lookback_months cfg'
        = (if (formLookbackMonths f =? 0)%Z then 6%Z else formLookbackMonths f)
      ∧ calculation_method cfg' = formCalculationMethod f
      ∧ formTargetMonthsOverride (form (view w')) = formTargetMonthsOverride f
      ∧ formTargetMonths (form (view w'))
        = (if truthy_str (formLinkedGoalId f)
              && negb (formTargetMonthsOverride f)
           then 6%Z : Qc else ROUND (formTargetMonths f) 1)
      ∧ showSettings (view w') = false ∧ showSetup (view w') = false.
Proof.
  intros w.
  assert (config_in_sync w) as H1.
  { exists Scenario.override_row. split; vm_compute; reflexivity. }
  assert (plain_form (config (view w)) (form (view w)) = true) as H2
    by (vm_compute; reflexivity).
  assert (fits_columns (form (view w))) as H3 by by_evaluation.
  split; [exact (conj H1 (conj H2 H3))|].
  exact (saveConfig_round_trip Scenario.clock w H1 H2 H3).
Defined.

(** A confirmed reset empties the two tables of the plugin and nothing
    else of the data source, leaves no configuration loaded (in step with
    the empty table) and no result, so that taking a snapshot or
    evaluating right after does nothing; a declined reset changes
    nothing. *)
Lemma resetPluginData_clears (today : date) (clock : Clock) (w : World) :
  let w' := resetPluginData true w in
  sys_plugin_emergency_fund_config (db w') = []
  ∧ sys_plugin_emergency_fund_snapshots (db w') = []
  ∧ accounts (db w') = accounts (db w)
  ∧ transactions (db w') = transactions (db w)
  ∧ sys_plugin_goals (db w') = sys_plugin_goals (db w)
  ∧ config_in_sync w'
  ∧ showSetup (view w') = true
  ∧ addSnapshot today clock w' = w'
  ∧ calculateRunway clock w' = w'
  ∧ resetPluginData false w = w.
Proof. cbv zeta. repeat split. Qed.

(** X26: a first save after a reset inserts the one row of the table,
    under the new id. *)
Theorem saveConfig_after_reset (clock : Clock) (w : World) :
  let w' := saveConfig clock (resetPluginData true w) in
  map row_id (sys_plugin_emergency_fund_config (db w')) = [uuid clock]
  ∧ id <$> config (view w') = Some (uuid clock)
  ∧ config_in_sync w'.
Proof.
  cbv zeta.
  assert (config_in_sync (resetPluginData true w)) as Hsync by done.
  assert (config (view (resetPluginData true w)) = None) as Hnone by done.
  assert (form (view (resetPluginData true w)) = initial_form) as Hform
    by done.
  assert (plain_form (config (view (resetPluginData true w)))
            (form (view (resetPluginData true w))) = true) as Hplain
    by (by rewrite Hnone, Hform).
  assert (fits_columns (form (view (resetPluginData true w)))) as Hfits.
  { rewrite Hform. by_evaluation. }
  destruct (saveConfig_one_row clock (resetPluginData true w) Hsync Hplain
              Hfits) as (Htable & Hcfg & _).
  rewrite Hnone in Htable, Hcfg.
  split; [by rewrite Htable|]. split; [by rewrite Hcfg|].
  unfold config_in_sync. rewrite Hcfg. eexists. split; [exact Htable|done].
Qed.

(** ** Edge cases of the evaluation *)

Lemma classify_zero : classify (Num 0) = critical.
Proof. by vm_compute. Qed.

Lemma months_of_zero_balance (me : Qc) : months_of 0 me = 0.
Proof. unfold months_of. case_decide; [|done]. unfold Qcdiv. ring. Qed.

Lemma percent_of_zero_months (t : Qc) : percent_of 0 t = 0.
Proof. unfold percent_of. case_decide; [|done]. unfold Qcdiv. ring. Qed.

(** X27: a configuration that names a goal which is not among the active
    goals counts no account at all, whatever manual allocations are stored:
    the fund balance and the months of runway are 0, the target is the
    configured one or 6, the status is critical, and the derived target is
    left as it was. *)
Theorem calculateRunway_goal_missing (clock : Clock) (w : World)
    (cfg : EmergencyFundConfig) :
  config (view w) = Some cfg →
  truthy_str (linked_goal_id cfg) = true →
  find_goal (goals (view w)) (linked_goal_id cfg) = None →
  ∃ r, runwayData (view (calculateRunway clock w)) = Some r
       ∧ fundBalance r = Num 0
       ∧ monthsOfRunway r = Num 0
       ∧ targetMonths r = Num (nullish (target_months cfg) 6%Z)
       ∧ status r = critical
       ∧ autoTargetMonths (view (calculateRunway clock w))
         = autoTargetMonths (view w).
Proof.
  intros Hcfg Hlinked Hgoal.
  destruct (calculateRunway_result clock w cfg Hcfg) as [Hr Hauto].
  destruct (queryMonthlyExpenses_finite (db w) clock cfg) as [me Hme].
  rewrite Hme in Hr, Hauto.
  assert (allocationsToUse cfg (goals (view w)) = []) as Halloc.
  { unfold allocationsToUse. by rewrite Hlinked, Hgoal. }
  rewrite Halloc in Hr. cbn [calculateFundBalanceFromAllocations] in Hr.
  rewrite resolveTarget_months in Hr.
  assert (linked_goal cfg (goals (view w)) = None) as Hnone.
  { unfold linked_goal. by rewrite Hlinked. }
  rewrite Hnone in Hr.
  destruct (evaluate_finite 0 me (nullish (target_months cfg) 6%Z))
    as (Hfb & _ & Hm & Ht & _ & _ & _ & Hs).
  eexists. split; [exact Hr|]. split; [exact Hfb|].
  split; [by rewrite Hm, months_of_zero_balance|]. split; [exact Ht|].
  split.
  - by rewrite Hs, months_of_zero_balance, percent_of_zero_months,
      classify_zero.
  - rewrite Hauto, resolveTarget_auto. by rewrite Hlinked, Hgoal.
Qed.

Lemma calculateRunway_goal_missing_witness :
  let w := Cases.goal_switched_off in
  let cfg := config_of_row Scenario.goal_row in
  (config (view w) = Some cfg
   ∧ truthy_str (linked_goal_id cfg) = true
   ∧ find_goal (goals (view w)) (linked_goal_id cfg) = None)
  ∧ ∃ r, runwayData (view (calculateRunway Scenario.clock w)) = Some r
         ∧ fundBalance r = Num 0
         ∧ monthsOfRunway r = Num 0
         ∧ targetMonths r = Num (nullish (target_months cfg) 6%Z)
         ∧ status r = critical
         ∧ autoTargetMonths (view (calculateRunway Scenario.clock w))
           = autoTargetMonths (view w).
Proof.
  intros w cfg.
  assert (config (view w) = Some cfg) as H1 by (vm_compute; reflexivity).
  assert (truthy_str (linked_goal_id cfg) = true) as H2
    by (vm_compute; reflexivity).
  assert (find_goal (goals (view w)) (linked_goal_id cfg) = None) as H3
    by (vm_compute; reflexivity).
  split; [exact (conj H1 (conj H2 H3))|].
  exact (calculateRunway_goal_missing Scenario.clock w cfg H1 H2 H3).
Defined.

(** X28: with no included transaction (no expense account selected, or no
    matching outflow in the window) the monthly expenses, the months of
    runway, the target amount and the progress are all 0 and the status is
    critical, whatever the fund balance. *)
Theorem calculateRunway_without_expenses (clock : Clock) (w : World)
    (cfg : EmergencyFundConfig) :
  config (view w) = Some cfg →
  expense_rows (db w) clock cfg = [] →
  ∃ r, runwayData (view (calculateRunway clock w)) = Some r
       ∧ monthlyExpenses r = Num 0
       ∧ monthsOfRunway r = Num 0
       ∧ targetAmount r = Num 0
       ∧ progressPercent r = Num 0
       ∧ status r = critical
       ∧ expenseBreakdown (view (calculateRunway clock w)) = [].
Proof.
  intros Hcfg Hrows.
  destruct (calculateRunway_finite clock w cfg Hcfg) as (fb & me & Hme & Hr).
  destruct (queryMonthlyExpenses_cases (db w) clock cfg) as [Hzero _].
  rewrite (Hzero Hrows) in Hme. injection Hme as <-.
  lazymatch type of Hr with
  | context [evaluate (Num fb) (Num 0) (Num ?t)] => generalize dependent t
  end.
  intros t Hr.
  destruct (evaluate_finite fb 0 t) as (_ & Hme0 & Hm & _ & Hta & Hp & _ & Hs).
  eexists. split; [exact Hr|]. split; [exact Hme0|].
  assert (months_of fb 0 = 0) as Hmonths by done.
  split; [by rewrite Hm, Hmonths|].
  split; [rewrite Hta; f_equal; ring|].
  split.
  { rewrite Hp. f_equal. }
  split; [by rewrite Hs, Hmonths, percent_of_zero_months, classify_zero|].
  rewrite (calculateRunway_view clock w cfg Hcfg).
  cbn [set_expenseBreakdown expenseBreakdown].
  destruct (expense_account_ids cfg); [done|].
  unfold breakdown_query, tagged_expenses. by rewrite Hrows.
Qed.

Lemma calculateRunway_without_expenses_witness :
  let w := Scenario.rent_excluded in
  let cfg := config_of_row
               (hd Scenario.goal_row
                  (sys_plugin_emergency_fund_config (db w))) in
  (config (view w) = Some cfg
   ∧ expense_rows (db w) Scenario.clock cfg = [])
  ∧ ∃ r, runwayData (view (calculateRunway Scenario.clock w)) = Some r
         ∧ monthlyExpenses r = Num 0
         ∧ monthsOfRunway r = Num 0
         ∧ targetAmount r = Num 0
         ∧ progressPercent r = Num 0
         ∧ status r = critical
         ∧ expenseBreakdown (view (calculateRunway Scenario.clock w)) = [].
Proof.
  intros w cfg.
  assert (config (view w) = Some cfg) as H1 by (vm_compute; reflexivity).
  assert (expense_rows (db w) Scenario.clock cfg = []) as H2
    by (vm_compute; reflexivity).
  split; [exact (conj H1 H2)|].
  exact (calculateRunway_without_expenses Scenario.clock w cfg H1 H2).
Defined.

Lemma rows_on_upsert_figures (today : date) (clock : Clock)
    (v : SnapshotFigures) (table : list EmergencyFundSnapshot)
    (s : EmergencyFundSnapshot) :
  unique_dates table →
  s ∈ rows_on today (upsert_snapshot today clock v table) →
  fund_balance s = Num (figure_fund_balance v)
  ∧ monthly_expenses s = Num (figure_monthly_expenses v)
  ∧ months_of_runway s = Num (figure_months_of_runway v).
Proof.
  intros Hunique Hs.
  destruct (rows_on_upsert today clock v table Hunique) as [Hrows _].
  rewrite Hrows in Hs. destruct (rows_on today table) as [|s0 rows].
  - by apply list_elem_of_singleton in Hs as ->.
  - apply list_elem_of_In, in_map_iff in Hs as (s1 & <- & _). done.
Qed.

(** X29: when the figures of the current result fit the columns and no
    stored snapshot is dated after today, the snapshot taken today heads
    the list shown, with the fund balance and the monthly expenses of the
    result rounded to two decimals and its months of runway rounded to
    one. *)
Theorem addSnapshot_shown_first (today : date) (clock : Clock) (w : World)
    (r : RunwayData) :
  runwayData (view w) = Some r →
  is_Some (snapshot_figures r) →
  unique_dates (sys_plugin_emergency_fund_snapshots (db w)) →
  Forall (λ s, (snapshot_date s ≤ today)%Z)
    (sys_plugin_emergency_fund_snapshots (db w)) →
  ∃ s rest,
    snapshots (view (addSnapshot today clock w)) = s :: rest
    ∧ snapshot_date s = today
    ∧ Num <$> DECIMAL 15 2 (fundBalance r) = Some (fund_balance s)
    ∧ Num <$> DECIMAL 15 2 (monthlyExpenses r) = Some (monthly_expenses s)
    ∧ Num <$> DECIMAL 4 1 (monthsOfRunway r) = Some (months_of_runway s).
Proof.
  intros Hr [v Hv] Hunique Hpast.
  set (table := sys_plugin_emergency_fund_snapshots (db w)) in *.
  set (table' := upsert_snapshot today clock v table).
  assert (snapshots (view (addSnapshot today clock w))
          = take 12 (merge_sort by_date_desc table')) as ->.
  { unfold addSnapshot. by rewrite Hr, Hv. }
  destruct (rows_on_upsert today clock v table Hunique) as [_ Hlen].
  fold table' in Hlen.
  destruct (rows_on today table') as [|s2 [|? ?]] eqn:Hrows; try done.
  assert (s2 ∈ table' ∧ snapshot_date s2 = today) as [Hs2 Hs2date].
  { assert (s2 ∈ rows_on today table') as Hin by (rewrite Hrows; left).
    apply list_elem_of_In, filter_In in Hin as [Hin Hd].
    split; [by apply list_elem_of_In|by apply Z.eqb_eq]. }
  assert (Forall (λ s, (snapshot_date s ≤ today)%Z) table') as Hpast'.
  { apply Forall_forall. intros s Hs.
    assert (snapshot_date s ∈ map snapshot_date table') as Hd
      by (apply list_elem_of_In, in_map; by apply list_elem_of_In).
    subst table'. rewrite upsert_snapshot_dates in Hd.
    assert (snapshot_date s ∈ map snapshot_date table ∨ snapshot_date s = today)
      as [Hold| ->]; [| |lia].
    { destruct (existsb _ _); [by left|].
      apply elem_of_app in Hd as [?|?%list_elem_of_singleton]; by eauto. }
    apply list_elem_of_In, in_map_iff in Hold as (s' & <- & Hs').
    rewrite Forall_forall in Hpast. by apply Hpast, list_elem_of_In. }
  pose proof (merge_sort_Permutation by_date_desc table') as Hperm.
  pose proof (StronglySorted_merge_sort by_date_desc table') as Hsorted.
  destruct (merge_sort by_date_desc table') as [|h tl] eqn:Hsort.
  { rewrite <- Hperm in Hs2. by apply elem_of_nil in Hs2. }
  exists h, (take 11 tl). split; [done|].
  assert (h ∈ table') as Hh by (rewrite <- Hperm; left).
  assert (snapshot_date h = today) as Hhdate.
  { apply Z.le_antisymm.
    - rewrite Forall_forall in Hpast'. by apply Hpast'.
    - rewrite <- Hs2date. rewrite <- Hperm in Hs2.
      apply elem_of_cons in Hs2 as [->|Hin]; [done|].
      apply StronglySorted_cons in Hsorted as [Hall _].
      rewrite Forall_forall in Hall. by apply Hall. }
  split; [done|].
  destruct (snapshot_figures_columns r v Hv) as (-> & -> & ->).
  destruct (rows_on_upsert_figures today clock v table h Hunique)
    as (-> & -> & ->); [|done].
  fold table'. apply list_elem_of_In, filter_In.
  split; [by apply list_elem_of_In|by apply Z.eqb_eq].
Qed.

Lemma addSnapshot_shown_first_witness :
  let w := Cases.with_history in
  let r := Scenario.result_of w in
  (runwayData (view w) = Some r
   ∧ is_Some (snapshot_figures r)
   ∧ unique_dates (sys_plugin_emergency_fund_snapshots (db w))
   ∧ Forall (λ s, (snapshot_date s ≤ 20000)%Z)
       (sys_plugin_emergency_fund_snapshots (db w)))
  ∧ length (snapshots (view (addSnapshot 20000 Scenario.clock w))) = 2%nat
  ∧ ∃ s rest,
      snapshots (view (addSnapshot 20000 Scenario.clock w)) = s :: rest
      ∧ snapshot_date s = 20000%Z
      ∧ Num <$> DECIMAL 15 2 (fundBalance r) = Some (fund_balance s)
      ∧ Num <$> DECIMAL 15 2 (monthlyExpenses r) = Some (monthly_expenses s)
      ∧ Num <$> DECIMAL 4 1 (monthsOfRunway r) = Some (months_of_runway s).
Proof.
  intros w r.
  assert (runwayData (view w) = Some r) as H1 by (vm_compute; reflexivity).
  assert (is_Some (snapshot_figures r)) as H2 by by_evaluation.
  assert (unique_dates (sys_plugin_emergency_fund_snapshots (db w))) as H3
    by by_evaluation.
  assert (Forall (λ s, (snapshot_date s ≤ 20000)%Z)
            (sys_plugin_emergency_fund_snapshots (db w))) as H4
    by by_evaluation.
  split; [exact (conj H1 (conj H2 (conj H3 H4)))|].
  split; [vm_compute; reflexivity|].
  exact (addSnapshot_shown_first 20000 Scenario.clock w r H1 H2 H3 H4).
Defined.
